(** * ClaimGuard: the policy-analysis and claim-simulation core of [main.py]

    A shallow embedding of [RiskPredictor], [PolicyAnalyzer] and the
    [simulate_claim] route, with the properties the specification states
    about them.

    Modelling conventions.
    - A Python [str] is a [string] of 8-bit characters, read as the code
      points U+0000..U+00FF.  On this alphabet [str.lower], [str.strip],
      [str.isspace] and the classes [\s] and [\d] of [re] are the finite
      tables written out below.  The rupee sign U+20B9 that some patterns
      mention lies outside the alphabet and is the pattern [Never].
    - A Python [int] is a [Z].  A Python [float] is an exact rational [Q]:
      the rounding error of binary64 arithmetic is outside the model, while
      [int(x)], [round(x)] and [round(x, 1)] are modelled on the exact value.
    - A Python exception is a value of [exn] carried by [Raise]. *)

From Stdlib Require Import ZArith QArith Qround Qminmax Lia Lqa List Bool Ascii String.
From Stdlib Require Import Sorted Permutation.
From Stdlib Require DecimalString.
Import ListNotations.

Set Implicit Arguments.

Local Open Scope string_scope.

(* ================================================================= *)
(** ** Outcomes of fallible code *)

Inductive exn : Type :=
| ValueError (msg : string)
| ZeroDivisionError (msg : string)
| ChartError (msg : string).

Inductive result (A : Type) : Type :=
| Ok (a : A)
| Raise (e : exn).

Arguments Ok {A} a.
Arguments Raise {A} e.

Definition bind {A B : Type} (r : result A) (f : A -> result B) : result B :=
  match r with
  | Ok a => f a
  | Raise e => Raise e
  end.

Notation "x <- c1 ;; c2" := (bind c1 (fun x => c2))
  (at level 61, c1 at next level, right associativity).

(* ================================================================= *)
(** ** Characters and strings *)

Module Str.

Definition code (c : ascii) : N := N_of_ascii c.

Definition in_range (lo hi : N) (c : ascii) : bool :=
  (N.leb lo (code c) && N.leb (code c) hi)%bool.

(** [str.isspace] on one character; also the class [\s]. *)
Definition isspace (c : ascii) : bool :=
  (in_range 9 13 c || in_range 28 32 c
   || N.eqb (code c) 133 || N.eqb (code c) 160)%bool.

(** The class [\d]. *)
Definition isdigit (c : ascii) : bool := in_range 48 57 c.

Definition is_upper (c : ascii) : bool :=
  (in_range 65 90 c || in_range 192 214 c || in_range 216 222 c)%bool.

Definition is_lower_with_upper (c : ascii) : bool :=
  (in_range 97 122 c || in_range 224 246 c || in_range 248 254 c)%bool.

Definition lower_char (c : ascii) : ascii :=
  if is_upper c then ascii_of_N (code c + 32) else c.

Definition upper_char (c : ascii) : ascii :=
  if is_lower_with_upper c then ascii_of_N (code c - 32) else c.

(** [s.lower()] *)
Fixpoint lower (s : string) : string :=
  match s with
  | EmptyString => EmptyString
  | String c s' => String (lower_char c) (lower s')
  end.

(** [s.capitalize()]: the first character in title case, the rest in
    lower case.  The sharp s becomes [Ss]; the capitals of the micro sign
    and of y with diaeresis lie outside the alphabet and the two
    characters are kept as they are. *)
Definition capitalize (s : string) : string :=
  match s with
  | EmptyString => EmptyString
  | String c s' =>
      if N.eqb (code c) 223
      then String "S" (String "s" (lower s'))
      else String (upper_char c) (lower s')
  end.

Fixpoint rev_onto (s acc : string) : string :=
  match s with
  | EmptyString => acc
  | String c s' => rev_onto s' (String c acc)
  end.

Definition rev (s : string) : string := rev_onto s EmptyString.

(** [s.lstrip()] *)
Fixpoint lstrip (s : string) : string :=
  match s with
  | EmptyString => EmptyString
  | String c s' => if isspace c then lstrip s' else s
  end.

(** [s.strip()] *)
Definition strip (s : string) : string := rev (lstrip (rev (lstrip s))).

(** [s[:n]] *)
Fixpoint take (n : nat) (s : string) : string :=
  match n, s with
  | S n', String c s' => String c (take n' s')
  | _, _ => EmptyString
  end.

(** [s[n:]] *)
Fixpoint drop (n : nat) (s : string) : string :=
  match n, s with
  | S n', String _ s' => drop n' s'
  | _, _ => s
  end.

(** [s.startswith(p)] *)
Fixpoint startswith (p s : string) : bool :=
  match p, s with
  | EmptyString, _ => true
  | String a p', String b s' => (Ascii.eqb a b && startswith p' s')%bool
  | String _ _, EmptyString => false
  end.

(** [sub in s] *)
Fixpoint contains (sub s : string) : bool :=
  (startswith sub s
   || match s with
      | EmptyString => false
      | String _ s' => contains sub s'
      end)%bool.

(** [s.count(sub)]: occurrences counted from the left without overlap;
    [skip] is the number of characters still covered by the occurrence
    counted last. *)
Fixpoint count_from (sub s : string) (skip : nat) : nat :=
  match s with
  | EmptyString =>
      match skip, sub with
      | O, EmptyString => 1
      | _, _ => 0
      end
  | String _ s' =>
      match skip with
      | S k => count_from sub s' k
      | O => if startswith sub s
             then S (count_from sub s' (length sub - 1))
             else count_from sub s' 0
      end
  end.

Definition count (s sub : string) : nat := count_from sub s 0.

(** [s.split(sep)] for a one-character separator *)
Fixpoint split_acc (sep : ascii) (s acc : string) : list string :=
  match s with
  | EmptyString => [rev acc]
  | String c s' =>
      if Ascii.eqb c sep
      then rev acc :: split_acc sep s' EmptyString
      else split_acc sep s' (String c acc)
  end.

Definition split (sep : ascii) (s : string) : list string :=
  split_acc sep s EmptyString.

(** [s.replace(old, "")] for a one-character [old] *)
Fixpoint remove_char (old : ascii) (s : string) : string :=
  match s with
  | EmptyString => EmptyString
  | String c s' =>
      if Ascii.eqb c old then remove_char old s'
      else String c (remove_char old s')
  end.

(** [x in xs] for a list of strings *)
Definition mem (x : string) (xs : list string) : bool :=
  existsb (String.eqb x) xs.

End Str.

(* ================================================================= *)
(** ** Numbers *)

Module Num.

Local Open Scope Z_scope.

Definition digit_val (c : ascii) : Z := Z.of_N (Str.code c) - 48.

Fixpoint digits_acc (s : string) (acc : Z) : Z :=
  match s with
  | EmptyString => acc
  | String c s' => digits_acc s' (10 * acc + digit_val c)
  end.

(** [int(s)] on a string of decimal digits, as [\d+] captures them *)
Definition int_of_digits (s : string) : Z := digits_acc s 0.

(** [int(x)] on a float: truncation toward zero *)
Definition py_int (x : Q) : Z :=
  if Qle_bool 0 x then Qfloor x else Qceiling x.

(** [round(x)]: the nearest integer, a tie going to the even one *)
Definition py_round (x : Q) : Z :=
  let f := Qfloor x in
  let twice := ((x - inject_Z f) * 2)%Q in
  match Qcompare twice 1%Q with
  | Lt => f
  | Gt => f + 1
  | Eq => if Z.even f then f else f + 1
  end.

(** [round(x, 1)]: [x] rounded to one decimal place *)
Definition round1 (x : Q) : Q := (inject_Z (py_round (x * 10)) / 10)%Q.

(** [min(a, b)] and [max(a, b)] as Python evaluates them *)
Definition py_min (a b : Z) : Z := if b <? a then b else a.
Definition py_max (a b : Z) : Z := if a <? b then b else a.

Definition qmin (a b : Q) : Q :=
  match Qcompare b a with Lt => b | _ => a end.

Fixpoint zsum (l : list Z) : Z :=
  match l with
  | [] => 0
  | x :: l' => x + zsum l'
  end.

(** [np.mean(l) if l else 0] *)
Definition mean_or_zero (l : list Z) : Q :=
  match l with
  | [] => 0%Q
  | _ => (inject_Z (zsum l) / inject_Z (Z.of_nat (List.length l)))%Q
  end.

End Num.

(* ================================================================= *)
(** ** Regular expressions, as [re] matches them

    A backtracking matcher in continuation-passing style: alternatives are
    tried from the left, repetition is greedy, and the first way of matching
    that lets the rest of the pattern succeed is the match. *)

Module Re.

Inductive cset : Type :=
| CChar (c : ascii)
| CDigit
| CSpace.

Inductive regex : Type :=
| Eps
| Never
| Lit (c : ascii)
| OneOf (items : list cset)
| NoneOf (items : list cset)
| Cat (r1 r2 : regex)
| Alt (r1 r2 : regex)
| Star (r : regex)
| Group (i : nat) (r : regex).

Definition opt (r : regex) : regex := Alt r Eps.
Definition plus (r : regex) : regex := Cat r (Star r).

Fixpoint lit (s : string) : regex :=
  match s with
  | EmptyString => Eps
  | String c EmptyString => Lit c
  | String c s' => Cat (Lit c) (lit s')
  end.

Fixpoint cats (rs : list regex) : regex :=
  match rs with
  | [] => Eps
  | [r] => r
  | r :: rs' => Cat r (cats rs')
  end.

Fixpoint alts (rs : list regex) : regex :=
  match rs with
  | [] => Never
  | [r] => r
  | r :: rs' => Alt r (alts rs')
  end.

Definition digit : regex := OneOf [CDigit].
Definition space : regex := OneOf [CSpace].
Definition rupee : regex := Never.

Definition in_cset (c : ascii) (i : cset) : bool :=
  match i with
  | CChar a => Ascii.eqb a c
  | CDigit => Str.isdigit c
  | CSpace => Str.isspace c
  end.

Definition captures : Type := list (nat * string).

Fixpoint lookup (i : nat) (g : captures) : option string :=
  match g with
  | [] => None
  | (j, s) :: g' => if Nat.eqb i j then Some s else lookup i g'
  end.

(** What a sub-pattern consumed: the part of [s] before its suffix [s']. *)
Definition consumed (s s' : string) : string :=
  Str.take (length s - length s') s.

Section Run.
Variable R : Type.

Definition step (p : ascii -> bool) (s : string) (g : captures)
           (k : string -> captures -> option R) : option R :=
  match s with
  | String c s' => if p c then k s' g else None
  | EmptyString => None
  end.

Fixpoint run (r : regex) (s : string) (g : captures)
         (k : string -> captures -> option R) {struct r} : option R :=
  match r with
  | Eps => k s g
  | Never => None
  | Lit a => step (Ascii.eqb a) s g k
  | OneOf items => step (fun c => existsb (in_cset c) items) s g k
  | NoneOf items => step (fun c => negb (existsb (in_cset c) items)) s g k
  | Cat r1 r2 => run r1 s g (fun s' g' => run r2 s' g' k)
  | Alt r1 r2 =>
      match run r1 s g k with
      | Some x => Some x
      | None => run r2 s g k
      end
  | Star r1 =>
      (fix loop (fuel : nat) (s : string) (g : captures) : option R :=
         match fuel with
         | O => k s g
         | S fuel' =>
             match run r1 s g
                     (fun s' g' =>
                        if Nat.ltb (length s') (length s)
                        then loop fuel' s' g' else None) with
             | Some x => Some x
             | None => k s g
             end
         end) (S (length s)) s g
  | Group i r1 =>
      run r1 s g (fun s' g' => k s' ((i, consumed s s') :: g'))
  end.
End Run.

Record match_obj : Type := {
  m_start : nat;
  m_end : nat;
  m_text : string;
  m_groups : captures
}.

(** [m.group(i)] for [i >= 1]; [None] when the group took no part *)
Definition group (i : nat) (m : match_obj) : option string :=
  lookup i (m_groups m).

(** The match of [r] that starts at the head of [s], which is at offset
    [pos] of the text. *)
Definition match_at (r : regex) (s : string) (pos : nat) : option match_obj :=
  run r s [] (fun s' g =>
    Some {| m_start := pos;
            m_end := pos + (length s - length s');
            m_text := consumed s s';
            m_groups := g |}).

(** [re.search(r, s)] where [s] begins at offset [pos] *)
Fixpoint search_from (r : regex) (s : string) (pos : nat) : option match_obj :=
  match match_at r s pos with
  | Some m => Some m
  | None =>
      match s with
      | EmptyString => None
      | String _ s' => search_from r s' (S pos)
      end
  end.

Definition search (r : regex) (s : string) : option match_obj :=
  search_from r s 0.

(** The successive matches [re.finditer] yields, for a pattern that
    matches no empty string (every pattern scanned this way here begins
    with a literal or a [\d+]): after a match the scan resumes at its end. *)
Fixpoint matches_from (r : regex) (s : string) (pos skip : nat) : list match_obj :=
  match skip with
  | S k =>
      match s with
      | EmptyString => []
      | String _ s' => matches_from r s' (S pos) k
      end
  | O =>
      match match_at r s pos with
      | Some m =>
          m :: match s with
               | EmptyString => []
               | String _ s' =>
                   matches_from r s' (S pos) (m_end m - m_start m - 1)
               end
      | None =>
          match s with
          | EmptyString => []
          | String _ s' => matches_from r s' (S pos) 0
          end
      end
  end.

Definition finditer (r : regex) (s : string) : list match_obj :=
  matches_from r s 0 0.

(** [re.findall] for a pattern without groups: the matched texts *)
Definition findall (r : regex) (s : string) : list string :=
  map m_text (finditer r s).

(** [re.findall] for a pattern with the groups [1..n]: one tuple per
    match, a group that took no part giving the empty string *)
Definition group_or_empty (i : nat) (m : match_obj) : string :=
  match group i m with Some t => t | None => "" end.

Definition findall_groups (n : nat) (r : regex) (s : string) : list (list string) :=
  map (fun m => map (fun i => group_or_empty i m) (seq 1 n)) (finditer r s).

(** [re.sub(r, rep, s)], same proviso as [finditer] *)
Fixpoint sub_from (r : regex) (rep s : string) (skip : nat) : string :=
  match skip with
  | S k =>
      match s with
      | EmptyString => EmptyString
      | String _ s' => sub_from r rep s' k
      end
  | O =>
      match match_at r s 0 with
      | Some m =>
          rep ++ match s with
                 | EmptyString => EmptyString
                 | String _ s' => sub_from r rep s' (m_end m - 1)
                 end
      | None =>
          match s with
          | EmptyString => EmptyString
          | String c s' => String c (sub_from r rep s' 0)
          end
      end
  end.

Definition sub (r : regex) (rep s : string) : string := sub_from r rep s 0.

End Re.

(* ================================================================= *)
(** ** Dictionaries with string keys, in insertion order *)

Definition dict (V : Type) : Type := list (string * V).

(** [d.get(key)] *)
Fixpoint dict_find {V : Type} (key : string) (d : dict V) : option V :=
  match d with
  | [] => None
  | (k, v) :: d' => if String.eqb key k then Some v else dict_find key d'
  end.

(** [d.get(key, default)] *)
Definition dict_get {V : Type} (key : string) (default : V) (d : dict V) : V :=
  match dict_find key d with
  | Some v => v
  | None => default
  end.

(** The loop [for pattern in patterns: match = re.search(pattern, s); if
    match: ...]: the first pattern of the list that matches, with its match. *)
Fixpoint first_match (patterns : list Re.regex) (s : string) : option Re.match_obj :=
  match patterns with
  | [] => None
  | p :: rest =>
      match Re.search p s with
      | Some m => Some m
      | None => first_match rest s
      end
  end.

(* ================================================================= *)
(** ** class RiskPredictor *)

Module RiskPredictor.

Import Re.
Local Open Scope Z_scope.

(** The feature mapping of [extract_features]: fifteen keyword counts and
    the derived scalars. *)
Record features : Type := {
  waiting_period : Z;
  exclusion : Z;
  co_pay : Z;
  sub_limit : Z;
  room_rent : Z;
  pre_existing : Z;
  claim_days : Z;
  deductible : Z;
  disease : Z;
  surgery : Z;
  hospital : Z;
  percentage : Z;
  money : Z;
  time : Z;
  limit : Z;
  avg_percentage : Q;
  avg_amount : Q;
  has_days : Z;
  has_months : Z;
  has_years : Z;
  length : Q
}.

(** [sum(text_lower.count(word) for word in words)] *)
Definition count_words (text_lower : string) (words : list string) : Z :=
  Num.zsum (map (fun word => Z.of_nat (Str.count text_lower word)) words).

(** [r'(\d+)%'] *)
Definition percent_re : regex := Cat (Group 1 (plus digit)) (Lit "%").

(** [r'rs\.?\s*(\d+)|U+20B9\s*(\d+)'] *)
Definition amount_re : regex :=
  Alt (cats [lit "rs"; opt (Lit "."); Star space; Group 1 (plus digit)])
      (cats [rupee; Star space; Group 2 (plus digit)]).

(** [r'(\d+)\s*(day|days)'] and its siblings *)
Definition period_re (unit_ units : string) : regex :=
  cats [Group 1 (plus digit); Star space; Group 2 (Alt (lit unit_) (lit units))].

(** [for match in amounts: for val in match: if val: flat.append(int(val))] *)
Definition flatten_amounts (amounts : list (list string)) : list Z :=
  flat_map (fun tuple =>
              flat_map (fun val => if String.eqb val "" then []
                                   else [Num.int_of_digits val]) tuple)
           amounts.

Definition extract_features (text : string) : features :=
  let text_lower := Str.lower text in
  let percentages := map (group_or_empty 1) (finditer percent_re text_lower) in
  let amounts := findall_groups 2 amount_re text_lower in
  let flat_amounts := flatten_amounts amounts in
  let days := findall_groups 2 (period_re "day" "days") text_lower in
  let months := findall_groups 2 (period_re "month" "months") text_lower in
  let years := findall_groups 2 (period_re "year" "years") text_lower in
  {| waiting_period :=
       count_words text_lower ["waiting period"; "waiting time"; "cooling period"];
     exclusion :=
       count_words text_lower ["exclusion"; "not covered"; "excluded"; "not payable"];
     co_pay :=
       count_words text_lower ["co-pay"; "copay"; "coinsurance"; "payable by insured"];
     sub_limit :=
       count_words text_lower ["sub-limit"; "sublimit"; "cap of"; "maximum limit"];
     room_rent :=
       count_words text_lower ["room rent"; "room charges"; "accommodation"];
     pre_existing :=
       count_words text_lower ["pre-existing"; "preexisting"; "existing condition"];
     claim_days :=
       count_words text_lower ["within 24 hours"; "within 48 hours"; "immediately"];
     deductible :=
       count_words text_lower ["deductible"; "excess amount"; "first pay"];
     disease :=
       count_words text_lower ["cancer"; "diabetes"; "heart"; "kidney"; "liver"; "hiv"];
     surgery :=
       count_words text_lower ["surgery"; "operation"; "procedure"; "treatment"];
     hospital :=
       count_words text_lower ["hospital"; "medical"; "healthcare"; "clinic"];
     percentage :=
       count_words text_lower ["%"; "percent"; "percentage"];
     money :=
       count_words text_lower ["rupees"; "rs"; "inr"; "lakh"; "thousand"];
     time :=
       count_words text_lower ["day"; "days"; "month"; "months"; "year"; "years"];
     limit :=
       count_words text_lower ["limit"; "capped"; "maximum"; "upto"];
     avg_percentage := Num.mean_or_zero (map Num.int_of_digits percentages);
     avg_amount := Num.mean_or_zero flat_amounts;
     has_days := Z.of_nat (List.length days);
     has_months := Z.of_nat (List.length months);
     has_years := Z.of_nat (List.length years);
     length := Num.qmin (inject_Z (Z.of_nat (String.length text)) / 1000) 10
  |}.

(** [predict_risk(text, policy_type, age, has_disease)], statement by
    statement; each [let] rebinds the variable the Python line updates. *)
Definition predict_risk (text policy_type : string) (age : Z)
           (has_disease : bool) : dict Z :=
  let features := extract_features text in
  let coverage_risk := 20 in
  let coverage_risk := coverage_risk + waiting_period features * 8 in
  let coverage_risk := coverage_risk + exclusion features * 10 in
  let coverage_risk := coverage_risk + pre_existing features * 12 in
  let coverage_risk := coverage_risk + disease features * 5 in
  let coverage_risk := coverage_risk + has_years features * 5 in
  let coverage_risk :=
    if String.eqb policy_type "Health Insurance" then coverage_risk + 10
    else if String.eqb policy_type "Car Insurance" then coverage_risk - 10
    else if String.eqb policy_type "Life Insurance" then coverage_risk - 5
    else coverage_risk in
  let cost_risk := 15 in
  let cost_risk := cost_risk + co_pay features * 12 in
  let cost_risk := cost_risk + sub_limit features * 10 in
  let cost_risk := cost_risk + room_rent features * 8 in
  let cost_risk := cost_risk + percentage features * 5 in
  let cost_risk := cost_risk + money features * 3 in
  let cost_risk := cost_risk + deductible features * 10 in
  let cost_risk := (inject_Z cost_risk + avg_percentage features * (3 # 2))%Q in
  let delay_risk := 10 in
  let delay_risk := delay_risk + claim_days features * 15 in
  let delay_risk := delay_risk + time features * 4 in
  let delay_risk := delay_risk + has_days features * 8 in
  let delay_risk := delay_risk + has_months features * 5 in
  let '(coverage_risk, delay_risk) :=
    if age >? 60 then (coverage_risk + 15, delay_risk + 10)
    else if age >? 45 then (coverage_risk + 8, delay_risk + 5)
    else (coverage_risk, delay_risk) in
  let '(coverage_risk, cost_risk) :=
    if has_disease then (coverage_risk + 20, (cost_risk + 10)%Q)
    else (coverage_risk, cost_risk) in
  let coverage_risk := Num.py_min (Num.py_max coverage_risk 0) 100 in
  let cost_risk := Num.py_min (Num.py_max (Num.py_int cost_risk) 0) 100 in
  let delay_risk := Num.py_min (Num.py_max delay_risk 0) 100 in
  [("coverage_risk", coverage_risk);
   ("cost_risk", cost_risk);
   ("delay_risk", delay_risk)].

(** The seven patterns of [extract_co_pay_percentage], in order. *)
Definition co_pay_patterns : list regex :=
  let sep := OneOf [CChar "-"; CSpace] in
  let colon_or_space := OneOf [CChar ":"; CSpace] in
  let number := Group 1 (plus digit) in
  [ (* co[-\s]?pay[:\s]*(\d+)% *)
    cats [lit "co"; opt sep; lit "pay"; Star colon_or_space; number; Lit "%"];
    (* copayment[:\s]*(\d+)% *)
    cats [lit "copayment"; Star colon_or_space; number; Lit "%"];
    (* co[-\s]?insurance[:\s]*(\d+)% *)
    cats [lit "co"; opt sep; lit "insurance"; Star colon_or_space; number; Lit "%"];
    (* payable by insured[:\s]*(\d+)% *)
    cats [lit "payable by insured"; Star colon_or_space; number; Lit "%"];
    (* (\d+)%\s*co[-\s]?pay *)
    cats [number; Lit "%"; Star space; lit "co"; opt sep; lit "pay"];
    (* (\d+)%\s*copayment *)
    cats [number; Lit "%"; Star space; lit "copayment"];
    (* (\d+)%\s*co-insurance *)
    cats [number; Lit "%"; Star space; lit "co-insurance"] ].

(** [extract_co_pay_percentage(text)]; group 1 takes part in every match
    of every pattern. *)
Definition extract_co_pay_percentage (text : string) : Z :=
  let text_lower := Str.lower text in
  match first_match co_pay_patterns text_lower with
  | Some m => Num.int_of_digits (group_or_empty 1 m)
  | None =>
      if (Str.contains "co-pay" text_lower
          || Str.contains "copay" text_lower
          || Str.contains "co-payment" text_lower)%bool
      then 10
      else 0
  end.

End RiskPredictor.

(* ================================================================= *)
(** ** class PolicyAnalyzer *)

Module PolicyAnalyzer.

Import Re.

(** *** The policy type table *)



(** *** extract_policy_type *)






(** [sum(values)] of floats, from the left starting at 0 *)
Definition qsum (l : list Q) : Q := fold_left Qplus l 0%Q.





(** *** extract_sum_insured *)

(** [(?:rs\.?|U+20B9)?] *)
Definition currency_opt : regex :=
  opt (Alt (Cat (lit "rs") (opt (Lit "."))) rupee).

(** [([\d,]+(?:\.\d{1,2})?)] *)
Definition amount_group : regex :=
  Group 1 (Cat (plus (OneOf [CDigit; CChar ","]))
               (opt (cats [Lit "."; digit; opt digit]))).

(** [(?:lakh|lac|crore|million|thousand)] *)
Definition unit_suffix : regex :=
  alts [lit "lakh"; lit "lac"; lit "crore"; lit "million"; lit "thousand"].

Definition colon_or_space : regex := OneOf [CChar ":"; CSpace].

Definition sum_insured_patterns : list regex :=
  [ (* (?:sum\s*insured|cover|coverage|sum\s*assured)[:\s]*(?:rs\.?|U+20B9)?\s*
       ([\d,]+(?:\.\d{1,2})?)\s*(?:lakh|lac|crore|million|thousand)? *)
    cats [alts [cats [lit "sum"; Star space; lit "insured"];
                lit "cover";
                lit "coverage";
                cats [lit "sum"; Star space; lit "assured"]];
          Star colon_or_space; currency_opt; Star space; amount_group;
          Star space; opt unit_suffix];
    (* (?:policy\s*amount|cover\s*amount|benefit\s*amount)[:\s]*(?:rs\.?|U+20B9)?\s*
       ([\d,]+(?:\.\d{1,2})?) *)
    cats [alts [cats [lit "policy"; Star space; lit "amount"];
                cats [lit "cover"; Star space; lit "amount"];
                cats [lit "benefit"; Star space; lit "amount"]];
          Star colon_or_space; currency_opt; Star space; amount_group];
    (* (?:liability|maximum\s*benefit)[:\s]*(?:of)?\s*(?:rs\.?|U+20B9)?\s*
       ([\d,]+(?:\.\d{1,2})?) *)
    cats [alts [lit "liability";
                cats [lit "maximum"; Star space; lit "benefit"]];
          Star colon_or_space; opt (lit "of"); Star space; currency_opt;
          Star space; amount_group];
    (* up\s*to\s*(?:rs\.?|U+20B9)?\s*([\d,]+(?:\.\d{1,2})?) *)
    cats [lit "up"; Star space; lit "to"; Star space; currency_opt;
          Star space; amount_group];
    (* cover\s*of\s*(?:rs\.?|U+20B9)?\s*([\d,]+(?:\.\d{1,2})?) *)
    cats [lit "cover"; Star space; lit "of"; Star space; currency_opt;
          Star space; amount_group] ].

(** The digits of [s] before and after its first point. *)
Fixpoint split_point (s : string) : string * option string :=
  match s with
  | EmptyString => (EmptyString, None)
  | String c s' =>
      if Ascii.eqb c "." then (EmptyString, Some s')
      else let '(a, b) := split_point s' in (String c a, b)
  end.

Fixpoint all_digits (s : string) : bool :=
  match s with
  | EmptyString => true
  | String c s' => (Str.isdigit c && all_digits s')%bool
  end.

(** [float(s)] on a string of digits and points, which is all that group
    1 of the patterns above can hold: digits, then optionally a point and
    digits, with a digit somewhere; any other such string is a
    [ValueError]. *)
Definition py_float (s : string) : result Q :=
  let '(int_part, frac) := split_point s in
  let frac_part := match frac with Some f => f | None => "" end in
  if (all_digits int_part && all_digits frac_part
      && Nat.ltb 0 (String.length int_part + String.length frac_part))%bool
  then Ok (inject_Z (Num.int_of_digits int_part)
           + inject_Z (Num.int_of_digits frac_part)
             / inject_Z (10 ^ Z.of_nat (String.length frac_part)))%Q
  else Raise (ValueError ("could not convert string to float: '" ++ s ++ "'")).

Definition digits (n : Z) : string :=
  DecimalString.NilZero.string_of_uint (N.to_uint (Z.to_N n)).

Fixpoint strip_trailing_zeros_rev (s : string) : string :=
  match s with
  | String "0" s' => strip_trailing_zeros_rev s'
  | _ => s
  end.

(** [str(x)] of a float holding a non-negative whole number: the digits
    followed by [.0] up to sixteen digits, the exponent form beyond.  The
    products formed below are such numbers, the multiplier clearing the
    two decimals of the amount. *)
Definition float_str (x : Q) : string :=
  let ds := digits (Qfloor x) in
  if Nat.leb (String.length ds) 16 then ds ++ ".0"
  else
    match ds with
    | EmptyString => ds
    | String d rest =>
        let mantissa := Str.rev (strip_trailing_zeros_rev (Str.rev rest)) in
        String d (match mantissa with
                  | EmptyString => ""
                  | _ => "." ++ mantissa
                  end)
        ++ "e+" ++ digits (Z.of_nat (String.length rest))
    end.

(** [str(float(amount) * multiplier)] *)
Definition scaled (amount : string) (multiplier : Z) : result string :=
  x <- py_float amount ;;
  Ok (float_str (x * inject_Z multiplier)).

(** The body run on the first pattern that matches. *)
Definition sum_insured_of_match (text_lower : string) (m : match_obj)
  : result string :=
  let amount := Str.remove_char "," (group_or_empty 1 m) in
  let window := Str.take 10 (Str.drop (m_end m) text_lower) in
  match search unit_suffix window with
  | Some suffix_match =>
      let suffix := m_text suffix_match in
      if (Str.contains "lakh" suffix || Str.contains "lac" suffix)%bool
      then scaled amount 100000
      else if Str.contains "crore" suffix then scaled amount 10000000
      else if Str.contains "million" suffix then scaled amount 1000000
      else if Str.contains "thousand" suffix then scaled amount 1000
      else Ok amount
  | None => Ok amount
  end.

Definition extract_sum_insured (text : string) : result string :=
  let text_lower := Str.lower text in
  match first_match sum_insured_patterns text_lower with
  | Some m => sum_insured_of_match text_lower m
  | None => Ok "Not specified"
  end.

(** *** extract_exclusions *)

(** [[^.]*\.] *)
Definition to_period : regex := Cat (Star (NoneOf [CChar "."])) (Lit ".").

Definition exclusion_patterns : list regex :=
  [ (* (?:not\s+cover(?:ed)?|exclusion|excluded)[^.]*\. *)
    Cat (alts [cats [lit "not"; plus space; lit "cover"; opt (lit "ed")];
               lit "exclusion";
               lit "excluded"])
        to_period;
    (* (?:will\s+not\s+pay|not\s+liable)[^.]*\. *)
    Cat (alts [cats [lit "will"; plus space; lit "not"; plus space; lit "pay"];
               cats [lit "not"; plus space; lit "liable"]])
        to_period;
    (* (?:does\s+not\s+apply|not\s+included)[^.]*\. *)
    Cat (alts [cats [lit "does"; plus space; lit "not"; plus space; lit "apply"];
               cats [lit "not"; plus space; lit "included"]])
        to_period;
    (* (?:limitations?|restrictions?)[^.]*\. *)
    Cat (alts [Cat (lit "limitation") (opt (Lit "s"));
               Cat (lit "restriction") (opt (Lit "s"))])
        to_period;
    (* (?:waiting\s+period)[^.]*\. *)
    Cat (cats [lit "waiting"; plus space; lit "period"]) to_period;
    (* (?:pre-existing\s+condition)[^.]*\. *)
    Cat (cats [lit "pre-existing"; plus space; lit "condition"]) to_period ].

(** The body of the inner loop: [exclusions] after one match. *)
Definition add_exclusion (exclusions : list string) (match_ : string)
  : list string :=
  let clean_match := Str.strip match_ in
  let clean_match := sub (plus space) " " clean_match in
  if (Nat.ltb 15 (String.length clean_match)
      && negb (Str.mem clean_match exclusions))%bool
  then (exclusions ++ [Str.capitalize clean_match])%list
  else exclusions.

(** The two nested loops: the list [exclusions] when they end. *)
Definition collect_exclusions (text_lower : string) : list string :=
  fold_left
    (fun exclusions pattern =>
       fold_left add_exclusion (findall pattern text_lower) exclusions)
    exclusion_patterns [].

(** [list(dict.fromkeys(l))]: a key enters the dictionary when it is first
    seen and keeps that place. *)
Definition fromkeys (l : list string) : list string :=
  fold_left (fun keys x => if Str.mem x keys then keys else (keys ++ [x])%list) l [].

Definition extract_exclusions (text : string) : list string :=
  let text_lower := Str.lower text in
  firstn 8 (fromkeys (collect_exclusions text_lower)).

(** *** extract_key_clauses *)

Definition hyphen_or_space : regex := OneOf [CChar "-"; CSpace].

(** The dictionary [terms], in the order it is written. *)
Definition terms : dict regex :=
  [ (* waiting[-\s]?period|waiting\s+time|pre[-\s]?existing\s+waiting *)
    ("waiting period",
     alts [cats [lit "waiting"; opt hyphen_or_space; lit "period"];
           cats [lit "waiting"; plus space; lit "time"];
           cats [lit "pre"; opt hyphen_or_space; lit "existing"; plus space;
                 lit "waiting"]]);
    (* exclusion|not\s+cover|will\s+not\s+cover|excluded|not\s+payable *)
    ("exclusion",
     alts [lit "exclusion";
           cats [lit "not"; plus space; lit "cover"];
           cats [lit "will"; plus space; lit "not"; plus space; lit "cover"];
           lit "excluded";
           cats [lit "not"; plus space; lit "payable"]]);
    (* co[-\s]?pay|copayment|co-payment|coinsurance *)
    ("co-pay",
     alts [cats [lit "co"; opt hyphen_or_space; lit "pay"];
           lit "copayment"; lit "co-payment"; lit "coinsurance"]);
    (* sub[-\s]?limit|sublimit|limit\s+of\s+coverage|cap\s+of *)
    ("sub-limit",
     alts [cats [lit "sub"; opt hyphen_or_space; lit "limit"];
           lit "sublimit";
           cats [lit "limit"; plus space; lit "of"; plus space; lit "coverage"];
           cats [lit "cap"; plus space; lit "of"]]);
    (* room\s+rent|room\s+charges|accommodation\s+benefit *)
    ("room rent",
     alts [cats [lit "room"; plus space; lit "rent"];
           cats [lit "room"; plus space; lit "charges"];
           cats [lit "accommodation"; plus space; lit "benefit"]]);
    (* pre[-\s]?existing|preexisting|known\s+condition *)
    ("pre-existing",
     alts [cats [lit "pre"; opt hyphen_or_space; lit "existing"];
           lit "preexisting";
           cats [lit "known"; plus space; lit "condition"]]);
    (* claim\s+process|claim\s+filing|intimation|claim\s+settlement *)
    ("claim",
     alts [cats [lit "claim"; plus space; lit "process"];
           cats [lit "claim"; plus space; lit "filing"];
           lit "intimation";
           cats [lit "claim"; plus space; lit "settlement"]]);
    (* deductible|excess|first\s+pay *)
    ("deductible",
     alts [lit "deductible"; lit "excess";
           cats [lit "first"; plus space; lit "pay"]]) ].

Definition NOT_MENTIONED : string := "Not mentioned in document".

(** [d[key] = value] *)
Fixpoint dict_set {V : Type} (key : string) (value : V) (d : dict V) : dict V :=
  match d with
  | [] => [(key, value)]
  | (k, v) :: d' =>
      if String.eqb key k then (k, value) :: d'
      else (k, v) :: dict_set key value d'
  end.

(** [[s for s in text.split('.') if re.search(pattern, s.lower())]] *)
Definition matching_sentences (text : string) (pattern : regex) : list string :=
  filter (fun s => match search pattern (Str.lower s) with
                   | Some _ => true
                   | None => false
                   end)
         (Str.split "." text).

(** The value one turn of the loop stores under [term]. *)
Definition clause_of (text : string) (pattern : regex) : string :=
  match matching_sentences text pattern with
  | first :: _ => Str.strip first ++ "."
  | [] => NOT_MENTIONED
  end.

Definition extract_key_clauses (text : string) : dict string :=
  fold_left
    (fun clauses entry => dict_set (fst entry) (clause_of text (snd entry)) clauses)
    terms [].

(** *** calculate_risk_score *)

Record risk_scores : Type := {
  coverage_risk : Z;
  cost_risk : Z;
  delay_risk : Z;
  overall_risk : Q
}.

(** The first four parameters are not read. *)
Definition calculate_risk_score {D RF COV : Type} (age : Z) (disease : D)
           (risk_factors : RF) (coverage : COV) (ml_risks : dict Z)
  : risk_scores :=
  let coverage_risk := dict_get "coverage_risk" 50%Z ml_risks in
  let cost_risk := dict_get "cost_risk" 50%Z ml_risks in
  let delay_risk := dict_get "delay_risk" 50%Z ml_risks in
  let overall_risk :=
    (inject_Z coverage_risk * (2 # 5) + inject_Z cost_risk * (7 # 20)
     + inject_Z delay_risk * (1 # 4))%Q in
  {| coverage_risk := coverage_risk;
     cost_risk := cost_risk;
     delay_risk := delay_risk;
     overall_risk := Num.round1 overall_risk |}.

End PolicyAnalyzer.

(* ================================================================= *)
(** ** The route simulate_claim *)

Module Simulator.

Local Open Scope Q_scope.

(** The financial details a stored policy carries. *)
Record financial_details : Type := {
  co_pay_percentage : Z;
  deductible : Z;
  room_rent_cap : option string;
  sub_limits : dict Z
}.

(** A stored policy, as [get_policy_by_id] rebuilds it; of its columns
    the route reads [financial_details] only. *)
Record policy : Type := {
  id : string;
  financial : financial_details
}.

(** The amounts of the block "Calculate financial impact", before any
    rounding. *)
Record impact : Type := {
  deductible_amount : Q;
  co_pay_amount : Q;
  insurance_pays : Q;
  out_of_pocket : Q
}.

Definition compute_impact (co_pay_pct deductible : Z) (claim_amount : Q)
  : impact :=
  let remaining_amount := claim_amount in
  let '(deductible_amount, remaining_amount) :=
    if (deductible >? 0)%Z
    then let deductible_amount :=
           Num.qmin (inject_Z deductible) remaining_amount in
         (deductible_amount, remaining_amount - deductible_amount)
    else (0, remaining_amount) in
  let '(co_pay_amount, remaining_amount) :=
    if (co_pay_pct >? 0)%Z
    then let co_pay_amount :=
           remaining_amount * inject_Z co_pay_pct / 100 in
         (co_pay_amount, remaining_amount - co_pay_amount)
    else (0, remaining_amount) in
  let insurance_pays := remaining_amount in
  let out_of_pocket := claim_amount - insurance_pays in
  {| deductible_amount := deductible_amount;
     co_pay_amount := co_pay_amount;
     insurance_pays := insurance_pays;
     out_of_pocket := out_of_pocket |}.

(** The object under the key [simulation] of the response. *)
Record simulation : Type := {
  sim_claim_amount : Q;
  sim_insurance_pays : Z;
  sim_out_of_pocket : Z;
  sim_deductible_applied : Q;
  sim_copay_applied : Z;
  sim_coverage_percentage : Q
}.

(** What the route returns: the success object, or an error object with
    its status code. *)
Inductive response : Type :=
| Success (sim : simulation) (chart : option string)
| Failure (status : Z) (error : string).

(** [a / b] on floats *)
Definition py_div (a b : Q) : result Q :=
  if Qeq_bool b 0 then Raise (ZeroDivisionError "float division by zero")
  else Ok (a / b).

(** [str(e)] *)
Definition exn_str (e : exn) : string :=
  match e with
  | ValueError msg => msg
  | ZeroDivisionError msg => msg
  | ChartError msg => msg
  end.

Section Route.

(** [VisualizationGenerator.create_claim_impact_chart] hands the two
    amounts to the plotting library and returns the picture; the
    library is outside the program, so the call is a parameter: the
    encoded picture, or the exception the library raised. *)
Variable create_claim_impact_chart : Q -> Q -> Q -> result string.

(** The [try] block once the policy is found. *)
Definition simulate_found (p : policy) (claim_amount : Q)
  : result (simulation * string) :=
  let co_pay_pct := co_pay_percentage (financial p) in
  let deductible := deductible (financial p) in
  let i := compute_impact co_pay_pct deductible claim_amount in
  claim_chart <- create_claim_impact_chart
                   claim_amount (insurance_pays i) (out_of_pocket i) ;;
  ratio <- py_div (insurance_pays i) claim_amount ;;
  Ok ({| sim_claim_amount := claim_amount;
         sim_insurance_pays := Num.py_round (insurance_pays i);
         sim_out_of_pocket := Num.py_round (out_of_pocket i);
         sim_deductible_applied := deductible_amount i;
         sim_copay_applied := Num.py_round (co_pay_amount i);
         sim_coverage_percentage := Num.round1 (ratio * 100) |},
      claim_chart).

(** [simulate_claim()]: [found] is what [get_policy_by_id] returned for
    the request's policy id, [claim_amount] the request's amount. *)
Definition simulate_claim (found : option policy) (claim_amount : Q)
  : response :=
  match found with
  | None => Failure 404 "Policy not found"
  | Some p =>
      match simulate_found p claim_amount with
      | Ok (sim, claim_chart) => Success sim (Some claim_chart)
      | Raise e => Failure 500 (exn_str e)
      end
  end.

End Route.


End Simulator.

(* ================================================================= *)
(** ** The scoring steps of the route analyze_policy *)

Module Analysis.

(** [bool(disease)] for the form field, a string *)
Definition truthy (s : string) : bool := negb (String.eqb s "").


End Analysis.

(* ================================================================= *)
(** ** More of [re]: counted repetition and the number of groups *)

Module ReMore.

Import Re.

(** [r{n}] *)
Fixpoint times (n : nat) (r : regex) : regex :=
  match n with
  | O => Eps
  | S n' => Cat r (times n' r)
  end.

(** [r{0,n}], greedy *)
Fixpoint upto (n : nat) (r : regex) : regex :=
  match n with
  | O => Eps
  | S n' => opt (Cat r (upto n' r))
  end.

(** [r{m,n}] for [m <= n] *)
Definition between (m n : nat) (r : regex) : regex :=
  Cat (times m r) (upto (n - m) r).

(** The number of groups of a pattern, the length of [m.groups()]. *)
Fixpoint ngroups (r : regex) : nat :=
  match r with
  | Cat r1 r2 | Alt r1 r2 => ngroups r1 + ngroups r2
  | Star r1 => ngroups r1
  | Group _ r1 => S (ngroups r1)
  | _ => O
  end.

(** [m.groups()], a group that took no part being [None] *)
Definition groups (r : regex) (m : match_obj) : list (option string) :=
  map (fun i => group i m) (seq 1 (ngroups r)).

(** Truth of a group's value: neither [None] nor empty. *)
Definition truthy (v : option string) : bool :=
  match v with
  | Some EmptyString => false
  | Some _ => true
  | None => false
  end.

(** [str(v)] of a group's value *)
Definition str_of (v : option string) : string :=
  match v with
  | Some s => s
  | None => "None"
  end.

End ReMore.

(* ================================================================= *)
(** ** Text with characters outside the 8-bit alphabet

    The messages the program builds with the rupee sign are sequences of
    code points. *)

Module Unicode.

Definition ustring : Type := list N.

(** An 8-bit string, code point by code point. *)
Fixpoint u (s : string) : ustring :=
  match s with
  | EmptyString => []
  | String c s' => Str.code c :: u s'
  end.

(** U+20B9 *)
Definition RUPEE : N := 8377.

End Unicode.

(* ================================================================= *)
(** ** Numbers as text *)

Module Fmt.

Local Open Scope Z_scope.

(** [str(n)] of an [int] *)
Definition str_int (n : Z) : string :=
  if n <? 0 then "-" ++ PolicyAnalyzer.digits (- n)
  else PolicyAnalyzer.digits n.

(** The digits of a number from the right, a comma after every third. *)
Fixpoint group_rev (ds : string) (k : nat) : string :=
  match ds with
  | EmptyString => EmptyString
  | String d rest =>
      match k, rest with
      | 2%nat, String _ _ => String d (String "," (group_rev rest 0))
      | _, _ => String d (group_rev rest (S k))
      end
  end.

(** [f"{n:,}"] of an [int] *)
Definition with_commas (n : Z) : string :=
  let ds := PolicyAnalyzer.digits (Z.abs n) in
  let grouped := Str.rev (group_rev (Str.rev ds) 0) in
  if n <? 0 then "-" ++ grouped else grouped.

End Fmt.

(* ================================================================= *)
(** ** class RiskPredictor: the other financial extractors *)

Module FinancialTerms.

Import Re ReMore.
Local Open Scope Z_scope.

Definition colon_or_space : regex := OneOf [CChar ":"; CSpace].

(** [word[:\s]*rs\.?\s*(\d+)|word[:\s]*U+20B9\s*(\d+)] *)
Definition amount_after (word : string) : regex :=
  Alt (cats [lit word; Star colon_or_space; lit "rs"; opt (Lit ".");
             Star space; Group 1 (plus digit)])
      (cats [lit word; Star colon_or_space; rupee; Star space;
             Group 2 (plus digit)]).

(** The inner loop [for val in match.groups(): if val: return ...]: the
    first value that is neither [None] nor empty. *)
Definition first_value (r : regex) (m : match_obj) : option string :=
  match find truthy (groups r m) with
  | Some (Some v) => Some v
  | _ => None
  end.

(** The outer loop [for pattern in patterns: match = re.search(...); if
    match: for val in match.groups(): if val: return ...]: a pattern
    whose match has no value lets the loop go on. *)
Fixpoint first_value_of (patterns : list regex) (s : string) : option string :=
  match patterns with
  | [] => None
  | p :: rest =>
      match search p s with
      | Some m =>
          match first_value p m with
          | Some v => Some v
          | None => first_value_of rest s
          end
      | None => first_value_of rest s
      end
  end.

Definition deductible_patterns : list regex :=
  [amount_after "deductible"; amount_after "excess"; amount_after "first pay"].

Definition extract_deductible (text : string) : Z :=
  let text_lower := Str.lower text in
  match first_value_of deductible_patterns text_lower with
  | Some val => Num.int_of_digits val
  | None => 0
  end.

Definition room_rent_patterns : list regex :=
  [amount_after "room rent"; amount_after "room charges";
   amount_after "accommodation"].

(** [room rent[:\s]*(\d+)%] *)
Definition room_rent_percent : regex :=
  cats [lit "room rent"; Star colon_or_space; Group 1 (plus digit); Lit "%"].

Definition extract_room_rent_cap (text : string) : option string :=
  let text_lower := Str.lower text in
  match first_value_of room_rent_patterns text_lower with
  | Some val => Some val
  | None =>
      match search room_rent_percent text_lower with
      | Some percent_match => Some (group_or_empty 1 percent_match ++ "%")
      | None => None
      end
  end.

(** The dictionary [limit_types], in the order it is written. *)
Definition limit_types : dict regex :=
  [("icu", amount_after "icu");
   ("surgery", amount_after "surgery");
   ("doctor", amount_after "doctor");
   ("medicine", amount_after "medicine");
   ("diagnostic", amount_after "diagnostic")].

(** [for val in match.groups(): if val: sub_limits[limit_type] = int(val)] *)
Definition store_values (limit_type : string) (vals : list (option string))
           (sub_limits : dict Z) : dict Z :=
  fold_left
    (fun d v => if truthy v
                then PolicyAnalyzer.dict_set limit_type
                       (Num.int_of_digits (str_of v)) d
                else d)
    vals sub_limits.

Definition extract_sub_limits (text : string) : dict Z :=
  let text_lower := Str.lower text in
  fold_left
    (fun sub_limits entry =>
       match search (snd entry) text_lower with
       | Some m => store_values (fst entry) (groups (snd entry) m) sub_limits
       | None => sub_limits
       end)
    limit_types [].

End FinancialTerms.

(* ================================================================= *)
(** ** class PolicyAnalyzer: the other field extractors *)

Module PolicyFields.

Import Re ReMore Unicode.
Local Open Scope Z_scope.

(** *** extract_premium *)

Definition premium_patterns : list regex :=
  let head := cats [Star PolicyAnalyzer.colon_or_space;
                    PolicyAnalyzer.currency_opt; Star space;
                    PolicyAnalyzer.amount_group] in
  [ (* (?:premium|annual\s*premium|yearly\s*premium)[:\s]*(?:rs\.?|U+20B9)?\s*
       ([\d,]+(?:\.\d{1,2})?) *)
    Cat (alts [lit "premium";
               cats [lit "annual"; Star space; lit "premium"];
               cats [lit "yearly"; Star space; lit "premium"]])
        head;
    (* (?:policy\s*fee|installment|payment)[:\s]*(?:rs\.?|U+20B9)?\s*
       ([\d,]+(?:\.\d{1,2})?) *)
    Cat (alts [cats [lit "policy"; Star space; lit "fee"];
               lit "installment";
               lit "payment"])
        head;
    (* (?:pay|payable|charged)[:\s]*(?:rs\.?|U+20B9)?\s*([\d,]+(?:\.\d{1,2})?)
       \s*(?:per\s*annum|annually|yearly) *)
    cats [alts [lit "pay"; lit "payable"; lit "charged"];
          head;
          Star space;
          alts [cats [lit "per"; Star space; lit "annum"];
                lit "annually";
                lit "yearly"]];
    (* premium\s*amount[:\s]*(?:rs\.?|U+20B9)?\s*([\d,]+(?:\.\d{1,2})?) *)
    Cat (cats [lit "premium"; Star space; lit "amount"]) head ].

Definition extract_premium (text : string) : string :=
  let text_lower := Str.lower text in
  match first_match premium_patterns text_lower with
  | Some m => Str.remove_char "," (group_or_empty 1 m)
  | None => "Not specified"
  end.

(** *** extract_key_dates *)

Definition dash_or_slash : regex := OneOf [CChar "-"; CChar "/"].

(** [(\d{1,2}[-/]\d{1,2}[-/]\d{2,4})] *)
Definition date_group : regex :=
  Group 1 (cats [between 1 2 digit; dash_or_slash; between 1 2 digit;
                 dash_or_slash; between 2 4 digit]).

Definition issue_patterns : list regex :=
  [ (* (?:policy\s*issued?|date\s*of\s*issue|issued?\s*on)[:\s]*(date) *)
    cats [alts [cats [lit "policy"; Star space; lit "issue"; opt (Lit "d")];
                cats [lit "date"; Star space; lit "of"; Star space; lit "issue"];
                cats [lit "issue"; opt (Lit "d"); Star space; lit "on"]];
          Star PolicyAnalyzer.colon_or_space; date_group];
    (* (?:commencement|commencing|start)[:\s]*(date) *)
    cats [alts [lit "commencement"; lit "commencing"; lit "start"];
          Star PolicyAnalyzer.colon_or_space; date_group] ].

Definition expiry_patterns : list regex :=
  [ (* (?:expir|valid|validity|expiry)[:\s]*(?:date)?[:\s]*(date) *)
    cats [alts [lit "expir"; lit "valid"; lit "validity"; lit "expiry"];
          Star PolicyAnalyzer.colon_or_space; opt (lit "date");
          Star PolicyAnalyzer.colon_or_space; date_group];
    (* (?:valid\s*until|expires?\s*on)[:\s]*(date) *)
    cats [alts [cats [lit "valid"; Star space; lit "until"];
                cats [lit "expire"; opt (Lit "s"); Star space; lit "on"]];
          Star PolicyAnalyzer.colon_or_space; date_group] ].

(** One of the two loops: the first pattern that matches stores its
    group under [key] and ends the loop. *)
Definition store_date (key : string) (patterns : list regex)
           (text_lower : string) (dates : dict string) : dict string :=
  match first_match patterns text_lower with
  | Some m => PolicyAnalyzer.dict_set key (group_or_empty 1 m) dates
  | None => dates
  end.

Definition extract_key_dates (text : string) : dict string :=
  let text_lower := Str.lower text in
  let dates := [] in
  let dates := store_date "issue_date" issue_patterns text_lower dates in
  let dates := store_date "expiry_date" expiry_patterns text_lower dates in
  dates.

(** *** extract_benefits *)

Record benefit : Type := {
  b_text : string;
  b_type : string
}.

(** [([^.]{10,50})\.] *)
Definition benefit_tail : regex :=
  Cat (Group 1 (between 10 50 (NoneOf [CChar "."]))) (Lit ".").

Definition benefit_keywords : list (regex * string) :=
  [ (* (?:covers?|coverage\s*for|benefit\s*of)\s+([^.]{10,50})\. *)
    (cats [alts [Cat (lit "cover") (opt (Lit "s"));
                 cats [lit "coverage"; Star space; lit "for"];
                 cats [lit "benefit"; Star space; lit "of"]];
           plus space; benefit_tail],
     "coverage");
    (* (?:includes?|inclusions?)[:\s]+([^.]{10,50})\. *)
    (cats [alts [Cat (lit "include") (opt (Lit "s"));
                 Cat (lit "inclusion") (opt (Lit "s"))];
           plus PolicyAnalyzer.colon_or_space; benefit_tail],
     "inclusion");
    (* (?:provides?|offer|offering)[:\s]+([^.]{10,50})\. *)
    (cats [alts [Cat (lit "provide") (opt (Lit "s"));
                 lit "offer";
                 lit "offering"];
           plus PolicyAnalyzer.colon_or_space; benefit_tail],
     "benefit") ].

(** The body of the inner loop: [benefits] after one match. *)
Definition add_benefit (benefit_type : string) (benefits : list benefit)
           (match_ : string) : list benefit :=
  if (Nat.ltb 15 (String.length match_)
      && negb (Str.mem match_ (map b_text benefits)))%bool
  then (benefits ++ [ {| b_text := Str.capitalize (Str.strip match_);
                         b_type := benefit_type |} ])%list
  else benefits.

Definition collect_benefits (text_lower : string) : list benefit :=
  fold_left
    (fun benefits entry =>
       let matches := map (group_or_empty 1) (finditer (fst entry) text_lower) in
       fold_left (add_benefit (snd entry)) (firstn 3 matches) benefits)
    benefit_keywords [].

Definition extract_benefits (text : string) : list benefit :=
  let text_lower := Str.lower text in
  firstn 8 (collect_benefits text_lower).

(** *** analyze_policy_quality *)

Record quality : Type := {
  clarity : Z;
  comprehensiveness : Z;
  transparency : Z
}.

Definition clarity_indicators : list string :=
  ["clear"; "simple"; "understand"; "easy"; "plain"; "explain"; "described";
   "definition"; "meaning"].

Definition comprehensive_indicators : list string :=
  ["comprehensive"; "complete"; "full"; "extensive"; "broad"; "wide";
   "range"; "variety"; "multiple"; "various"].

Definition transparency_indicators : list string :=
  ["transparent"; "disclose"; "disclosure"; "clear"; "explicit";
   "specifically"; "detailed"; "details"; "specific"; "particular"].

Definition analyze_policy_quality (text : string) : quality :=
  let text_lower := Str.lower text in
  let clarity_score :=
    RiskPredictor.count_words text_lower clarity_indicators in
  let comprehensive_score :=
    RiskPredictor.count_words text_lower comprehensive_indicators in
  let transparency_score :=
    RiskPredictor.count_words text_lower transparency_indicators in
  {| clarity := Num.py_min 100 (clarity_score * 10);
     comprehensiveness := Num.py_min 100 (comprehensive_score * 10);
     transparency := Num.py_min 100 (transparency_score * 10) |}.

(** *** extract_waiting_period *)

(** [(day|days|month|months|year|years)] *)
Definition unit_group : regex :=
  Group 2 (alts [lit "day"; lit "days"; lit "month"; lit "months";
                 lit "year"; lit "years"]).

Definition number_group : regex := Group 1 (plus digit).

Definition waiting_patterns : list regex :=
  [ (* waiting\s*period\s*(?:of)?\s*(\d+)\s*(day|...|years) *)
    cats [lit "waiting"; Star space; lit "period"; Star space;
          opt (lit "of"); Star space; number_group; Star space; unit_group];
    (* (\d+)\s*(day|...|years)\s+waiting\s*period *)
    cats [number_group; Star space; unit_group; plus space; lit "waiting";
          Star space; lit "period"];
    (* initial\s+waiting\s+period\s*(?:of)?\s*(\d+)\s*(day|...|years)? *)
    cats [lit "initial"; plus space; lit "waiting"; plus space; lit "period";
          Star space; opt (lit "of"); Star space; number_group; Star space;
          opt unit_group];
    (* waiting\s+period\s+applicable\s*(?:for)?\s*(\d+)\s*(day|...|years) *)
    cats [lit "waiting"; plus space; lit "period"; plus space;
          lit "applicable"; Star space; opt (lit "for"); Star space;
          number_group; Star space; unit_group] ].

(** What the loop returns on the pattern that matched. *)
Definition waiting_of_match (pattern : regex) (m : match_obj) : string :=
  if Nat.eqb (List.length (groups pattern m)) 2
  then str_of (group 1 m) ++ " " ++ str_of (group 2 m)
  else if truthy (group 1 m) then str_of (group 1 m) ++ " months"
  else "Initial period applies".

Fixpoint first_waiting (patterns : list regex) (s : string) : option string :=
  match patterns with
  | [] => None
  | p :: rest =>
      match search p s with
      | Some m => Some (waiting_of_match p m)
      | None => first_waiting rest s
      end
  end.

Definition extract_waiting_period (text : string) : string :=
  let text_lower := Str.lower text in
  match first_waiting waiting_patterns text_lower with
  | Some r => r
  | None =>
      if Str.contains "waiting period" text_lower
      then "Mentioned (duration not specified)"
      else "Not specified"
  end.

(** *** analyze_risk_factors *)

Record risk_factor : Type := {
  factor : string;
  impact : string;
  score : Z;
  description : ustring;
  recommendation : string
}.

Definition age_factor (age : Z) : list risk_factor :=
  if age >? 60 then
    [ {| factor := "Age"; impact := "High"; score := 85;
         description :=
           u "Age above 60 significantly increases claim scrutiny and premium";
         recommendation :=
           "Consider policies with lower age restrictions or senior citizen plans" |} ]
  else if age >? 50 then
    [ {| factor := "Age"; impact := "Medium-High"; score := 65;
         description :=
           u "Age between 50-60 may affect premium and coverage options";
         recommendation :=
           "Review age-related clauses and premium loading carefully" |} ]
  else if age >? 40 then
    [ {| factor := "Age"; impact := "Medium"; score := 45;
         description := u "Moderate age-related risk factors to consider";
         recommendation := "Standard age-related considerations apply" |} ]
  else [].

Definition serious_conditions : list string :=
  ["diabetes"; "blood pressure"; "heart"; "cancer"; "thyroid"].

Definition disease_factor (disease : string) : list risk_factor :=
  if (negb (String.eqb disease "")
      && negb (String.eqb (Str.lower disease) "none"))%bool then
    let disease_lower := Str.lower disease in
    if existsb (fun term => Str.contains term disease_lower)
               serious_conditions then
      [ {| factor := "Pre-existing condition"; impact := "Critical";
           score := 90;
           description :=
             u ("History of " ++ disease
                ++ " will significantly impact coverage and may have long waiting periods");
           recommendation :=
             "Look for policies with shorter waiting periods for pre-existing conditions" |} ]
    else
      [ {| factor := "Pre-existing condition"; impact := "High"; score := 75;
           description :=
             u ("History of " ++ disease
                ++ " may affect coverage and require waiting periods");
           recommendation :=
             "Check waiting period clauses and sub-limits for this condition" |} ]
  else [].

(** [exclusion|not\s+cover|excluded] *)
Definition exclusion_term : regex :=
  alts [lit "exclusion"; cats [lit "not"; plus space; lit "cover"];
        lit "excluded"].

Definition exclusion_factor (text_lower : string) : list risk_factor :=
  let exclusion_count :=
    Z.of_nat (List.length (findall exclusion_term text_lower)) in
  if exclusion_count >? 8 then
    [ {| factor := "High exclusion count"; impact := "High"; score := 80;
         description :=
           u ("Policy contains " ++ Fmt.str_int exclusion_count
              ++ " exclusion-related terms - higher than average");
         recommendation :=
           "Review all exclusions carefully; consider if coverage gaps exist" |} ]
  else if exclusion_count >? 4 then
    [ {| factor := "Moderate exclusions"; impact := "Medium"; score := 50;
         description :=
           u ("Policy contains " ++ Fmt.str_int exclusion_count
              ++ " exclusion-related terms");
         recommendation :=
           "Understand key exclusions that may affect your specific needs" |} ]
  else [].

Definition waiting_factor (text : string) : list risk_factor :=
  let waiting_period := extract_waiting_period text in
  if Str.contains "year" (Str.lower waiting_period) then
    match search (Group 1 (plus digit)) waiting_period with
    | Some years =>
        if Num.int_of_digits (group_or_empty 1 years) >? 2 then
          [ {| factor := "Long waiting period"; impact := "High"; score := 75;
               description :=
                 u ("Long waiting period of " ++ waiting_period
                    ++ " before full coverage applies");
               recommendation :=
                 "Consider if you can wait this period for claims; check for shorter alternatives" |} ]
        else []
    | None => []
    end
  else if Str.contains "month" (Str.lower waiting_period) then
    [ {| factor := "Waiting period applies"; impact := "Medium"; score := 40;
         description :=
           u ("Waiting period of " ++ waiting_period
              ++ " applies for certain conditions");
         recommendation := "Plan healthcare needs around the waiting period" |} ]
  else [].

Definition copay_factor (text : string) : list risk_factor :=
  let copay := RiskPredictor.extract_co_pay_percentage text in
  if copay >? 30 then
    [ {| factor := "Very high co-pay"; impact := "Critical"; score := 90;
         description :=
           u ("High co-pay of " ++ Fmt.str_int copay
              ++ "% means significant out-of-pocket expenses");
         recommendation :=
           "Consider policies with lower co-pay or build savings for co-pay amount" |} ]
  else if copay >? 20 then
    [ {| factor := "High co-pay"; impact := "High"; score := 70;
         description :=
           u ("Co-pay of " ++ Fmt.str_int copay
              ++ "% requires substantial out-of-pocket payment");
         recommendation :=
           "Budget for co-pay amounts and check if co-pay applies to all claims" |} ]
  else if copay >? 10 then
    [ {| factor := "Moderate co-pay"; impact := "Medium"; score := 40;
         description := u ("Co-pay of " ++ Fmt.str_int copay ++ "% applies");
         recommendation :=
           "Standard co-pay arrangement; plan for this expense" |} ]
  else [].

Definition deductible_factor (text : string) : list risk_factor :=
  let deductible := FinancialTerms.extract_deductible text in
  if deductible >? 50000 then
    [ {| factor := "High deductible"; impact := "High"; score := 75;
         description :=
           (u "Deductible of " ++ [RUPEE] ++ u (Fmt.with_commas deductible)
            ++ u " must be paid before coverage starts")%list;
         recommendation :=
           "Ensure you have funds available for the deductible amount" |} ]
  else if deductible >? 10000 then
    [ {| factor := "Moderate deductible"; impact := "Medium"; score := 45;
         description :=
           (u "Deductible of " ++ [RUPEE] ++ u (Fmt.with_commas deductible)
            ++ u " applies per claim")%list;
         recommendation := "Plan for this out-of-pocket expense per claim" |} ]
  else [].

(** [analyze_risk_factors(text, age, disease)]: the six blocks append to
    one list in this order. *)
Definition analyze_risk_factors (text : string) (age : Z) (disease : string)
  : list risk_factor :=
  let text_lower := Str.lower text in
  (age_factor age ++ disease_factor disease ++ exclusion_factor text_lower
   ++ waiting_factor text ++ copay_factor text ++ deductible_factor text)%list.

End PolicyFields.

(* ================================================================= *)
(** ** The other routes of [main.py] and their helpers *)

Module Routes.

Local Open Scope Z_scope.

(** *** allowed_file *)

Definition ALLOWED_EXTENSIONS : list string := ["pdf"].

(** [s.rsplit(sep, 1)]: [s] cut at its last separator, or [s] alone. *)
Fixpoint rsplit1 (sep : ascii) (s : string) : list string :=
  match s with
  | EmptyString => [EmptyString]
  | String c s' =>
      match rsplit1 sep s' with
      | [head; tail] => [String c head; tail]
      | _ => if Ascii.eqb c sep then [EmptyString; s'] else [s]
      end
  end.

(** [allowed_file(filename)]; [None] stands for the IndexError of
    [...[1]]. *)
Definition allowed_file (filename : string) : option bool :=
  if Str.contains "." filename
  then match nth_error (rsplit1 "." filename) 1 with
       | Some ext => Some (Str.mem (Str.lower ext) ALLOWED_EXTENSIONS)
       | None => None
       end
  else Some false.

(** *** The block "Detect policy type from PDF content" of analyze_policy *)

Definition type_keywords : dict (list string) :=
  [("Health Insurance",
    ["health"; "medical"; "hospital"; "surgery"; "disease"; "treatment";
     "doctor"; "medicine"; "illness"; "diagnosis"]);
   ("Car Insurance",
    ["car"; "vehicle"; "motor"; "automobile"; "accident"; "drive"; "driver";
     "collision"; "theft"; "damage"]);
   ("Life Insurance",
    ["life"; "death"; "term"; "maturity"; "nominee"; "assured"; "survival";
     "beneficiary"]);
   ("Travel Insurance",
    ["travel"; "trip"; "flight"; "baggage"; "overseas"; "foreign";
     "passport"; "visa"; "journey"])].

Definition type_scores (text_lower : string) : dict Z :=
  fold_left
    (fun type_scores entry =>
       let score := RiskPredictor.count_words text_lower (snd entry) in
       PolicyAnalyzer.dict_set (fst entry) score type_scores)
    type_keywords [].

(** [max(l, key=key)]: the first element whose key no other exceeds;
    [None] stands for the ValueError on an empty sequence. *)
Definition max_by {A : Type} (key : A -> Z) (l : list A) : option A :=
  match l with
  | [] => None
  | x :: l' =>
      Some (fold_left (fun best y => if key best <? key y then y else best)
                      l' x)
  end.

(** [detected_type]: the dictionary is walked by its entries, the key
    function [type_scores.get] giving each entry's own value. *)
Definition detected_type (text : string) : option string :=
  let text_lower := Str.lower text in
  let type_scores := type_scores text_lower in
  match max_by (fun v => v) (map snd type_scores) with
  | Some top =>
      if top >? 0 then option_map fst (max_by snd type_scores)
      else Some "Unknown"
  | None => None
  end.

(** *** compare_policies and policy_stats *)

(** A stored policy as [get_policy_by_id] and [get_user_policies] rebuild
    it; the fields the two routes read. *)
Record stored_policy : Type := {
  sp_id : string;
  sp_policy_type : string;
  sp_upload_time : string;
  sp_benefits : list PolicyFields.benefit;
  sp_risk_scores : PolicyAnalyzer.risk_scores
}.

Definition overall (p : stored_policy) : Q :=
  PolicyAnalyzer.overall_risk (sp_risk_scores p).

(** [a < b] on floats *)
Definition qltb (a b : Q) : bool := negb (Qle_bool b a).

(** [min(l, key=key)] and [max(l, key=key)] with float keys: the first
    element with the least (greatest) key. *)
Definition min_by_q {A : Type} (key : A -> Q) (l : list A) : result A :=
  match l with
  | [] => Raise (ValueError "min() arg is an empty sequence")
  | x :: l' =>
      Ok (fold_left (fun best y => if qltb (key y) (key best) then y else best)
                    l' x)
  end.

Definition max_by_q {A : Type} (key : A -> Q) (l : list A) : result A :=
  match l with
  | [] => Raise (ValueError "max() arg is an empty sequence")
  | x :: l' =>
      Ok (fold_left (fun best y => if qltb (key best) (key y) then y else best)
                    l' x)
  end.

(** [sum(l) / len(l)] on integers *)
Definition average (l : list Z) : result Q :=
  Simulator.py_div (inject_Z (Num.zsum l))
                   (inject_Z (Z.of_nat (List.length l))).

Record comparison_metrics : Type := {
  avg_coverage_risk : Q;
  avg_cost_risk : Q;
  avg_delay_risk : Q;
  min_overall : Q;
  max_overall : Q
}.

Record recommendation : Type := {
  rec_policy_id : string;
  rec_reason : string
}.

Record comparison : Type := {
  cmp_policies : list stored_policy;
  cmp_metrics : comparison_metrics;
  cmp_recommendation : recommendation
}.

Inductive compare_response : Type :=
| Compared (c : comparison)
| CompareError (status : Z) (error : string).

Section Compare.

(** [get_policy_by_id(policy_id, session['user']['id'])] for the user
    of the session. *)
Variable get_policy_by_id : string -> option stored_policy.

(** [str(x)] of a float, as the f-string of the reason prints it;
    the decimal expansion of a float is outside the model. *)
Variable str_float : Q -> string.

Definition select (policy_ids : list string) : list stored_policy :=
  flat_map (fun policy_id =>
              match get_policy_by_id policy_id with
              | Some policy => [policy]
              | None => []
              end)
           policy_ids.

Definition reason_of (best_policy : stored_policy) : string :=
  "Lowest overall risk score (" ++ str_float (overall best_policy)
  ++ "%) with "
  ++ Fmt.str_int (Z.of_nat (List.length (sp_benefits best_policy)))
  ++ " key benefits".

(** The part of the [try] block after the two length checks. *)
Definition compare_selected (selected_policies : list stored_policy)
  : result comparison :=
  a1 <- average (map (fun p => PolicyAnalyzer.coverage_risk (sp_risk_scores p))
                     selected_policies) ;;
  a2 <- average (map (fun p => PolicyAnalyzer.cost_risk (sp_risk_scores p))
                     selected_policies) ;;
  a3 <- average (map (fun p => PolicyAnalyzer.delay_risk (sp_risk_scores p))
                     selected_policies) ;;
  lo <- min_by_q (fun x => x) (map overall selected_policies) ;;
  hi <- max_by_q (fun x => x) (map overall selected_policies) ;;
  best_policy <- min_by_q overall selected_policies ;;
  Ok {| cmp_policies := selected_policies;
        cmp_metrics := {| avg_coverage_risk := a1;
                          avg_cost_risk := a2;
                          avg_delay_risk := a3;
                          min_overall := lo;
                          max_overall := hi |};
        cmp_recommendation := {| rec_policy_id := sp_id best_policy;
                                 rec_reason := reason_of best_policy |} |}.

(** [compare_policies()] for a request whose [policy_ids] is the given
    list. *)
Definition compare_policies (policy_ids : list string) : compare_response :=
  if Nat.ltb (List.length policy_ids) 2
  then CompareError 400 "At least 2 policies required for comparison"
  else
    let selected_policies := select policy_ids in
    if Nat.ltb (List.length selected_policies) 2
    then CompareError 404 "Selected policies not found"
    else match compare_selected selected_policies with
         | Ok c => Compared c
         | Raise e => CompareError 500 (Simulator.exn_str e)
         end.

End Compare.

Record activity : Type := {
  act_id : string;
  act_type : string;
  act_risk : Q;
  act_time : string
}.

Record stats : Type := {
  total_analyzed : Z;
  avg_risk_score : Q;
  policy_types : dict Z;
  risk_distribution : dict Z;
  recent_activity : list activity
}.

(** [d[key] += 1], on a [defaultdict(int)] or on a key that is there *)
Definition increment (key : string) (d : dict Z) : dict Z :=
  PolicyAnalyzer.dict_set key (dict_get key 0 d + 1) d.

(** The branch of the [if risk <= 30: ... elif ...] chain *)
Definition bucket (risk : Q) : string :=
  if Qle_bool risk 30 then "Low (0-30)"
  else if Qle_bool risk 60 then "Moderate (31-60)"
  else if Qle_bool risk 80 then "High (61-80)"
  else "Critical (81-100)".

Definition empty_distribution : dict Z :=
  [("Low (0-30)", 0); ("Moderate (31-60)", 0); ("High (61-80)", 0);
   ("Critical (81-100)", 0)].

(** [sum(l) / len(l)] on floats, for a list that is not empty *)
Definition qmean (l : list Q) : Q :=
  (PolicyAnalyzer.qsum l / inject_Z (Z.of_nat (List.length l)))%Q.

(** [policy_stats()]: [policies] is what [get_user_policies] returned. *)
Definition policy_stats (policies : list stored_policy) : stats :=
  match policies with
  | [] =>
      {| total_analyzed := 0;
         avg_risk_score := 0;
         policy_types := [];
         risk_distribution := empty_distribution;
         recent_activity := [] |}
  | _ =>
      {| total_analyzed := Z.of_nat (List.length policies);
         avg_risk_score := Num.round1 (qmean (map overall policies));
         policy_types :=
           fold_left (fun type_counts policy =>
                        increment (sp_policy_type policy) type_counts)
                     policies [];
         risk_distribution :=
           fold_left (fun distribution policy =>
                        increment (bucket (overall policy)) distribution)
                     policies empty_distribution;
         recent_activity :=
           map (fun policy => {| act_id := sp_id policy;
                                 act_type := sp_policy_type policy;
                                 act_risk := overall policy;
                                 act_time := sp_upload_time policy |})
               (firstn 5 policies) |}
  end.

End Routes.

(* ================================================================= *)
(** ** The policies table and the routes that read it through
       [get_policy_by_id] *)

Module Store.

Local Open Scope Z_scope.

Local Unset Elimination Schemes.

(** The values a row, a parsed JSON text or a rebuilt policy holds. *)
Inductive value : Type :=
| VNone
| VInt (n : Z)
| VFloat (x : Q)
| VStr (s : string)
| VList (items : list value)
| VDict (entries : list (string * value)).

Local Set Elimination Schemes.

Inductive error : Type :=
| KeyError (key : string)
| TypeError (msg : string)
| JSONDecodeError (msg : string)
| LibraryError (msg : string).

Inductive outcome (A : Type) : Type :=
| Done (a : A)
| Failed (e : error).

Arguments Done {A} a.
Arguments Failed {A} e.

Definition and_then {A B : Type} (r : outcome A) (f : A -> outcome B)
  : outcome B :=
  match r with
  | Done a => f a
  | Failed e => Failed e
  end.

Notation "x <~ c1 ;; c2" := (and_then c1 (fun x => c2))
  (at level 61, c1 at next level, right associativity).

(** [str(e)] *)
Definition str_error (e : error) : string :=
  match e with
  | KeyError key => "'" ++ key ++ "'"
  | TypeError msg => msg
  | JSONDecodeError msg => msg
  | LibraryError msg => msg
  end.

(** The columns of the table [policies], as [init_db_schema] creates it. *)
Definition COLUMNS : list string :=
  ["id"; "user_id"; "filename"; "upload_time"; "policy_type";
   "detected_type"; "policy_number"; "sum_insured"; "premium"; "issue_date";
   "expiry_date"; "benefits"; "exclusions"; "clauses"; "risks"; "coverage";
   "quality_metrics"; "coverage_risk"; "cost_risk"; "delay_risk";
   "overall_risk"; "co_pay_percentage"; "deductible"; "room_rent_cap";
   "sub_limits"; "text_length"; "page_count"; "file_path"].

(** A row holds one value per column, in the order of the columns. *)
Definition row : Type := list value.
Definition table : Type := list row.

(** [dict(row)] *)
Definition dict_of_row (r : row) : dict value := combine COLUMNS r.

(** [bool(v)] *)
Definition truthy (v : value) : bool :=
  match v with
  | VNone => false
  | VInt n => negb (n =? 0)
  | VFloat x => negb (Qeq_bool x 0)
  | VStr s => negb (String.eqb s "")
  | VList items => match items with [] => false | _ => true end
  | VDict entries => match entries with [] => false | _ => true end
  end.

Definition is_text (s : string) (v : value) : bool :=
  match v with
  | VStr t => String.eqb s t
  | _ => false
  end.

Definition is_int (n : Z) (v : value) : bool :=
  match v with
  | VInt m => n =? m
  | _ => false
  end.

(** [WHERE id = ? AND user_id = ?] with a string and an integer bound *)
Definition where_id_and_user (policy_id : string) (user_id : Z) (r : row)
  : bool :=
  (is_text policy_id (nth 0 r VNone) && is_int user_id (nth 1 r VNone))%bool.

(** [d[key]] *)
Definition item (key : string) (d : dict value) : outcome value :=
  match dict_find key d with
  | Some v => Done v
  | None => Failed (KeyError key)
  end.

(** What [generate_report] answers: the file, or an error object with its
    status code. *)
Inductive report_response : Type :=
| ReportFile (download_name : string) (pdf : string)
| ReportError (status : Z) (error : string).

Section Db.

(** [json.loads] on the text of a column: the parsed value, or the
    JSONDecodeError. *)
Variable json_loads : string -> outcome value.

(** [policy[key] = json.loads(policy[key]) if policy[key] else empty] *)
Definition parse_field (key : string) (empty : value) (policy : dict value)
  : outcome (dict value) :=
  v <~ item key policy ;;
  if truthy v
  then match v with
       | VStr s =>
           parsed <~ json_loads s ;;
           Done (PolicyAnalyzer.dict_set key parsed policy)
       | _ =>
           Failed (TypeError "the JSON object must be str, bytes or bytearray")
       end
  else Done (PolicyAnalyzer.dict_set key empty policy).

(** The lines of [get_policy_by_id] after [policy = dict(row)]. *)
Definition rebuild (policy : dict value) : outcome (dict value) :=
  policy <~ parse_field "benefits" (VList []) policy ;;
  policy <~ parse_field "exclusions" (VList []) policy ;;
  policy <~ parse_field "clauses" (VDict []) policy ;;
  policy <~ parse_field "risks" (VList []) policy ;;
  policy <~ parse_field "coverage" (VDict []) policy ;;
  policy <~ parse_field "quality_metrics" (VDict []) policy ;;
  policy <~ parse_field "sub_limits" (VDict []) policy ;;
  coverage_risk <~ item "coverage_risk" policy ;;
  cost_risk <~ item "cost_risk" policy ;;
  delay_risk <~ item "delay_risk" policy ;;
  overall_risk <~ item "overall_risk" policy ;;
  let policy :=
    PolicyAnalyzer.dict_set "risk_scores"
      (VDict [("coverage_risk", coverage_risk); ("cost_risk", cost_risk);
              ("delay_risk", delay_risk); ("overall_risk", overall_risk)])
      policy in
  co_pay_percentage <~ item "co_pay_percentage" policy ;;
  deductible <~ item "deductible" policy ;;
  room_rent_cap <~ item "room_rent_cap" policy ;;
  sub_limits <~ item "sub_limits" policy ;;
  let policy :=
    PolicyAnalyzer.dict_set "financial_details"
      (VDict [("co_pay_percentage", co_pay_percentage);
              ("deductible", deductible);
              ("room_rent_cap", room_rent_cap);
              ("sub_limits", sub_limits)])
      policy in
  issue_date <~ item "issue_date" policy ;;
  expiry_date <~ item "expiry_date" policy ;;
  let policy :=
    PolicyAnalyzer.dict_set "key_dates"
      (VDict [("issue_date", issue_date); ("expiry_date", expiry_date)])
      policy in
  Done policy.

(** [get_policy_by_id(policy_id, user_id)] on the table [db]:
    [fetchone] gives the first row the [WHERE] clause keeps. *)
Definition get_policy_by_id (db : table) (policy_id : string) (user_id : Z)
  : outcome (option (dict value)) :=
  match find (where_id_and_user policy_id user_id) db with
  | None => Done None
  | Some r =>
      policy <~ rebuild (dict_of_row r) ;;
      Done (Some policy)
  end.

(** The report's pages up to the footer (styles, tables and paragraphs
    handed to the PDF library) and the library's [doc.build]; both are
    outside the program and are parameters: what they produce, or the
    exception they raise. *)
Variable layout : dict value -> outcome (list string).
Variable build : list string -> value -> outcome string.

(** The [try] block of [generate_report]. *)
Definition report_for (db : table) (policy_id : string) (user_id : Z)
  : outcome report_response :=
  found <~ get_policy_by_id db policy_id user_id ;;
  match found with
  | None => Done (ReportError 404 "Policy not found")
  | Some policy =>
      match policy with
      | [] => Done (ReportError 404 "Policy not found")
      | _ =>
          story <~ layout policy ;;
          unique_id <~ item "unique_id" policy ;;
          pdf <~ build story unique_id ;;
          Done (ReportFile ("ClaimGuard_Report_" ++ policy_id ++ ".pdf") pdf)
      end
  end.

Definition generate_report (db : table) (policy_id : string) (user_id : Z)
  : report_response :=
  match report_for db policy_id user_id with
  | Done r => r
  | Failed e => ReportError 500 (str_error e)
  end.

End Db.

End Store.

(* ================================================================= *)
(** ** The specification's side

    The formulas and notions the specification uses to describe the code,
    written from its sentences, and the sample inputs of the examples. *)

Module Model.

Local Open Scope Z_scope.

(** "Floored at 0 and capped at 100." *)
Definition clamp (x : Z) : Z := Z.min (Z.max x 0) 100.

(** "Integer truncation": the digits after the point are dropped. *)
Definition truncate (x : Q) : Z := Z.quot (Qnum x) (Z.pos (Qden x)).

(** "Health +10, Car -10, Life -5, others +0." *)
Definition category_adjustment (policy_type : string) : Z :=
  if String.eqb policy_type "Health Insurance" then 10
  else if String.eqb policy_type "Car Insurance" then -10
  else if String.eqb policy_type "Life Insurance" then -5
  else 0.

(** "age>60 -> +hi, else age>45 -> +lo, else +0." *)
Definition age_adjustment (hi lo age : Z) : Z :=
  if 60 <? age then hi else if 45 <? age then lo else 0.

Definition if_declared (has_disease : bool) (bonus : Z) : Z :=
  if has_disease then bonus else 0.

Definition coverage_model (f : RiskPredictor.features) (policy_type : string)
           (age : Z) (has_disease : bool) : Z :=
  20
  + (RiskPredictor.waiting_period f * 8 + RiskPredictor.exclusion f * 10
     + RiskPredictor.pre_existing f * 12 + RiskPredictor.disease f * 5
     + RiskPredictor.has_years f * 5)
  + category_adjustment policy_type
  + age_adjustment 15 8 age
  + if_declared has_disease 20.

Definition cost_model (f : RiskPredictor.features) (has_disease : bool) : Q :=
  (15
   + (inject_Z (RiskPredictor.co_pay f) * 12
      + inject_Z (RiskPredictor.sub_limit f) * 10
      + inject_Z (RiskPredictor.room_rent f) * 8
      + inject_Z (RiskPredictor.percentage f) * 5
      + inject_Z (RiskPredictor.money f) * 3
      + inject_Z (RiskPredictor.deductible f) * 10
      + RiskPredictor.avg_percentage f * (3 # 2))
   + inject_Z (if_declared has_disease 10))%Q.

Definition delay_model (f : RiskPredictor.features) (age : Z) : Z :=
  10
  + (RiskPredictor.claim_days f * 15 + RiskPredictor.time f * 4
     + RiskPredictor.has_days f * 8 + RiskPredictor.has_months f * 5)
  + age_adjustment 10 5 age.

(** "overall_risk = round(0.4c + 0.35o + 0.25d, 1)" *)
Definition weighted_overall (c o d : Z) : Q :=
  Num.round1 ((2 # 5) * inject_Z c + (7 # 20) * inject_Z o
              + (1 # 4) * inject_Z d)%Q.

(** The place at which [x] is first seen in [l] ([length l] if never). *)
Fixpoint first_index (x : string) (l : list string) : nat :=
  match l with
  | [] => O
  | y :: l' => if String.eqb x y then O else S (first_index x l')
  end.

(** [a] is first seen before [b] in [l]. *)
Definition seen_before (l : list string) (a b : string) : Prop :=
  (first_index a l < first_index b l)%nat.









(** No sentence of the text matches the pattern. *)
Definition no_sentence_matches (text : string) (pattern : Re.regex) : Prop :=
  forall s, In s (Str.split "." text) ->
            Re.search pattern (Str.lower s) = None.

(** The amounts the route computes for a stored policy. *)
Definition impact_of (p : Simulator.policy) (claim : Q) : Simulator.impact :=
  Simulator.compute_impact
    (Simulator.co_pay_percentage (Simulator.financial p))
    (Simulator.deductible (Simulator.financial p)) claim.

(** A chart renderer that always returns a picture. *)
Definition renders : Q -> Q -> Q -> result string :=
  fun _ _ _ => Ok "chart".

(** A stored policy with the given co-pay percentage and deductible. *)
Definition policy_with (co_pay_pct deductible : Z) : Simulator.policy :=
  {| Simulator.id := "0123456789abcdef";
     Simulator.financial :=
       {| Simulator.co_pay_percentage := co_pay_pct;
          Simulator.deductible := deductible;
          Simulator.room_rent_cap := None;
          Simulator.sub_limits := [] |} |}.

End Model.

(* ================================================================= *)
(** ** What a pattern can match

    The language of a pattern, stated without reference to the matcher,
    and the checks on a pattern that bound what its matches and its groups
    can hold. *)

Module ReSpec.

Import Re.
Local Open Scope nat_scope.

Fixpoint flatten (ws : list string) : string :=
  match ws with
  | [] => EmptyString
  | w :: ws' => w ++ flatten ws'
  end.

(** The strings a pattern matches in full. *)
Fixpoint Lang (r : regex) (w : string) : Prop :=
  match r with
  | Eps => w = EmptyString
  | Never => False
  | Lit a => w = String a EmptyString
  | OneOf items =>
      exists c, w = String c EmptyString /\ existsb (in_cset c) items = true
  | NoneOf items =>
      exists c, w = String c EmptyString /\ existsb (in_cset c) items = false
  | Cat r1 r2 => exists w1 w2, w = w1 ++ w2 /\ Lang r1 w1 /\ Lang r2 w2
  | Alt r1 r2 => Lang r1 w \/ Lang r2 w
  | Star r1 => exists ws, w = flatten ws /\ Forall (Lang r1) ws
  | Group _ r1 => Lang r1 w
  end.

(** [t] is matched in full by the body of a group numbered [i]. *)
Fixpoint captured (r : regex) (i : nat) (t : string) : Prop :=
  match r with
  | Cat r1 r2 | Alt r1 r2 => captured r1 i t \/ captured r2 i t
  | Star r1 => captured r1 i t
  | Group j r1 => (i = j /\ Lang r1 t) \/ captured r1 i t
  | _ => False
  end.

(** Group [i] takes part in every match of the pattern. *)
Fixpoint sets (r : regex) (i : nat) : bool :=
  match r with
  | Cat r1 r2 => (sets r1 i || sets r2 i)%bool
  | Alt r1 r2 => (sets r1 i && sets r2 i)%bool
  | Group j r1 => (Nat.eqb i j || sets r1 i)%bool
  | _ => false
  end.

Fixpoint all_chars (p : ascii -> bool) (s : string) : bool :=
  match s with
  | EmptyString => true
  | String c s' => (p c && all_chars p s')%bool
  end.

Definition all_ascii : list ascii := map ascii_of_nat (seq 0 256).

(** Every character the pattern can consume satisfies [p]. *)
Fixpoint alphabet_within (p : ascii -> bool) (r : regex) : bool :=
  match r with
  | Eps | Never => true
  | Lit a => p a
  | OneOf items =>
      forallb (fun c => implb (existsb (in_cset c) items) (p c)) all_ascii
  | NoneOf items =>
      forallb (fun c => implb (negb (existsb (in_cset c) items)) (p c))
              all_ascii
  | Cat r1 r2 | Alt r1 r2 => (alphabet_within p r1 && alphabet_within p r2)%bool
  | Star r1 | Group _ r1 => alphabet_within p r1
  end.

(** The least length of a match. *)
Fixpoint min_len (r : regex) : nat :=
  match r with
  | Eps | Never | Star _ => 0
  | Lit _ | OneOf _ | NoneOf _ => 1
  | Cat r1 r2 => min_len r1 + min_len r2
  | Alt r1 r2 => Nat.min (min_len r1) (min_len r2)
  | Group _ r1 => min_len r1
  end.

(** No match is longer than [n]. *)
Fixpoint max_len (r : regex) : option nat :=
  match r with
  | Eps | Never => Some 0
  | Lit _ | OneOf _ | NoneOf _ => Some 1
  | Cat r1 r2 =>
      match max_len r1, max_len r2 with
      | Some a, Some b => Some (a + b)
      | _, _ => None
      end
  | Alt r1 r2 =>
      match max_len r1, max_len r2 with
      | Some a, Some b => Some (Nat.max a b)
      | _, _ => None
      end
  | Star _ => None
  | Group _ r1 => max_len r1
  end.

(** A property [check] of patterns holds of the body of every group
    numbered [i]. *)
Fixpoint group_bodies (check : regex -> bool) (i : nat) (r : regex) : bool :=
  match r with
  | Cat r1 r2 | Alt r1 r2 =>
      (group_bodies check i r1 && group_bodies check i r2)%bool
  | Star r1 => group_bodies check i r1
  | Group j r1 =>
      ((if Nat.eqb i j then check r1 else true) && group_bodies check i r1)%bool
  | _ => true
  end.

(** [s] holds [w] at some place. *)
Definition holds (s w : string) : Prop :=
  exists pre post, s = pre ++ w ++ post.

(** [m] is a match of [r] somewhere in [s]: its text is in the language
    of [r], and its groups hold what their bodies match. *)
Definition is_match (r : regex) (s : string) (m : match_obj) : Prop :=
  holds s (m_text m)
  /\ Lang r (m_text m)
  /\ (forall i t, group i m = Some t -> captured r i t)
  /\ (forall i, sets r i = true -> group i m <> None).

(** A digit, a point, a hyphen, a slash, a lower-case letter. *)
Definition is_point (c : ascii) : bool := Ascii.eqb c ".".
Definition is_digit_or_point (c : ascii) : bool :=
  (Str.isdigit c || is_point c)%bool.
Definition is_date_char (c : ascii) : bool :=
  (Str.isdigit c || Ascii.eqb c "-" || Ascii.eqb c "/")%bool.
Definition is_amount_char (c : ascii) : bool :=
  (Str.isdigit c || Ascii.eqb c "," || is_point c)%bool.

(** A string of one decimal digit or more. *)
Definition number (t : string) : Prop :=
  t <> EmptyString /\ all_chars Str.isdigit t = true.

(** The strings a pattern without repetition and character classes
    matches, listed. *)
Fixpoint words (r : regex) : option (list string) :=
  match r with
  | Eps => Some [EmptyString]
  | Never => Some []
  | Lit a => Some [String a EmptyString]
  | OneOf _ | NoneOf _ | Star _ => None
  | Cat r1 r2 =>
      match words r1, words r2 with
      | Some l1, Some l2 => Some (flat_map (fun a => map (append a) l2) l1)
      | _, _ => None
      end
  | Alt r1 r2 =>
      match words r1, words r2 with
      | Some l1, Some l2 => Some (l1 ++ l2)%list
      | _, _ => None
      end
  | Group _ r1 => words r1
  end.

(** The pattern matches strings of the list [allowed] only. *)
Definition words_within (allowed : list string) (r : regex) : bool :=
  match words r with
  | Some l => forallb (fun w => Str.mem w allowed) l
  | None => false
  end.

(** The pattern matches only strings of six to ten digits, hyphens and
    slashes. *)
Definition date_shaped (r : regex) : bool :=
  (alphabet_within is_date_char r
   && Nat.leb 6 (min_len r)
   && match max_len r with
      | Some n => Nat.leb n 10
      | None => false
      end)%bool.

(** The pattern matches such strings only. *)
Definition digits_only (r : regex) : bool :=
  (alphabet_within Str.isdigit r && Nat.ltb 0 (min_len r))%bool.

End ReSpec.

(* ================================================================= *)
(** ** Notions the properties of the routes and of the scores use *)

Module Expect.

Local Open Scope Z_scope.

(** A score of ten points for each occurrence of a word of the list,
    capped at 100: a multiple of ten from 0 to 100, which is 0 exactly
    when no word of the list occurs in the text. *)
Definition graded (words : list string) (text_lower : string) (score : Z)
  : Prop :=
  (exists k, score = 10 * k /\ 0 <= k <= 10)
  /\ (score = 0 <->
      forall w, In w words -> Str.contains w text_lower = false).

(** At most one risk factor, named by one of [names], with a score
    from 40 to 90. *)
Definition one_factor_of (names : list string)
           (l : list PolicyFields.risk_factor) : Prop :=
  (List.length l <= 1)%nat
  /\ Forall (fun f => In (PolicyFields.factor f) names
                      /\ 40 <= PolicyFields.score f <= 90) l.

(** [ext] is what follows the last point of [filename]. *)
Definition extension_of (filename ext : string) : Prop :=
  exists stem,
    filename = stem ++ "." ++ ext /\ Str.contains "." ext = false.

(** A stored policy with the given id and overall risk, and the look-up
    of a user who owns that policy alone. *)
Definition sample_policy (id : string) (overall : Q) : Routes.stored_policy :=
  {| Routes.sp_id := id;
     Routes.sp_policy_type := "Health Insurance";
     Routes.sp_upload_time := "2024-01-01 10:00:00";
     Routes.sp_benefits := [];
     Routes.sp_risk_scores :=
       {| PolicyAnalyzer.coverage_risk := 40;
          PolicyAnalyzer.cost_risk := 30;
          PolicyAnalyzer.delay_risk := 20;
          PolicyAnalyzer.overall_risk := overall |} |}.

Definition only_policy (policy : Routes.stored_policy)
  : string -> option Routes.stored_policy :=
  fun policy_id =>
    if String.eqb policy_id (Routes.sp_id policy) then Some policy else None.

(** A row of the table [policies] with the given id and owner, and
    nothing else filled in. *)
Definition sample_row (policy_id : string) (user_id : Z) : Store.row :=
  [Store.VStr policy_id; Store.VInt user_id; Store.VStr "policy.pdf";
   Store.VStr "2024-01-01 10:00:00"; Store.VStr "Health Insurance";
   Store.VStr "Health Insurance"; Store.VStr "Not found";
   Store.VStr "Not specified"; Store.VStr "Not specified"; Store.VStr "";
   Store.VStr ""; Store.VStr ""; Store.VStr ""; Store.VStr ""; Store.VStr "";
   Store.VStr ""; Store.VStr ""; Store.VInt 40; Store.VInt 30; Store.VInt 20;
   Store.VFloat (63 # 2); Store.VInt 10; Store.VInt 0; Store.VNone;
   Store.VStr ""; Store.VInt 1200; Store.VInt 3; Store.VStr "uploads/policy.pdf"].

(** A parser that is never called on the sample row, whose JSON columns
    are empty. *)
Definition no_json : string -> Store.outcome Store.value :=
  fun _ => Store.Failed (Store.JSONDecodeError "Expecting value").

(** What is stored under [key] in the rebuilt policy. *)
Definition field (key : string) (policy : dict Store.value)
  : option Store.value :=
  dict_find key policy.

End Expect.

(* ================================================================= *)
(** ** Arithmetic lemmas *)

Section Arithmetic.

Local Open Scope Q_scope.

Lemma py_round_comp (x y : Q) : x == y -> Num.py_round x = Num.py_round y.
Proof.
  intros H. unfold Num.py_round.
  rewrite (Qfloor_comp _ _ H).
  assert (E : (x - inject_Z (Qfloor y)) * 2 == (y - inject_Z (Qfloor y)) * 2)
    by (rewrite H; reflexivity).
  rewrite (Qcompare_comp _ _ E 1 1 (Qeq_refl 1)). reflexivity.
Qed.

Lemma round1_comp (x y : Q) : x == y -> Num.round1 x = Num.round1 y.
Proof.
  intros H. unfold Num.round1.
  rewrite (@py_round_comp (x * 10) (y * 10)) by (rewrite H; reflexivity).
  reflexivity.
Qed.

Lemma py_int_comp (x y : Q) : x == y -> Num.py_int x = Num.py_int y.
Proof.
  intros H. unfold Num.py_int.
  assert (E : Qle_bool 0 x = Qle_bool 0 y).
  { apply eq_true_iff_eq. rewrite !Qle_bool_iff, H. reflexivity. }
  rewrite E, (Qfloor_comp _ _ H), (Qceiling_comp _ _ H). reflexivity.
Qed.

Lemma qmin_cases (a b : Q) :
  (b < a /\ Num.qmin a b = b) \/ (a <= b /\ Num.qmin a b = a).
Proof.
  unfold Num.qmin. destruct (Qcompare b a) eqn:H.
  - right. apply Qeq_alt in H. split; [rewrite H; apply Qle_refl | reflexivity].
  - left. apply Qlt_alt in H. auto.
  - right. apply Qgt_alt in H. split; [apply Qlt_le_weak; exact H | reflexivity].
Qed.



Lemma inject_Z_nonneg (z : Z) : (0 <= z)%Z -> 0 <= inject_Z z.
Proof. intros H. rewrite (Zle_Qle 0 z) in H. exact H. Qed.

Lemma py_div_nonzero (a b : Q) : ~ b == 0 -> Simulator.py_div a b = Ok (a / b).
Proof.
  intros H. unfold Simulator.py_div.
  destruct (Qeq_bool b 0) eqn:E; [ | reflexivity].
  apply Qeq_bool_iff in E. contradiction.
Qed.


End Arithmetic.

(* ================================================================= *)
(** ** The claim simulator *)

Section SimulatorFacts.

Import Simulator Model.
Local Open Scope Q_scope.

Variable render : Q -> Q -> Q -> result string.



Lemma simulate_claim_success (p : policy) (claim : Q) (chart : string) :
  ~ claim == 0 ->
  render claim (insurance_pays (impact_of p claim))
         (out_of_pocket (impact_of p claim)) = Ok chart ->
  simulate_claim render (Some p) claim =
  Success
    {| sim_claim_amount := claim;
       sim_insurance_pays := Num.py_round (insurance_pays (impact_of p claim));
       sim_out_of_pocket := Num.py_round (out_of_pocket (impact_of p claim));
       sim_deductible_applied := deductible_amount (impact_of p claim);
       sim_copay_applied := Num.py_round (co_pay_amount (impact_of p claim));
       sim_coverage_percentage :=
         Num.round1 (insurance_pays (impact_of p claim) / claim * 100) |}
    (Some chart).
Proof.
  intros Hnz H. unfold simulate_claim, simulate_found.
  fold (impact_of p claim). rewrite H. cbn [bind].
  rewrite (py_div_nonzero _ Hnz). reflexivity.
Qed.


End SimulatorFacts.









(* ================================================================= *)
(** ** The risk scorer *)

Section RiskFacts.

Local Open Scope Z_scope.

Lemma clamp_py (x : Z) : Num.py_min (Num.py_max x 0) 100 = Model.clamp x.
Proof.
  unfold Num.py_min, Num.py_max, Model.clamp.
  destruct (x <? 0) eqn:E1.
  - apply Z.ltb_lt in E1. rewrite Z.max_r by lia. reflexivity.
  - apply Z.ltb_ge in E1. rewrite Z.max_l by lia.
    destruct (100 <? x) eqn:E2.
    + apply Z.ltb_lt in E2. rewrite Z.min_r by lia. reflexivity.
    + apply Z.ltb_ge in E2. rewrite Z.min_l by lia. reflexivity.
Qed.

Lemma clamp_range (x : Z) : 0 <= Model.clamp x <= 100.
Proof. unfold Model.clamp. lia. Qed.

(** Python's [int] on a float drops the digits after the point. *)
Lemma py_int_truncates (x : Q) : Num.py_int x = Model.truncate x.
Proof.
  destruct x as [n d]. unfold Num.py_int, Model.truncate, Qceiling, Qfloor.
  cbn [Qnum Qden Qopp].
  destruct (Qle_bool 0 (n # d)) eqn:E.
  - apply Qle_bool_iff in E. unfold Qle in E. cbn in E.
    rewrite Z.quot_div_nonneg by lia. reflexivity.
  - assert (H : n < 0).
    { destruct (Z_lt_le_dec n 0) as [Hn|Hn]; [exact Hn | ].
      assert (Qle_bool 0 (n # d) = true)
        by (apply Qle_bool_iff; unfold Qle; cbn; lia).
      congruence. }
    rewrite <- (Z.opp_involutive n) at 2.
    rewrite Z.quot_opp_l by lia.
    rewrite Z.quot_div_nonneg by lia. reflexivity.
Qed.

Lemma truncate_comp (x y : Q) : (x == y)%Q -> Model.truncate x = Model.truncate y.
Proof. intros H. rewrite <- !py_int_truncates. apply py_int_comp. exact H. Qed.

Lemma scores_eq (a a' b b' c c' : Z) :
  a = a' -> b = b' -> c = c' ->
  [("coverage_risk", Model.clamp a); ("cost_risk", Model.clamp b);
   ("delay_risk", Model.clamp c)]
  = [("coverage_risk", Model.clamp a'); ("cost_risk", Model.clamp b');
     ("delay_risk", Model.clamp c')].
Proof. intros -> -> ->. reflexivity. Qed.

Lemma gtb_ltb (a b : Z) : (a >? b) = (b <? a).
Proof. apply Z.gtb_ltb. Qed.

End RiskFacts.

Lemma predict_risk_closed_form :
  forall (text policy_type : string) (age : Z) (has_disease : bool),
    let f := RiskPredictor.extract_features text in
    let coverage := Model.clamp (Model.coverage_model f policy_type age has_disease) in
    let cost := Model.clamp (Model.truncate (Model.cost_model f has_disease)) in
    let delay := Model.clamp (Model.delay_model f age) in
    RiskPredictor.predict_risk text policy_type age has_disease
    = [("coverage_risk", coverage); ("cost_risk", cost); ("delay_risk", delay)].
Proof.
  intros text policy_type age has_disease f coverage cost delay.
  subst coverage cost delay.
  unfold RiskPredictor.predict_risk. fold f.
  unfold Model.coverage_model, Model.cost_model, Model.delay_model,
    Model.category_adjustment, Model.age_adjustment, Model.if_declared.
  rewrite !gtb_ltb.
  destruct (String.eqb policy_type "Health Insurance");
    destruct (String.eqb policy_type "Car Insurance");
    destruct (String.eqb policy_type "Life Insurance");
    destruct (60 <? age)%Z; destruct (45 <? age)%Z; destruct has_disease;
    cbv zeta beta iota;
    rewrite !clamp_py, py_int_truncates;
    (apply scores_eq;
     [ ring
     | apply truncate_comp;
       rewrite ?inject_Z_plus, ?inject_Z_mult;
       change (inject_Z 0) with 0%Q; change (inject_Z 3) with 3%Q;
       change (inject_Z 5) with 5%Q; change (inject_Z 8) with 8%Q;
       change (inject_Z 10) with 10%Q; change (inject_Z 12) with 12%Q;
       change (inject_Z 15) with 15%Q; ring
     | ring ]).
Qed.

(** C2.  For every text, policy category, age and disease flag,
    [predict_risk] returns the three scores of the additive model: the
    bases 20, 15 and 10, the weighted feature counts, the category
    adjustment, the age adjustment and the bonus for a declared disease,
    each result truncated to an integer, floored at 0 and capped at 100. *)
Theorem predict_risk_is_the_additive_model :
  forall (text policy_type : string) (age : Z) (has_disease : bool),
    let f := RiskPredictor.extract_features text in
    let coverage := Model.clamp (Model.coverage_model f policy_type age has_disease) in
    let cost := Model.clamp (Model.truncate (Model.cost_model f has_disease)) in
    let delay := Model.clamp (Model.delay_model f age) in
    RiskPredictor.predict_risk text policy_type age has_disease
    = [("coverage_risk", coverage); ("cost_risk", cost); ("delay_risk", delay)]
    /\ (0 <= coverage <= 100)%Z
    /\ (0 <= cost <= 100)%Z
    /\ (0 <= delay <= 100)%Z.
Proof.
  intros text policy_type age has_disease f coverage cost delay.
  split; [apply predict_risk_closed_form | ].
  subst coverage cost delay. repeat split; apply clamp_range.
Qed.

Lemma calculate_risk_score_overall (D RF COV : Type) (age : Z) (disease : D)
      (risk_factors : RF) (coverage : COV) (ml_risks : dict Z) :
  let r := PolicyAnalyzer.calculate_risk_score age disease risk_factors
                                               coverage ml_risks in
  PolicyAnalyzer.overall_risk r
  = Model.weighted_overall (PolicyAnalyzer.coverage_risk r)
                           (PolicyAnalyzer.cost_risk r)
                           (PolicyAnalyzer.delay_risk r).
Proof.
  cbv zeta. unfold PolicyAnalyzer.calculate_risk_score, Model.weighted_overall.
  cbn [PolicyAnalyzer.overall_risk PolicyAnalyzer.coverage_risk
       PolicyAnalyzer.cost_risk PolicyAnalyzer.delay_risk].
  apply round1_comp. ring.
Qed.


(* ================================================================= *)
(** ** The field extractors *)

(** Proves [NoDup] of a list of string literals. *)
Ltac distinct_literals :=
  repeat (constructor;
          [ cbn [In]; intros H;
            repeat (destruct H as [H | H]; [discriminate H | ]); exact H | ]);
  constructor.

Section ExtractorFacts.

Lemma first_match_none (patterns : list Re.regex) (s : string) :
  (forall p, In p patterns -> Re.search p s = None) ->
  first_match patterns s = None.
Proof.
  induction patterns as [ | p rest IH]; intros H; [reflexivity | ].
  cbn [first_match]. rewrite (H p (or_introl eq_refl)).
  apply IH. intros q Hq. apply H. right. exact Hq.
Qed.

Lemma co_pay_generic_mention (text : string) :
  first_match RiskPredictor.co_pay_patterns (Str.lower text) = None ->
  Str.contains "co-pay" (Str.lower text) = true
  \/ Str.contains "copay" (Str.lower text) = true ->
  RiskPredictor.extract_co_pay_percentage text = 10%Z.
Proof.
  intros Hnone Hin. unfold RiskPredictor.extract_co_pay_percentage.
  rewrite Hnone. destruct Hin as [-> | ->].
  - reflexivity.
  - rewrite orb_true_r. reflexivity.
Qed.

(** Assignment to a key the dictionary does not have appends the entry. *)
Lemma dict_set_fresh (V : Type) (key : string) (value : V) (d : dict V) :
  ~ In key (map fst d) ->
  PolicyAnalyzer.dict_set key value d = (d ++ [(key, value)])%list.
Proof.
  induction d as [ | [k v] d IH]; intros H; [reflexivity | ].
  cbn [PolicyAnalyzer.dict_set]. cbn [map fst In] in H.
  destruct (String.eqb key k) eqn:E.
  - apply String.eqb_eq in E. subst k. exfalso. apply H. left. reflexivity.
  - cbn [app]. f_equal. apply IH. intros Hin. apply H. right. exact Hin.
Qed.

(** A loop that stores one value under each of a list of distinct keys
    builds the dictionary of those keys in their order. *)
Lemma fold_dict_set (V W : Type) (f : W -> V) (entries : dict W) (acc : dict V) :
  NoDup (map fst acc ++ map fst entries) ->
  fold_left (fun d e => PolicyAnalyzer.dict_set (fst e) (f (snd e)) d)
            entries acc
  = (acc ++ map (fun e => (fst e, f (snd e))) entries)%list.
Proof.
  revert acc. induction entries as [ | [k w] entries IH]; intros acc H.
  - cbn. rewrite app_nil_r. reflexivity.
  - cbn [fold_left map fst snd].
    cbn [map fst] in H.
    rewrite dict_set_fresh.
    + rewrite IH.
      * rewrite <- app_assoc. reflexivity.
      * rewrite map_app. cbn [map fst]. rewrite <- app_assoc. exact H.
    + apply NoDup_remove_2 in H. intros Hin. apply H.
      apply in_or_app. left. exact Hin.
Qed.

Lemma terms_distinct : NoDup (map fst PolicyAnalyzer.terms).
Proof. cbn [map fst PolicyAnalyzer.terms]. distinct_literals. Qed.

Lemma extract_key_clauses_entries (text : string) :
  PolicyAnalyzer.extract_key_clauses text
  = map (fun e => (fst e, PolicyAnalyzer.clause_of text (snd e)))
        PolicyAnalyzer.terms.
Proof.
  unfold PolicyAnalyzer.extract_key_clauses.
  rewrite (fold_dict_set (PolicyAnalyzer.clause_of text) PolicyAnalyzer.terms [])
    by exact terms_distinct.
  reflexivity.
Qed.

Lemma dict_find_map (V W : Type) (f : W -> V) (d : dict W) (key : string) (w : W) :
  NoDup (map fst d) -> In (key, w) d ->
  dict_find key (map (fun e => (fst e, f (snd e))) d) = Some (f w).
Proof.
  induction d as [ | [k v] d IH]; intros Hnd Hin; [destruct Hin | ].
  cbn [map fst snd dict_find]. cbn [map fst] in Hnd.
  destruct Hin as [E | Hin].
  - inversion E; subst. rewrite String.eqb_refl. reflexivity.
  - destruct (String.eqb key k) eqn:E.
    + apply String.eqb_eq in E. subst k. exfalso.
      inversion Hnd as [ | ? ? Hnotin _]; subst. apply Hnotin.
      change key with (fst (key, w)). apply in_map. exact Hin.
    + apply IH; [ | exact Hin]. inversion Hnd; assumption.
Qed.

Lemma clause_of_absent (text : string) (pattern : Re.regex) :
  Model.no_sentence_matches text pattern ->
  PolicyAnalyzer.clause_of text pattern = "Not mentioned in document".
Proof.
  intros H. unfold PolicyAnalyzer.clause_of, PolicyAnalyzer.matching_sentences.
  assert (E : forall l : list string,
             (forall s, In s l -> Re.search pattern (Str.lower s) = None) ->
             filter (fun s => match Re.search pattern (Str.lower s) with
                              | Some _ => true
                              | None => false
                              end) l = []).
  { induction l as [ | s l IH]; intros Hl; [reflexivity | ].
    cbn [filter]. rewrite (Hl s (or_introl eq_refl)).
    apply IH. intros s' Hs'. apply Hl. right. exact Hs'. }
  rewrite (E _ H). reflexivity.
Qed.

End ExtractorFacts.

(** C5.  When no pattern with a percentage matches and "co-pay" or "copay"
    occurs in the text, [extract_co_pay_percentage] returns 10; on the text
    "co-pay of 20%" no pattern matches, because none allows a word between
    the term and the number, and the function returns 10 where the claim
    says 20. *)
Theorem co_pay_default_is_ten :
  (forall text : string,
      (forall p, In p RiskPredictor.co_pay_patterns ->
                 Re.search p (Str.lower text) = None) ->
      Str.contains "co-pay" (Str.lower text) = true
      \/ Str.contains "copay" (Str.lower text) = true ->
      RiskPredictor.extract_co_pay_percentage text = 10%Z)
  /\ first_match RiskPredictor.co_pay_patterns (Str.lower "co-pay of 20%") = None
  /\ RiskPredictor.extract_co_pay_percentage "co-pay of 20%" = 10%Z
  /\ RiskPredictor.extract_co_pay_percentage "co-pay 20%" = 20%Z.
Proof.
  split; [ | repeat split; vm_compute; reflexivity].
  intros text Hnone Hin.
  apply co_pay_generic_mention; [ | exact Hin].
  apply first_match_none. exact Hnone.
Qed.

Lemma co_pay_default_is_ten_witness :
  Str.contains "copay" (Str.lower "A copay applies to every claim") = true
  /\ RiskPredictor.extract_co_pay_percentage "A copay applies to every claim"
     = 10%Z.
Proof.
  assert (H : Str.contains "copay" (Str.lower "A copay applies to every claim")
              = true) by (vm_compute; reflexivity).
  split; [exact H | ].
  apply (proj1 co_pay_default_is_ten "A copay applies to every claim").
  - intros p Hp. cbn [RiskPredictor.co_pay_patterns In] in Hp.
    repeat (destruct Hp as [Hp | Hp]; [subst p; vm_compute; reflexivity | ]).
    destruct Hp.
  - right. exact H.
Defined.

(** C6.  On "sum insured of Rs. 5 lakh" no pattern of
    [extract_sum_insured] matches, the first one allowing no word between
    "sum insured" and the amount, and the function returns "Not specified"
    where the claim says "500000.0".  Without the word the first pattern
    matches and takes the unit into the match, so that the look-ahead for a
    unit finds none and the amount comes back unscaled, "5"; the pattern
    "cover of", which leaves the unit outside the match, returns
    "500000.0". *)
Theorem sum_insured_of_five_lakh :
  first_match PolicyAnalyzer.sum_insured_patterns
              (Str.lower "sum insured of Rs. 5 lakh") = None
  /\ PolicyAnalyzer.extract_sum_insured "sum insured of Rs. 5 lakh"
     = Ok "Not specified"
  /\ PolicyAnalyzer.extract_sum_insured "sum insured Rs. 5 lakh" = Ok "5"
  /\ PolicyAnalyzer.extract_sum_insured "cover of Rs. 5 lakh" = Ok "500000.0".
Proof. repeat split; vm_compute; reflexivity. Qed.

(** C7.  For every text and every one of the eight terms, if no sentence of
    the text matches the term's pattern, [extract_key_clauses] binds the
    term to "Not mentioned in document"; when that holds of all eight
    terms, the mapping is the eight terms, in order, each bound to that
    string. *)
Theorem absent_clause_is_not_mentioned :
  forall text : string,
    (forall term pattern,
        In (term, pattern) PolicyAnalyzer.terms ->
        Model.no_sentence_matches text pattern ->
        dict_find term (PolicyAnalyzer.extract_key_clauses text)
        = Some "Not mentioned in document")
    /\ ((forall term pattern,
            In (term, pattern) PolicyAnalyzer.terms ->
            Model.no_sentence_matches text pattern) ->
        PolicyAnalyzer.extract_key_clauses text
        = [("waiting period", "Not mentioned in document");
           ("exclusion", "Not mentioned in document");
           ("co-pay", "Not mentioned in document");
           ("sub-limit", "Not mentioned in document");
           ("room rent", "Not mentioned in document");
           ("pre-existing", "Not mentioned in document");
           ("claim", "Not mentioned in document");
           ("deductible", "Not mentioned in document")]).
Proof.
  intros text. split.
  - intros term pattern Hin Habs.
    rewrite extract_key_clauses_entries.
    rewrite (@dict_find_map _ _ (PolicyAnalyzer.clause_of text) _ _ _ terms_distinct Hin).
    rewrite (clause_of_absent Habs). reflexivity.
  - intros Hall. rewrite extract_key_clauses_entries.
    rewrite (map_ext_in _ (fun e => (fst e, "Not mentioned in document"))).
    + reflexivity.
    + intros [term pattern] Hin. cbn [fst snd].
      rewrite (clause_of_absent (Hall term pattern Hin)). reflexivity.
Qed.

(* ================================================================= *)
(** ** Lists kept in the order of first sight *)

Section FirstSeen.

Lemma mem_In (x : string) (l : list string) : Str.mem x l = true <-> In x l.
Proof.
  unfold Str.mem. rewrite existsb_exists. split.
  - intros (y & Hy & E). apply String.eqb_eq in E. subst y. exact Hy.
  - intros H. exists x. split; [exact H | apply String.eqb_refl].
Qed.

Lemma mem_not_In (x : string) (l : list string) :
  Str.mem x l = false <-> ~ In x l.
Proof.
  rewrite <- mem_In. destruct (Str.mem x l); split; congruence.
Qed.

Lemma first_index_app_in (a : string) (pre suf : list string) :
  In a pre ->
  (Model.first_index a (pre ++ suf) = Model.first_index a pre
   /\ Model.first_index a pre < List.length pre)%nat.
Proof.
  induction pre as [ | y pre IH]; intros H; [destruct H | ].
  cbn [app Model.first_index List.length].
  destruct (String.eqb a y) eqn:E; [split; [reflexivity | lia] | ].
  destruct H as [H | H].
  - subst y. rewrite String.eqb_refl in E. discriminate E.
  - destruct (IH H) as [E1 E2]. rewrite E1. split; [reflexivity | lia].
Qed.

Lemma first_index_app_fresh (x : string) (pre suf : list string) :
  ~ In x pre ->
  Model.first_index x (pre ++ x :: suf) = List.length pre.
Proof.
  induction pre as [ | y pre IH]; intros H.
  - cbn [app Model.first_index List.length]. rewrite String.eqb_refl.
    reflexivity.
  - cbn [app Model.first_index List.length].
    destruct (String.eqb x y) eqn:E.
    + apply String.eqb_eq in E. subst y. exfalso. apply H. left. reflexivity.
    + f_equal. apply IH. intros Hin. apply H. right. exact Hin.
Qed.

Lemma StronglySorted_snoc (A : Type) (R : A -> A -> Prop) (l : list A) (x : A) :
  StronglySorted R l -> (forall a, In a l -> R a x) ->
  StronglySorted R (l ++ [x]).
Proof.
  induction 1 as [ | a l Hs IH Hall]; intros Hx; cbn [app].
  - constructor; constructor.
  - constructor.
    + apply IH. intros b Hb. apply Hx. right. exact Hb.
    + apply Forall_app. split; [exact Hall | ].
      constructor; [ | constructor]. apply Hx. left. reflexivity.
Qed.

Lemma in_firstn (A : Type) (n : nat) (l : list A) (x : A) :
  In x (firstn n l) -> In x l.
Proof.
  intros H. rewrite <- (firstn_skipn n l). apply in_or_app. left. exact H.
Qed.

Lemma StronglySorted_firstn (A : Type) (R : A -> A -> Prop) (n : nat) (l : list A) :
  StronglySorted R l -> StronglySorted R (firstn n l).
Proof.
  revert l. induction n as [ | n IH]; intros l H; [constructor | ].
  destruct H as [ | a l Hs Hall]; cbn [firstn]; [constructor | ].
  constructor; [apply IH; exact Hs | ].
  rewrite Forall_forall in *. intros b Hb. apply Hall.
  apply (in_firstn n). exact Hb.
Qed.

Lemma StronglySorted_strict_NoDup (A : Type) (R : A -> A -> Prop) (l : list A) :
  (forall a, ~ R a a) -> StronglySorted R l -> NoDup l.
Proof.
  intros Hirr. induction 1 as [ | a l Hs IH Hall]; constructor.
  - intros Hin. rewrite Forall_forall in Hall.
    exact (Hirr a (Hall a Hin)).
  - exact IH.
Qed.

(** The dictionary built from a list of keys: after the keys of [pre] the
    dictionary holds exactly the strings of [pre], in the order in which
    the whole list first shows them; the same then holds at the end. *)
Lemma fromkeys_invariant (suf pre keys : list string) :
  (forall a, In a keys <-> In a pre) ->
  StronglySorted (Model.seen_before (pre ++ suf)) keys ->
  let r := fold_left (fun keys x => if Str.mem x keys then keys
                                    else (keys ++ [x])%list) suf keys in
  (forall a, In a r <-> In a (pre ++ suf))
  /\ StronglySorted (Model.seen_before (pre ++ suf)) r.
Proof.
  revert pre keys. induction suf as [ | x suf IH]; intros pre keys Hin Hs.
  - cbn [fold_left]. rewrite app_nil_r in *. split; assumption.
  - cbn [fold_left].
    replace (pre ++ x :: suf)%list with ((pre ++ [x]) ++ suf)%list in *
      by (rewrite <- app_assoc; reflexivity).
    apply IH.
    + intros a. destruct (Str.mem x keys) eqn:E.
      * apply mem_In in E. rewrite in_app_iff, Hin. cbn [In].
        split; [tauto | ]. intros [H | [H | []]]; [exact H | ].
        subst a. apply Hin. exact E.
      * rewrite !in_app_iff, Hin. reflexivity.
    + destruct (Str.mem x keys) eqn:E; [exact Hs | ].
      apply mem_not_In in E.
      apply StronglySorted_snoc; [exact Hs | ].
      intros a Ha. unfold Model.seen_before.
      rewrite <- app_assoc. cbn [app].
      assert (Hpre : In a pre) by (apply Hin; exact Ha).
      destruct (@first_index_app_in a pre (x :: suf) Hpre) as [E1 E2].
      rewrite E1, first_index_app_fresh; [exact E2 | ].
      intros Hx. apply E. apply Hin. exact Hx.
Qed.

Lemma fromkeys_first_seen (l : list string) :
  (forall a, In a (PolicyAnalyzer.fromkeys l) <-> In a l)
  /\ StronglySorted (Model.seen_before l) (PolicyAnalyzer.fromkeys l).
Proof.
  apply (@fromkeys_invariant l [] []).
  - intros a. reflexivity.
  - constructor.
Qed.

End FirstSeen.

(** C8.  For every text the list [extract_exclusions] returns has at most
    eight entries, no entry twice, and keeps the order of first sight: its
    entries are normalized exclusions that were found, each found exclusion
    is in it unless the list is full, and an entry stands before another
    when it was found first. *)
Theorem exclusions_are_capped_and_distinct :
  forall text : string,
    let found := PolicyAnalyzer.collect_exclusions (Str.lower text) in
    let r := PolicyAnalyzer.extract_exclusions text in
    (List.length r <= 8)%nat
    /\ NoDup r
    /\ (forall x, In x r -> In x found)
    /\ (forall x, In x found -> In x r \/ List.length r = 8%nat)
    /\ StronglySorted (Model.seen_before found) r.
Proof.
  intros text found r. subst r. unfold PolicyAnalyzer.extract_exclusions.
  fold found.
  destruct (fromkeys_first_seen found) as [Hin Hs].
  assert (Hsorted : StronglySorted (Model.seen_before found)
                      (firstn 8 (PolicyAnalyzer.fromkeys found)))
    by (apply StronglySorted_firstn; exact Hs).
  split; [apply firstn_le_length | ].
  split.
  { apply (StronglySorted_strict_NoDup
             (R := Model.seen_before found)); [ | exact Hsorted].
    intros a. unfold Model.seen_before. lia. }
  split.
  { intros x Hx. apply Hin. apply (in_firstn 8). exact Hx. }
  split; [ | exact Hsorted].
  intros x Hx. apply Hin in Hx.
  destruct (Nat.le_gt_cases (List.length (PolicyAnalyzer.fromkeys found)) 8)
    as [Hle | Hgt].
  - left. rewrite firstn_all2 by exact Hle. exact Hx.
  - right. rewrite length_firstn. lia.
Qed.

(* ================================================================= *)
(** ** The policy type classifier *)

Section SortingFacts.

Local Open Scope Q_scope.










Section Sorted.

Variable A : Type.
Variable key : A -> Q.





End Sorted.

End SortingFacts.

Section ClassifierFacts.

Import PolicyAnalyzer.
Local Open Scope Q_scope.

Variable text_lower : string.











End ClassifierFacts.

Section ClassifierResult.

Import PolicyAnalyzer.
Local Open Scope Q_scope.










End ClassifierResult.




Lemma absent_clause_is_not_mentioned_witness :
  dict_find "deductible"
            (PolicyAnalyzer.extract_key_clauses
               "This policy is issued in Pune. It is valid for one year.")
  = Some "Not mentioned in document".
Proof.
  eapply (proj1 (absent_clause_is_not_mentioned
                   "This policy is issued in Pune. It is valid for one year.")
                "deductible").
  - cbn [PolicyAnalyzer.terms In]. do 7 right. left. reflexivity.
  - intros s Hs. vm_compute in Hs.
    repeat (destruct Hs as [Hs | Hs]; [subst s; vm_compute; reflexivity | ]).
    destruct Hs.
Defined.

(* ================================================================= *)
(** ** The matcher against the language of a pattern *)

Section MatcherFacts.

Import Re ReSpec.

Lemma str_app_assoc (a b c : string) : (a ++ b) ++ c = a ++ (b ++ c).
Proof. induction a as [ | x a IH]; cbn; [reflexivity | rewrite IH; reflexivity]. Qed.

Lemma str_app_nil_r (a : string) : a ++ "" = a.
Proof. induction a as [ | x a IH]; cbn; [reflexivity | rewrite IH; reflexivity]. Qed.

Lemma str_length_app (a b : string) :
  String.length (a ++ b) = (String.length a + String.length b)%nat.
Proof. induction a as [ | x a IH]; cbn; [reflexivity | rewrite IH; reflexivity]. Qed.

Lemma take_app (w s' : string) : Str.take (String.length w) (w ++ s') = w.
Proof.
  induction w as [ | x w IH]; cbn.
  - destruct s'; reflexivity.
  - rewrite IH. reflexivity.
Qed.

Lemma consumed_app (w s' : string) : consumed (w ++ s') s' = w.
Proof.
  unfold consumed. rewrite str_length_app.
  replace (String.length w + String.length s' - String.length s')%nat
    with (String.length w) by lia.
  apply take_app.
Qed.

Lemma lookup_app (i : nat) (a b : captures) :
  lookup i (a ++ b)%list = match lookup i a with
                      | Some t => Some t
                      | None => lookup i b
                      end.
Proof.
  induction a as [ | [j t] a IH]; cbn [app lookup]; [reflexivity | ].
  destruct (Nat.eqb i j); [reflexivity | exact IH].
Qed.

Lemma lookup_In (i : nat) (g : captures) (t : string) :
  lookup i g = Some t -> In (i, t) g.
Proof.
  induction g as [ | [j u] g IH]; cbn [lookup]; [discriminate | ].
  destruct (Nat.eqb i j) eqn:E; intros H.
  - apply Nat.eqb_eq in E. subst j. injection H as ->. left. reflexivity.
  - right. apply IH. exact H.
Qed.

Lemma step_inv (R : Type) (p : ascii -> bool) (s : string) (g : captures)
      (k : string -> captures -> option R) (x : R) :
  step p s g k = Some x ->
  exists c s', s = String c s' /\ p c = true /\ k s' g = Some x.
Proof.
  unfold step. destruct s as [ | c s']; [discriminate | ].
  destruct (p c) eqn:E; [ | discriminate].
  intros H. exists c, s'. auto.
Qed.

(** Whatever way the matcher finds through a pattern, the text it
    consumed is in the pattern's language, and the groups it recorded on
    the way hold texts of their bodies' languages. *)
Lemma run_sound (R : Type) (r : regex) :
  forall (s : string) (g : captures) (k : string -> captures -> option R)
         (x : R),
    run r s g k = Some x ->
    exists w s' added,
      s = w ++ s' /\ Lang r w /\ k s' (added ++ g)%list = Some x
      /\ (forall i t, In (i, t) added -> captured r i t)
      /\ (forall i, sets r i = true -> lookup i added <> None).
Proof.
  induction r as [ | | a | items | items | r1 IH1 r2 IH2 | r1 IH1 r2 IH2
                   | r1 IH1 | j r1 IH1];
    intros s g k x H; cbn [run] in H.
  - exists "", s, []. cbn. repeat split; auto; try contradiction; discriminate.
  - discriminate H.
  - apply step_inv in H. destruct H as (c & s' & -> & E & H).
    apply Ascii.eqb_eq in E. subst c.
    exists (String a ""), s', []. cbn. repeat split; auto; try contradiction;
      discriminate.
  - apply step_inv in H. destruct H as (c & s' & -> & E & H).
    exists (String c ""), s', []. cbn. repeat split; eauto; try contradiction;
      discriminate.
  - apply step_inv in H. destruct H as (c & s' & -> & E & H).
    apply negb_true_iff in E.
    exists (String c ""), s', []. cbn. repeat split; eauto; try contradiction;
      discriminate.
  - apply IH1 in H. destruct H as (w1 & s1 & added1 & -> & L1 & H & C1 & S1).
    apply IH2 in H. destruct H as (w2 & s2 & added2 & -> & L2 & H & C2 & S2).
    exists (w1 ++ w2), s2, (added2 ++ added1)%list.
    split; [symmetry; apply str_app_assoc | ].
    split; [cbn; exists w1, w2; auto | ].
    split; [rewrite <- app_assoc; exact H | ].
    split.
    + intros i t Hin. cbn. apply in_app_or in Hin. destruct Hin; [right | left]; auto.
    + intros i Hs. cbn in Hs. rewrite lookup_app.
      destruct (lookup i added2) eqn:E2; [discriminate | ].
      apply orb_true_iff in Hs. destruct Hs as [Hs | Hs].
      * apply S1. exact Hs.
      * exfalso. apply (S2 i Hs). exact E2.
  - destruct (run r1 s g k) as [x1 | ] eqn:E1.
    + injection H as <-. apply IH1 in E1.
      destruct E1 as (w & s' & added & -> & L & H & C & S1).
      exists w, s', added. repeat split; auto.
      * cbn. left. exact L.
      * intros i t Hin. cbn. left. auto.
      * intros i Hs. cbn in Hs. apply andb_true_iff in Hs. apply S1. tauto.
    + apply IH2 in H.
      destruct H as (w & s' & added & -> & L & H & C & S2).
      exists w, s', added. repeat split; auto.
      * cbn. right. exact L.
      * intros i t Hin. cbn. right. auto.
      * intros i Hs. cbn in Hs. apply andb_true_iff in Hs. apply S2. tauto.
  - pose (loop :=
            fix loop (fuel : nat) (s : string) (g : captures) : option R :=
              match fuel with
              | O => k s g
              | S fuel' =>
                  match run r1 s g
                          (fun s' g' =>
                             if Nat.ltb (String.length s') (String.length s)
                             then loop fuel' s' g' else None) with
                  | Some x => Some x
                  | None => k s g
                  end
              end).
    change (loop (S (String.length s)) s g = Some x) in H.
    revert H. generalize (S (String.length s)). intros fuel.
    revert s g x. induction fuel as [ | fuel IHf]; intros s g x H.
    + exists "", s, []. cbn. repeat split; auto; try contradiction;
        try discriminate. exists []. split; [reflexivity | constructor].
    + cbn [loop] in H.
      match type of H with
      | match ?scrut with _ => _ end = _ => destruct scrut as [x1 | ] eqn:E1
      end.
      * injection H as <-. apply IH1 in E1.
        destruct E1 as (w1 & s1 & added1 & -> & L1 & H & C1 & _).
        destruct (Nat.ltb (String.length s1) (String.length (w1 ++ s1)));
          [ | discriminate H].
        apply IHf in H.
        destruct H as (w & s' & added & -> & (ws & -> & Lws) & H & C & _).
        exists (w1 ++ flatten ws), s', (added ++ added1)%list.
        split; [symmetry; apply str_app_assoc | ].
        split; [exists (w1 :: ws); split; [reflexivity | constructor; assumption] | ].
        split; [rewrite <- app_assoc; exact H | ].
        split; [ | cbn; discriminate].
        intros i t Hin. cbn. apply in_app_or in Hin.
        destruct Hin as [Hin | Hin]; [apply (C i t Hin) | apply (C1 i t Hin)].
      * exists "", s, []. cbn. repeat split; auto; try contradiction;
          try discriminate. exists []. split; [reflexivity | constructor].
  - apply IH1 in H. destruct H as (w & s' & added & -> & L & H & C & S1).
    rewrite consumed_app in H.
    exists w, s', ((j, w) :: added). repeat split; auto.
    + intros i t [E | Hin]; cbn.
      * injection E as <- <-. left. split; [reflexivity | exact L].
      * right. auto.
    + intros i Hs. cbn in Hs. cbn [lookup].
      destruct (Nat.eqb i j) eqn:E; [discriminate | ].
      apply S1. exact Hs.
Qed.


Lemma match_at_sound (r : regex) (s : string) (pos : nat) (m : match_obj) :
  match_at r s pos = Some m ->
  exists w s',
    s = w ++ s' /\ Lang r w /\ m_text m = w
    /\ m_start m = pos /\ m_end m = (pos + String.length w)%nat
    /\ (forall i t, group i m = Some t -> captured r i t)
    /\ (forall i, sets r i = true -> group i m <> None).
Proof.
  unfold match_at. intros H. apply run_sound in H.
  destruct H as (w & s' & added & -> & L & H & C & S1).
  injection H as <-. rewrite app_nil_r. cbn [m_text m_start m_end m_groups].
  exists w, s'. rewrite consumed_app, str_length_app.
  repeat split; auto.
  - f_equal. lia.
  - intros i t Hg. apply C. apply lookup_In. exact Hg.
Qed.

Lemma match_at_is_match (r : regex) (s : string) (pos : nat) (m : match_obj) :
  match_at r s pos = Some m -> is_match r s m.
Proof.
  intros H. apply match_at_sound in H.
  destruct H as (w & s' & -> & L & E & _ & _ & C & S1).
  unfold is_match. rewrite E. repeat split; auto.
  exists "", s'. reflexivity.
Qed.

Lemma holds_tail (c : ascii) (s w : string) : holds s w -> holds (String c s) w.
Proof. intros (pre & post & ->). exists (String c pre), post. reflexivity. Qed.

Lemma is_match_tail (r : regex) (c : ascii) (s : string) (m : match_obj) :
  is_match r s m -> is_match r (String c s) m.
Proof.
  intros (Hh & H). split; [apply holds_tail; exact Hh | exact H].
Qed.

Lemma search_from_sound (r : regex) (s : string) (pos : nat) (m : match_obj) :
  search_from r s pos = Some m -> is_match r s m.
Proof.
  revert pos. induction s as [ | c s IH]; intros pos; cbn [search_from].
  - destruct (match_at r "" pos) eqn:E; [ | discriminate].
    intros H. injection H as <-. apply (match_at_is_match _ _ _ E).
  - destruct (match_at r (String c s) pos) eqn:E.
    + intros H. injection H as <-. apply (match_at_is_match _ _ _ E).
    + intros H. apply is_match_tail. apply (IH _ H).
Qed.

Lemma search_sound (r : regex) (s : string) (m : match_obj) :
  search r s = Some m -> is_match r s m.
Proof. apply search_from_sound. Qed.

Lemma first_match_sound (patterns : list regex) (s : string) (m : match_obj) :
  first_match patterns s = Some m ->
  exists p, In p patterns /\ is_match p s m.
Proof.
  induction patterns as [ | p rest IH]; cbn [first_match]; [discriminate | ].
  destruct (search p s) eqn:E.
  - intros H. injection H as <-. exists p. split; [left; reflexivity | ].
    apply search_sound. exact E.
  - intros H. destruct (IH H) as (q & Hq & Hm). exists q. split; [right | ]; auto.
Qed.

Lemma matches_from_sound (r : regex) (s : string) (pos skip : nat)
      (m : match_obj) :
  In m (matches_from r s pos skip) -> is_match r s m.
Proof.
  revert pos skip. induction s as [ | c s IH]; intros pos skip;
    destruct skip as [ | k]; cbn [matches_from].
  - destruct (match_at r "" pos) eqn:E; [ | intros []].
    intros [<- | []]. apply (match_at_is_match _ _ _ E).
  - intros [].
  - destruct (match_at r (String c s) pos) eqn:E.
    + intros [<- | H]; [apply (match_at_is_match _ _ _ E) | ].
      apply is_match_tail. apply (IH _ _ H).
    + intros H. apply is_match_tail. apply (IH _ _ H).
  - intros H. apply is_match_tail. apply (IH _ _ H).
Qed.

Lemma finditer_sound (r : regex) (s : string) (m : match_obj) :
  In m (finditer r s) -> is_match r s m.
Proof. apply matches_from_sound. Qed.

(** *** What the language of a pattern holds *)

Lemma all_chars_app (p : ascii -> bool) (a b : string) :
  all_chars p (a ++ b) = (all_chars p a && all_chars p b)%bool.
Proof.
  induction a as [ | c a IH]; cbn; [reflexivity | ].
  rewrite IH. apply andb_assoc.
Qed.

Lemma in_all_ascii (c : ascii) : In c all_ascii.
Proof.
  unfold all_ascii. rewrite <- (ascii_nat_embedding c).
  apply in_map. apply in_seq. pose proof (nat_ascii_bounded c). lia.
Qed.

Lemma lang_alphabet (p : ascii -> bool) (r : regex) :
  alphabet_within p r = true ->
  forall w, Lang r w -> all_chars p w = true.
Proof.
  induction r as [ | | a | items | items | r1 IH1 r2 IH2 | r1 IH1 r2 IH2
                   | r1 IH1 | j r1 IH1];
    cbn [alphabet_within Lang]; intros Ha w L.
  - subst w. reflexivity.
  - destruct L.
  - subst w. cbn. rewrite Ha. reflexivity.
  - destruct L as (c & -> & E). cbn.
    rewrite forallb_forall in Ha. specialize (Ha c (in_all_ascii c)).
    rewrite E in Ha. cbn in Ha. rewrite Ha. reflexivity.
  - destruct L as (c & -> & E). cbn.
    rewrite forallb_forall in Ha. specialize (Ha c (in_all_ascii c)).
    rewrite E in Ha. cbn in Ha. rewrite Ha. reflexivity.
  - apply andb_true_iff in Ha. destruct Ha as [A1 A2].
    destruct L as (w1 & w2 & -> & L1 & L2).
    rewrite all_chars_app, (IH1 A1 _ L1), (IH2 A2 _ L2). reflexivity.
  - apply andb_true_iff in Ha. destruct Ha as [A1 A2].
    destruct L as [L | L]; [apply (IH1 A1 _ L) | apply (IH2 A2 _ L)].
  - destruct L as (ws & -> & Lws).
    induction Lws as [ | w ws Lw _ IHws]; cbn [flatten]; [reflexivity | ].
    rewrite all_chars_app, (IH1 Ha _ Lw), IHws. reflexivity.
  - apply (IH1 Ha _ L).
Qed.

Lemma lang_min_len (r : regex) :
  forall w, Lang r w -> (min_len r <= String.length w)%nat.
Proof.
  induction r as [ | | a | items | items | r1 IH1 r2 IH2 | r1 IH1 r2 IH2
                   | r1 IH1 | j r1 IH1];
    cbn [min_len Lang]; intros w L.
  - lia.
  - destruct L.
  - subst w. cbn. lia.
  - destruct L as (c & -> & _). cbn. lia.
  - destruct L as (c & -> & _). cbn. lia.
  - destruct L as (w1 & w2 & -> & L1 & L2). rewrite str_length_app.
    specialize (IH1 _ L1). specialize (IH2 _ L2). lia.
  - destruct L as [L | L]; [specialize (IH1 _ L) | specialize (IH2 _ L)]; lia.
  - lia.
  - apply (IH1 _ L).
Qed.

Lemma lang_max_len (r : regex) :
  forall n w, max_len r = Some n -> Lang r w -> (String.length w <= n)%nat.
Proof.
  induction r as [ | | a | items | items | r1 IH1 r2 IH2 | r1 IH1 r2 IH2
                   | r1 IH1 | j r1 IH1];
    cbn [max_len Lang]; intros n w Hn L.
  - subst w. cbn. lia.
  - destruct L.
  - subst w. injection Hn as <-. cbn. lia.
  - destruct L as (c & -> & _). injection Hn as <-. cbn. lia.
  - destruct L as (c & -> & _). injection Hn as <-. cbn. lia.
  - destruct (max_len r1) as [a | ]; [ | discriminate].
    destruct (max_len r2) as [b | ]; [ | discriminate].
    injection Hn as <-. destruct L as (w1 & w2 & -> & L1 & L2).
    rewrite str_length_app.
    specialize (IH1 _ _ eq_refl L1). specialize (IH2 _ _ eq_refl L2). lia.
  - destruct (max_len r1) as [a | ]; [ | discriminate].
    destruct (max_len r2) as [b | ]; [ | discriminate].
    injection Hn as <-.
    destruct L as [L | L];
      [specialize (IH1 _ _ eq_refl L) | specialize (IH2 _ _ eq_refl L)]; lia.
  - discriminate.
  - apply (IH1 _ _ Hn L).
Qed.

(** What holds of the language of every body of group [i] holds of what
    group [i] captured. *)
Lemma captured_bodies (check : regex -> bool) (P : string -> Prop) (i : nat) :
  (forall r, check r = true -> forall t, Lang r t -> P t) ->
  forall r t, group_bodies check i r = true -> captured r i t -> P t.
Proof.
  intros Hc.
  induction r as [ | | a | items | items | r1 IH1 r2 IH2 | r1 IH1 r2 IH2
                   | r1 IH1 | j r1 IH1];
    cbn [group_bodies captured]; intros t Hg C; try (destruct C; fail).
  - apply andb_true_iff in Hg. destruct Hg as [G1 G2].
    destruct C as [C | C]; [apply (IH1 _ G1 C) | apply (IH2 _ G2 C)].
  - apply andb_true_iff in Hg. destruct Hg as [G1 G2].
    destruct C as [C | C]; [apply (IH1 _ G1 C) | apply (IH2 _ G2 C)].
  - apply (IH1 _ Hg C).
  - apply andb_true_iff in Hg. destruct Hg as [G1 G2].
    destruct C as [[-> L] | C]; [ | apply (IH1 _ G2 C)].
    rewrite Nat.eqb_refl in G1. apply (Hc _ G1 _ L).
Qed.

End MatcherFacts.

(* ================================================================= *)
(** ** What the groups of the extractors' patterns hold *)

Section CapturedNumbers.

Import Re ReSpec.

Lemma digits_only_number (r : regex) (t : string) :
  digits_only r = true -> Lang r t -> number t.
Proof.
  unfold digits_only, number. intros H L.
  apply andb_true_iff in H. destruct H as [Ha Hl].
  split; [ | apply (lang_alphabet _ _ Ha _ L)].
  intros ->. apply lang_min_len in L. apply Nat.ltb_lt in Hl.
  cbn [String.length] in L. lia.
Qed.

Lemma group_is_number (p : regex) (s : string) (m : match_obj) (i : nat)
      (t : string) :
  is_match p s m -> group_bodies digits_only i p = true ->
  group i m = Some t -> number t.
Proof.
  intros (_ & _ & C & _) Hb Hg.
  apply (@captured_bodies digits_only number i
           (fun r H t L => @digits_only_number r t H L) p t Hb).
  apply C. exact Hg.
Qed.

Lemma group_is_set (p : regex) (s : string) (m : match_obj) (i : nat) :
  is_match p s m -> sets p i = true -> exists t, group i m = Some t.
Proof.
  intros (_ & _ & _ & S1) Hs. specialize (S1 i Hs).
  destruct (group i m) as [t | ]; [exists t; reflexivity | contradiction].
Qed.

Lemma digit_val_nonneg (c : ascii) :
  Str.isdigit c = true -> (0 <= Num.digit_val c <= 9)%Z.
Proof.
  unfold Str.isdigit, Str.in_range, Num.digit_val. intros H.
  apply andb_true_iff in H. destruct H as [H1 H2].
  apply N.leb_le in H1. apply N.leb_le in H2. lia.
Qed.

Lemma digits_acc_nonneg (s : string) :
  forall acc, all_chars Str.isdigit s = true -> (0 <= acc)%Z ->
              (acc <= Num.digits_acc s acc)%Z.
Proof.
  induction s as [ | c s IH]; intros acc H Hacc; cbn [Num.digits_acc]; [lia | ].
  cbn [all_chars] in H. apply andb_true_iff in H. destruct H as [Hc Hs].
  pose proof (digit_val_nonneg c Hc).
  specialize (IH (10 * acc + Num.digit_val c)%Z Hs). lia.
Qed.

Lemma int_of_digits_nonneg (t : string) :
  number t -> (0 <= Num.int_of_digits t)%Z.
Proof.
  intros [_ H]. unfold Num.int_of_digits.
  pose proof (@digits_acc_nonneg t 0%Z H). lia.
Qed.

Lemma lang_lit (s w : string) : Lang (lit s) w -> w = s.
Proof.
  revert w. induction s as [ | c s IH]; intros w; cbn [lit].
  - cbn. auto.
  - destruct s as [ | c' s'].
    + cbn. auto.
    + cbn [Lang]. intros (w1 & w2 & -> & -> & L2).
      rewrite (IH _ L2). reflexivity.
Qed.

Lemma lang_cat_lit (s : string) (r : regex) (w : string) :
  Lang (Cat (lit s) r) w -> exists rest, w = s ++ rest.
Proof.
  cbn [Lang]. intros (w1 & w2 & -> & L1 & _).
  rewrite (lang_lit _ _ L1). exists w2. reflexivity.
Qed.

Lemma startswith_app (a b : string) : Str.startswith a (a ++ b) = true.
Proof.
  induction a as [ | c a IH]; cbn; [reflexivity | ].
  rewrite Ascii.eqb_refl, IH. reflexivity.
Qed.

Lemma contains_startswith (a s : string) :
  Str.startswith a s = true -> Str.contains a s = true.
Proof. intros H. destruct s; cbn [Str.contains]; rewrite H; reflexivity. Qed.

Lemma holds_contains (s a rest : string) :
  holds s (a ++ rest) -> Str.contains a s = true.
Proof.
  intros (pre & post & ->). induction pre as [ | c pre IH].
  - cbn [append]. apply contains_startswith.
    rewrite str_app_assoc. apply startswith_app.
  - cbn [append Str.contains]. rewrite IH. apply orb_true_r.
Qed.

(** A match of a pattern that begins with a literal shows the literal in
    the text. *)
Lemma match_shows_literal (a : string) (r : regex) (s : string)
      (m : match_obj) :
  is_match (Cat (lit a) r) s m -> Str.contains a s = true.
Proof.
  intros (Hh & L & _). apply lang_cat_lit in L. destruct L as (rest & E).
  rewrite E in Hh. apply (@holds_contains s a rest Hh).
Qed.

End CapturedNumbers.

(* ================================================================= *)
(** ** The financial terms read from the text *)

Section FinancialFacts.

Import Re ReMore ReSpec FinancialTerms.


Lemma in_groups (p : regex) (m : match_obj) (v : option string) :
  In v (groups p m) -> exists i, v = group i m.
Proof.
  unfold groups. intros H. apply in_map_iff in H.
  destruct H as (i & E & _). exists i. symmetry. exact E.
Qed.

Lemma truthy_some (v : option string) :
  truthy v = true -> exists t, v = Some t /\ t <> "".
Proof.
  destruct v as [[ | c t] | ]; cbn; try discriminate.
  intros _. exists (String c t). split; [reflexivity | discriminate].
Qed.

Lemma amount_after_shows_word (word s : string) (m : match_obj) :
  is_match (amount_after word) s m -> Str.contains word s = true.
Proof.
  intros (Hh & L & _). unfold amount_after in L. cbn [Lang cats] in L.
  destruct L as [L | L];
    destruct L as (w1 & w2 & E & L1 & _); apply lang_lit in L1; subst w1;
    rewrite E in Hh; apply (@holds_contains s word w2 Hh).
Qed.

Lemma amount_after_groups (word : string) (i : nat) :
  group_bodies digits_only i (amount_after word) = true.
Proof.
  assert (Hl : forall w, group_bodies digits_only i (lit w) = true).
  { induction w as [ | c w IH]; [reflexivity | ].
    cbn [lit]. destruct w; [reflexivity | ].
    cbn [group_bodies]. exact IH. }
  unfold amount_after. cbn [cats group_bodies]. rewrite !Hl.
  destruct i as [ | [ | [ | i]]]; vm_compute; reflexivity.
Qed.

(** A value the amount patterns hand over is a group's number. *)
Lemma amount_after_value (word s : string) (m : match_obj)
      (v : option string) :
  is_match (amount_after word) s m ->
  In v (groups (amount_after word) m) -> truthy v = true ->
  exists t, v = Some t /\ number t.
Proof.
  intros Hm Hin Ht. apply in_groups in Hin. destruct Hin as (i & ->).
  apply truthy_some in Ht. destruct Ht as (t & Hg & _).
  exists t. split; [exact Hg | ].
  apply (@group_is_number (amount_after word) s m i t Hm
                          (amount_after_groups word i) Hg).
Qed.

Lemma first_value_inv (r : regex) (m : match_obj) (t : string) :
  first_value r m = Some t ->
  In (Some t) (groups r m) /\ truthy (Some t) = true.
Proof.
  unfold first_value. destruct (find truthy (groups r m)) as [[u | ] | ] eqn:E;
    try discriminate.
  intros H. injection H as <-. apply (@find_some _ truthy (groups r m) (Some u) E).
Qed.

Lemma first_value_of_amounts (words : list string) (s t : string) :
  first_value_of (map amount_after words) s = Some t ->
  number t /\ exists word, In word words /\ Str.contains word s = true.
Proof.
  induction words as [ | w words IH]; cbn [map first_value_of];
    [discriminate | ].
  assert (Hrest : first_value_of (map amount_after words) s = Some t ->
                  number t /\ exists word, In word (w :: words)
                                           /\ Str.contains word s = true).
  { intros H. destruct (IH H) as (Hn & word & Hin & Hc).
    split; [exact Hn | ]. exists word. split; [right | ]; assumption. }
  destruct (search (amount_after w) s) as [m | ] eqn:E; [ | exact Hrest].
  destruct (first_value (amount_after w) m) as [u | ] eqn:Ev; [ | exact Hrest].
  intros H. injection H as ->. apply search_sound in E.
  apply first_value_inv in Ev. destruct Ev as [Hin Ht].
  destruct (@amount_after_value w s m (Some t) E Hin Ht) as (t' & Et & Hn).
  injection Et as <-. split; [exact Hn | ].
  exists w. split; [left; reflexivity | ].
  apply (@amount_after_shows_word w s m E).
Qed.

Lemma first_value_of_none (words : list string) (s : string) :
  (forall word, In word words -> Str.contains word s = false) ->
  first_value_of (map amount_after words) s = None.
Proof.
  intros H. destruct (first_value_of (map amount_after words) s) as [t | ] eqn:E;
    [ | reflexivity].
  apply first_value_of_amounts in E. destruct E as (_ & word & Hin & Hc).
  rewrite (H word Hin) in Hc. discriminate Hc.
Qed.

Lemma dict_set_keys (V : Type) (key : string) (value : V) (d : dict V) :
  forall k v, In (k, v) (PolicyAnalyzer.dict_set key value d) ->
              (k = key /\ v = value) \/ In (k, v) d.
Proof.
  induction d as [ | [k0 v0] d IH]; intros k v; cbn [PolicyAnalyzer.dict_set].
  - intros [E | []]. injection E as <- <-. left. auto.
  - destruct (String.eqb key k0) eqn:E.
    + apply String.eqb_eq in E. subst k0.
      intros [H | H]; [injection H as <- <-; left; auto | right; right; exact H].
    + intros [H | H]; [right; left; exact H | ].
      destruct (IH k v H) as [H' | H']; [left; exact H' | right; right; exact H'].
Qed.

Lemma dict_set_nodup (V : Type) (key : string) (value : V) (d : dict V) :
  NoDup (map fst d) -> NoDup (map fst (PolicyAnalyzer.dict_set key value d)).
Proof.
  induction d as [ | [k0 v0] d IH]; intros H; cbn [PolicyAnalyzer.dict_set].
  - cbn. constructor; [intros [] | constructor].
  - destruct (String.eqb key k0) eqn:E; [exact H | ].
    cbn [map fst] in *. inversion H as [ | x l Hnin Hnd]; subst.
    constructor; [ | apply IH; exact Hnd].
    intros Hin. apply in_map_iff in Hin. destruct Hin as ([k v] & Ek & Hin).
    cbn [fst] in Ek. subst k.
    destruct (@dict_set_keys V key value d k0 v Hin) as [[Ek _] | Hin'].
    + subst key. rewrite String.eqb_refl in E. discriminate E.
    + apply Hnin. apply in_map_iff. exists (k0, v). auto.
Qed.

End FinancialFacts.


(** X2.  [extract_deductible] never returns a negative number, and it
    returns 0 for every text in which, once lower-cased, none of the words
    "deductible", "excess" and "first pay" occurs. *)
Theorem deductible_is_zero_without_its_keywords :
  forall text : string,
    (0 <= FinancialTerms.extract_deductible text)%Z
    /\ ((forall word, In word ["deductible"; "excess"; "first pay"] ->
                      Str.contains word (Str.lower text) = false) ->
        FinancialTerms.extract_deductible text = 0%Z).
Proof.
  intros text. unfold FinancialTerms.extract_deductible.
  change FinancialTerms.deductible_patterns
    with (map FinancialTerms.amount_after ["deductible"; "excess"; "first pay"]).
  split.
  - destruct (FinancialTerms.first_value_of _ _) as [t | ] eqn:E; [ | lia].
    apply first_value_of_amounts in E. destruct E as [Hn _].
    apply int_of_digits_nonneg. exact Hn.
  - intros H. rewrite (first_value_of_none _ _ H). reflexivity.
Qed.

(** X3.  What [extract_room_rent_cap] returns is nothing, a string of
    decimal digits, or such a string followed by the percent sign; and it is
    nothing for every text in which, once lower-cased, none of "room rent",
    "room charges" and "accommodation" occurs. *)
Theorem room_rent_cap_is_an_amount_or_a_percentage :
  forall text : string,
    (FinancialTerms.extract_room_rent_cap text = None
     \/ exists t, ReSpec.number t
                  /\ (FinancialTerms.extract_room_rent_cap text = Some t
                      \/ FinancialTerms.extract_room_rent_cap text
                         = Some (t ++ "%")))
    /\ ((forall word, In word ["room rent"; "room charges"; "accommodation"] ->
                      Str.contains word (Str.lower text) = false) ->
        FinancialTerms.extract_room_rent_cap text = None).
Proof.
  intros text. unfold FinancialTerms.extract_room_rent_cap.
  change FinancialTerms.room_rent_patterns
    with (map FinancialTerms.amount_after
              ["room rent"; "room charges"; "accommodation"]).
  split.
  - destruct (FinancialTerms.first_value_of _ _) as [t | ] eqn:E.
    + apply first_value_of_amounts in E. destruct E as [Hn _].
      right. exists t. auto.
    + destruct (Re.search FinancialTerms.room_rent_percent (Str.lower text))
        as [m | ] eqn:Es; [ | left; reflexivity].
      apply search_sound in Es.
      assert (Hs : ReSpec.sets FinancialTerms.room_rent_percent 1 = true)
        by (vm_compute; reflexivity).
      assert (Hb : ReSpec.group_bodies ReSpec.digits_only 1
                                       FinancialTerms.room_rent_percent = true)
        by (vm_compute; reflexivity).
      destruct (@group_is_set _ _ m 1 Es Hs) as (t & Ht).
      right. exists t.
      split; [apply (@group_is_number _ _ m 1 t Es Hb Ht) | ].
      right. unfold Re.group_or_empty. rewrite Ht. reflexivity.
  - intros H. rewrite (first_value_of_none _ _ H).
    destruct (Re.search FinancialTerms.room_rent_percent (Str.lower text))
      as [m | ] eqn:Es; [ | reflexivity].
    apply search_sound in Es.
    change FinancialTerms.room_rent_percent
      with (Re.Cat (Re.lit "room rent")
                   (Re.cats [Re.Star FinancialTerms.colon_or_space;
                             Re.Group 1 (Re.plus Re.digit); Re.Lit "%"])) in Es.
    apply match_shows_literal in Es.
    rewrite (H "room rent" (or_introl eq_refl)) in Es. discriminate Es.
Qed.

Section SubLimitFacts.

Import Re ReMore ReSpec FinancialTerms.

Lemma store_values_invariant (P : dict Z -> Prop) (limit_type : string)
      (vals : list (option string)) :
  (forall d t, P d -> In (Some t) vals -> number t ->
               P (PolicyAnalyzer.dict_set limit_type (Num.int_of_digits t) d)) ->
  (forall v, In v vals -> truthy v = true -> exists t, v = Some t /\ number t) ->
  forall d, P d -> P (store_values limit_type vals d).
Proof.
  unfold store_values. induction vals as [ | v vals IH]; intros Hset Hvals d Hd;
    cbn [fold_left]; [exact Hd | ].
  apply IH.
  - intros d' t Hd' Hin Hn. apply Hset; [exact Hd' | right; exact Hin | exact Hn].
  - intros v' Hin Ht. apply Hvals; [right; exact Hin | exact Ht].
  - destruct (truthy v) eqn:Ht; [ | exact Hd].
    destruct (Hvals v (or_introl eq_refl) Ht) as (t & -> & Hn).
    cbn [str_of]. apply Hset; [exact Hd | left; reflexivity | exact Hn].
Qed.

Lemma limit_types_are_amounts (k : string) (p : regex) :
  In (k, p) limit_types -> p = amount_after k.
Proof.
  cbn [limit_types In]. intros H.
  repeat (destruct H as [H | H]; [injection H as <- <-; reflexivity | ]).
  destruct H.
Qed.

End SubLimitFacts.

(** X4.  The dictionary [extract_sub_limits] returns has no key twice;
    each of its keys is one of "icu", "surgery", "doctor", "medicine" and
    "diagnostic" and occurs in the lower-cased text, and each of its values
    is a number that is not negative. *)
Theorem sub_limits_are_amounts_of_words_of_the_text :
  forall text : string,
    let sub_limits := FinancialTerms.extract_sub_limits text in
    NoDup (map fst sub_limits)
    /\ forall limit_type amount,
         In (limit_type, amount) sub_limits ->
         In limit_type ["icu"; "surgery"; "doctor"; "medicine"; "diagnostic"]
         /\ Str.contains limit_type (Str.lower text) = true
         /\ (0 <= amount)%Z.
Proof.
  intros text sub_limits. subst sub_limits.
  unfold FinancialTerms.extract_sub_limits.
  set (s := Str.lower text).
  set (P := fun d : dict Z =>
              NoDup (map fst d)
              /\ forall k v, In (k, v) d ->
                             In k (map fst FinancialTerms.limit_types)
                             /\ Str.contains k s = true /\ (0 <= v)%Z).
  assert (Hfold : forall entries d,
             (forall e, In e entries -> In e FinancialTerms.limit_types) ->
             P d ->
             P (fold_left
                  (fun sub_limits entry =>
                     match Re.search (snd entry) s with
                     | Some m =>
                         FinancialTerms.store_values
                           (fst entry) (ReMore.groups (snd entry) m) sub_limits
                     | None => sub_limits
                     end) entries d)).
  { induction entries as [ | [k p] entries IH]; intros d Hsub Hd;
      cbn [fold_left]; [exact Hd | ].
    apply IH; [intros e He; apply Hsub; right; exact He | ].
    cbn [fst snd].
    destruct (Re.search p s) as [m | ] eqn:E; [ | exact Hd].
    pose proof (Hsub (k, p) (or_introl eq_refl)) as Hin.
    pose proof (@limit_types_are_amounts k p Hin) as Ep. subst p.
    apply search_sound in E.
    apply store_values_invariant; [ | | exact Hd].
    - intros d' t [Hnd Hall] _ Hn. split; [apply dict_set_nodup; exact Hnd | ].
      intros k' v' Hin'.
      destruct (@dict_set_keys Z k (Num.int_of_digits t) d' k' v' Hin')
        as [[-> ->] | Hold]; [ | apply Hall; exact Hold].
      split; [apply (in_map fst _ _ Hin) | ].
      split; [apply (@amount_after_shows_word k s m E) | ].
      apply int_of_digits_nonneg. exact Hn.
    - intros v Hv Ht. apply (@amount_after_value k s m v E Hv Ht). }
  apply (Hfold FinancialTerms.limit_types []); [auto | ].
  split; [constructor | intros k v []].
Qed.

(* ================================================================= *)
(** ** The other fields read from the text *)

Section FieldFacts.

Import Re ReMore ReSpec PolicyFields.

Lemma lang_words (r : regex) :
  forall l t, words r = Some l -> Lang r t -> In t l.
Proof.
  induction r as [ | | a | items | items | r1 IH1 r2 IH2 | r1 IH1 r2 IH2
                   | r1 IH1 | j r1 IH1];
    cbn [words Lang]; intros l t Hw L; try discriminate.
  - injection Hw as <-. left. symmetry. exact L.
  - destruct L.
  - injection Hw as <-. left. symmetry. exact L.
  - destruct (words r1) as [l1 | ]; [ | discriminate].
    destruct (words r2) as [l2 | ]; [ | discriminate].
    injection Hw as <-. destruct L as (w1 & w2 & -> & L1 & L2).
    apply in_flat_map. exists w1. split; [apply (IH1 _ _ eq_refl L1) | ].
    apply in_map. apply (IH2 _ _ eq_refl L2).
  - destruct (words r1) as [l1 | ]; [ | discriminate].
    destruct (words r2) as [l2 | ]; [ | discriminate].
    injection Hw as <-. apply in_or_app.
    destruct L as [L | L]; [left; apply (IH1 _ _ eq_refl L)
                           | right; apply (IH2 _ _ eq_refl L)].
  - apply (IH1 _ _ Hw L).
Qed.

Lemma words_within_sound (allowed : list string) (r : regex) (t : string) :
  words_within allowed r = true -> Lang r t -> In t allowed.
Proof.
  unfold words_within. destruct (words r) as [l | ] eqn:E; [ | discriminate].
  intros H L. rewrite forallb_forall in H.
  apply mem_In. apply H. apply (@lang_words r l t E L).
Qed.

Lemma first_waiting_inv (patterns : list regex) (s r : string) :
  first_waiting patterns s = Some r ->
  exists p m, In p patterns /\ is_match p s m /\ r = waiting_of_match p m.
Proof.
  induction patterns as [ | p rest IH]; cbn [first_waiting]; [discriminate | ].
  destruct (search p s) as [m | ] eqn:E.
  - intros H. injection H as <-. exists p, m.
    split; [left; reflexivity | ]. split; [ | reflexivity].
    apply search_sound. exact E.
  - intros H. destruct (IH H) as (q & m & Hq & Hm & Er).
    exists q, m. split; [right; exact Hq | ]. split; assumption.
Qed.

Lemma waiting_groups :
  forallb (fun p =>
             (Nat.eqb (ngroups p) 2 && sets p 1
              && group_bodies digits_only 1 p
              && group_bodies
                   (words_within ["day"; "days"; "month"; "months"; "year";
                                  "years"]) 2 p)%bool)
          waiting_patterns = true.
Proof. vm_compute. reflexivity. Qed.

Lemma number_starts_with_a_digit (n : string) :
  number n -> exists c rest, n = String c rest /\ Str.isdigit c = true.
Proof.
  intros [Hne Hd]. destruct n as [ | c rest]; [contradiction | ].
  cbn [all_chars] in Hd. apply andb_true_iff in Hd.
  exists c, rest. split; [reflexivity | tauto].
Qed.

Lemma premium_groups :
  forallb (fun p =>
             (sets p 1
              && group_bodies (alphabet_within is_amount_char) 1 p)%bool)
          premium_patterns = true.
Proof. vm_compute. reflexivity. Qed.

Lemma remove_comma (t : string) :
  all_chars is_amount_char t = true ->
  all_chars is_digit_or_point (Str.remove_char "," t) = true.
Proof.
  induction t as [ | c t IH]; cbn [all_chars Str.remove_char]; [reflexivity | ].
  intros H. apply andb_true_iff in H. destruct H as [Hc Ht].
  destruct (Ascii.eqb c ",") eqn:E; [apply IH; exact Ht | ].
  cbn [all_chars]. rewrite (IH Ht), andb_true_r.
  unfold is_amount_char in Hc. unfold is_digit_or_point.
  rewrite E, orb_false_r in Hc. exact Hc.
Qed.

Lemma date_groups (patterns : list regex) :
  patterns = issue_patterns \/ patterns = expiry_patterns ->
  forallb (fun p => (sets p 1 && group_bodies date_shaped 1 p)%bool)
          patterns = true.
Proof. intros [-> | ->]; vm_compute; reflexivity. Qed.

Lemma date_shaped_sound (r : regex) (t : string) :
  date_shaped r = true -> Lang r t ->
  all_chars is_date_char t = true /\ (6 <= String.length t <= 10)%nat.
Proof.
  unfold date_shaped. intros H L.
  apply andb_true_iff in H. destruct H as [H Hmax].
  apply andb_true_iff in H. destruct H as [Ha Hmin].
  split; [apply (lang_alphabet _ _ Ha _ L) | ].
  apply Nat.leb_le in Hmin. pose proof (@lang_min_len r t L).
  destruct (max_len r) as [n | ] eqn:E; [ | discriminate].
  apply Nat.leb_le in Hmax. pose proof (@lang_max_len r n t E L). lia.
Qed.

Lemma store_date_entries (key : string) (patterns : list regex)
      (s : string) (dates : dict string) :
  patterns = issue_patterns \/ patterns = expiry_patterns ->
  forall k v,
    In (k, v) (store_date key patterns s dates) ->
    (k = key /\ all_chars is_date_char v = true
     /\ (6 <= String.length v <= 10)%nat)
    \/ In (k, v) dates.
Proof.
  intros Hp k v. unfold store_date.
  destruct (first_match patterns s) as [m | ] eqn:E; [ | right; assumption].
  intros Hin.
  destruct (@dict_set_keys string key (group_or_empty 1 m) dates k v Hin)
    as [[-> ->] | Hold]; [left | right; exact Hold].
  split; [reflexivity | ].
  destruct (first_match_sound _ _ E) as (p & Hin_p & Hm).
  pose proof (@date_groups patterns Hp) as Hg. rewrite forallb_forall in Hg.
  specialize (Hg p Hin_p). apply andb_true_iff in Hg. destruct Hg as [Hs Hb].
  destruct (@group_is_set p s m 1 Hm Hs) as (t & Ht).
  unfold group_or_empty. rewrite Ht.
  destruct Hm as (_ & _ & C & _).
  apply (@captured_bodies date_shaped
           (fun t => all_chars is_date_char t = true
                     /\ (6 <= String.length t <= 10)%nat) 1
           (fun r H t L => @date_shaped_sound r t H L) p t Hb).
  apply C. exact Ht.
Qed.

Lemma store_date_nodup (key : string) (patterns : list regex) (s : string)
      (dates : dict string) :
  NoDup (map fst dates) -> NoDup (map fst (store_date key patterns s dates)).
Proof.
  intros H. unfold store_date.
  destruct (first_match patterns s); [apply dict_set_nodup | ]; exact H.
Qed.

Lemma fold_add_benefit (benefit_type : string) (matches : list string) :
  forall benefits,
  exists added,
    fold_left (add_benefit benefit_type) matches benefits
    = (benefits ++ added)%list
    /\ (List.length added <= List.length matches)%nat
    /\ Forall (fun b => b_type b = benefit_type) added.
Proof.
  induction matches as [ | x matches IH]; intros benefits; cbn [fold_left].
  - exists []. rewrite app_nil_r. repeat split; [cbn; lia | constructor].
  - destruct (IH (add_benefit benefit_type benefits x)) as (added & E & Hl & Hf).
    unfold add_benefit in E |- *.
    destruct (_ && _)%bool.
    + exists ({| b_text := Str.capitalize (Str.strip x);
                 b_type := benefit_type |} :: added).
      rewrite E, <- app_assoc. cbn [app List.length].
      repeat split; [lia | constructor; [reflexivity | exact Hf]].
    + exists added. rewrite E. cbn [List.length].
      repeat split; [lia | exact Hf].
Qed.

Lemma Forall_firstn_of (A : Type) (P : A -> Prop) (n : nat) (l : list A) :
  Forall P l -> Forall P (firstn n l).
Proof.
  intros H. apply Forall_forall. intros x Hx.
  rewrite Forall_forall in H. apply H. apply (@in_firstn A n l x Hx).
Qed.

End FieldFacts.

(** X5.  What [extract_waiting_period] returns is "Not specified",
    "Mentioned (duration not specified)", or a string of decimal digits, a
    space and one of "day", "days", "month", "months", "year", "years" and
    "None"; so it is never "Initial period applies": every pattern has two
    groups, the branch for another number of groups is not taken, and a
    duration whose unit is missing is printed with the unit "None", as for
    "Initial waiting period of 3". *)
Theorem waiting_period_is_a_number_and_a_unit :
  (forall text : string,
      let r := PolicyFields.extract_waiting_period text in
      (r = "Not specified"
       \/ r = "Mentioned (duration not specified)"
       \/ exists n unit_,
            ReSpec.number n
            /\ In unit_ ["day"; "days"; "month"; "months"; "year"; "years";
                         "None"]
            /\ r = n ++ " " ++ unit_)
      /\ r <> "Initial period applies")
  /\ PolicyFields.extract_waiting_period "Initial waiting period of 3"
     = "3 None".
Proof.
  split; [ | vm_compute; reflexivity].
  intros text r.
  assert (Hshape : r = "Not specified"
                   \/ r = "Mentioned (duration not specified)"
                   \/ exists n unit_,
                        ReSpec.number n
                        /\ In unit_ ["day"; "days"; "month"; "months"; "year";
                                     "years"; "None"]
                        /\ r = n ++ " " ++ unit_).
  { subst r. unfold PolicyFields.extract_waiting_period.
    destruct (PolicyFields.first_waiting PolicyFields.waiting_patterns
                                         (Str.lower text)) as [r | ] eqn:E.
    - right. right. apply first_waiting_inv in E.
      destruct E as (p & m & Hp & Hm & ->).
      pose proof waiting_groups as Hg. rewrite forallb_forall in Hg.
      specialize (Hg p Hp).
      apply andb_true_iff in Hg. destruct Hg as [Hg Hu].
      apply andb_true_iff in Hg. destruct Hg as [Hg Hd].
      apply andb_true_iff in Hg. destruct Hg as [Hn Hs].
      destruct (@group_is_set p (Str.lower text) m 1 Hm Hs) as (n & En).
      unfold PolicyFields.waiting_of_match, ReMore.groups.
      rewrite length_map, length_seq, Hn, En. cbn [ReMore.str_of].
      exists n.
      destruct (Re.group 2 m) as [unit_ | ] eqn:Eu; cbn [ReMore.str_of].
      + exists unit_.
        split; [apply (@group_is_number p (Str.lower text) m 1 n Hm Hd En) | ].
        split; [ | reflexivity].
        destruct Hm as (_ & _ & C & _).
        assert (Hin : In unit_ ["day"; "days"; "month"; "months"; "year"; "years"]).
        { apply (@captured_bodies
                   (ReSpec.words_within
                      ["day"; "days"; "month"; "months"; "year"; "years"])
                   (fun t => In t ["day"; "days"; "month"; "months"; "year";
                                   "years"]) 2
                   (fun r0 H t L => @words_within_sound _ r0 t H L) p unit_ Hu).
          apply C. exact Eu. }
        cbn [In] in Hin |- *. tauto.
      + exists "None".
        split; [apply (@group_is_number p (Str.lower text) m 1 n Hm Hd En) | ].
        split; [ | reflexivity]. cbn [In]. tauto.
    - destruct (Str.contains "waiting period" (Str.lower text)); auto. }
  split; [exact Hshape | ].
  destruct Hshape as [-> | [-> | (n & unit_ & Hn & _ & ->)]]; try discriminate.
  apply number_starts_with_a_digit in Hn. destruct Hn as (c & rest & -> & Hc).
  cbn [append]. intros H. injection H as -> _. discriminate Hc.
Qed.

(** X6.  What [extract_premium] returns is "Not specified" or a string of
    decimal digits and points: the commas of the amount are removed and
    nothing else of the text gets into it. *)
Theorem premium_is_digits_and_points :
  forall text : string,
    PolicyFields.extract_premium text = "Not specified"
    \/ ReSpec.all_chars ReSpec.is_digit_or_point
                        (PolicyFields.extract_premium text) = true.
Proof.
  intros text. unfold PolicyFields.extract_premium.
  destruct (first_match PolicyFields.premium_patterns (Str.lower text))
    as [m | ] eqn:E; [right | left; reflexivity].
  destruct (first_match_sound _ _ E) as (p & Hp & Hm).
  pose proof premium_groups as Hg. rewrite forallb_forall in Hg.
  specialize (Hg p Hp). apply andb_true_iff in Hg. destruct Hg as [Hs Hb].
  destruct (@group_is_set p (Str.lower text) m 1 Hm Hs) as (t & Ht).
  unfold Re.group_or_empty. rewrite Ht. apply remove_comma.
  destruct Hm as (_ & _ & C & _).
  apply (@captured_bodies (ReSpec.alphabet_within ReSpec.is_amount_char)
           (fun t => ReSpec.all_chars ReSpec.is_amount_char t = true) 1
           (fun r H t L => @lang_alphabet ReSpec.is_amount_char r H t L)
           p t Hb).
  apply C. exact Ht.
Qed.

(** X7.  The dictionary [extract_key_dates] returns has no key twice, its
    keys are among "issue_date" and "expiry_date", and each of its values
    is a string of six to ten characters, all of them decimal digits,
    hyphens and slashes. *)
Theorem key_dates_are_dates :
  forall text : string,
    let dates := PolicyFields.extract_key_dates text in
    NoDup (map fst dates)
    /\ forall key date,
         In (key, date) dates ->
         (key = "issue_date" \/ key = "expiry_date")
         /\ ReSpec.all_chars ReSpec.is_date_char date = true
         /\ (6 <= String.length date <= 10)%nat.
Proof.
  intros text dates. subst dates. unfold PolicyFields.extract_key_dates.
  split.
  - apply store_date_nodup. apply store_date_nodup. constructor.
  - intros key date Hin.
    apply (@store_date_entries "expiry_date" PolicyFields.expiry_patterns)
      in Hin; [ | right; reflexivity].
    destruct Hin as [(-> & Hd) | Hin]; [split; [right; reflexivity | exact Hd] | ].
    apply (@store_date_entries "issue_date" PolicyFields.issue_patterns)
      in Hin; [ | left; reflexivity].
    destruct Hin as [(-> & Hd) | []]. split; [left; reflexivity | exact Hd].
Qed.

(** X8.  The benefits [extract_benefits] returns come grouped by type, in
    the order "coverage", "inclusion", "benefit", with at most three
    benefits of each type and at most eight in all. *)
Theorem benefits_are_grouped_by_type :
  forall text : string,
    exists coverage inclusion benefit,
      PolicyFields.extract_benefits text
      = (coverage ++ inclusion ++ benefit)%list
      /\ (List.length coverage <= 3)%nat
      /\ (List.length inclusion <= 3)%nat
      /\ (List.length benefit <= 3)%nat
      /\ (List.length (PolicyFields.extract_benefits text) <= 8)%nat
      /\ Forall (fun b => PolicyFields.b_type b = "coverage") coverage
      /\ Forall (fun b => PolicyFields.b_type b = "inclusion") inclusion
      /\ Forall (fun b => PolicyFields.b_type b = "benefit") benefit.
Proof.
  intros text.
  unfold PolicyFields.extract_benefits, PolicyFields.collect_benefits,
    PolicyFields.benefit_keywords.
  cbn [fold_left fst snd].
  match goal with
  | |- context [fold_left (PolicyFields.add_benefit "coverage")
                          (firstn 3 ?l) []] => set (l1 := firstn 3 l)
  end.
  match goal with
  | |- context [fold_left (PolicyFields.add_benefit "inclusion")
                          (firstn 3 ?l) _] => set (l2 := firstn 3 l)
  end.
  match goal with
  | |- context [fold_left (PolicyFields.add_benefit "benefit")
                          (firstn 3 ?l) _] => set (l3 := firstn 3 l)
  end.
  assert (H1 : (List.length l1 <= 3)%nat) by apply firstn_le_length.
  assert (H2 : (List.length l2 <= 3)%nat) by apply firstn_le_length.
  assert (H3 : (List.length l3 <= 3)%nat) by apply firstn_le_length.
  clearbody l1 l2 l3.
  destruct (fold_add_benefit "coverage" l1 []) as (c & -> & Lc & Fc).
  destruct (fold_add_benefit "inclusion" l2 ([] ++ c)) as (i & -> & Li & Fi).
  destruct (fold_add_benefit "benefit" l3 (([] ++ c) ++ i)) as (b & -> & Lb & Fb).
  cbn [app]. rewrite <- app_assoc.
  exists c, i, (firstn (8 - List.length c - List.length i) b).
  rewrite firstn_app, (firstn_all2 (n := 8) c) by lia.
  rewrite firstn_app, (firstn_all2 (n := 8 - List.length c) i) by lia.
  split; [reflexivity | ].
  pose proof (length_firstn (8 - List.length c - List.length i) b) as Hb.
  repeat split; try assumption; try (rewrite ?length_app; lia).
  apply Forall_firstn_of. exact Fb.
Qed.

(* ================================================================= *)
(** ** Rounding keeps the order *)

Section RoundingFacts.

Local Open Scope Q_scope.

Lemma py_round_of_integer (n : Z) : Num.py_round (inject_Z n) = n.
Proof.
  unfold Num.py_round. rewrite Qfloor_Z.
  assert (E : (inject_Z n - inject_Z n) * 2 == 0) by ring.
  rewrite (Qcompare_comp _ _ E 1 1 (Qeq_refl 1)). reflexivity.
Qed.

Lemma py_round_near_floor (x : Q) :
  (Qfloor x <= Num.py_round x <= Qfloor x + 1)%Z.
Proof.
  unfold Num.py_round.
  destruct (Qcompare _ _); [destruct (Z.even _) | | ]; lia.
Qed.

Lemma py_round_monotone (x y : Q) :
  x <= y -> (Num.py_round x <= Num.py_round y)%Z.
Proof.
  intros H. pose proof (Qfloor_resp_le _ _ H) as Hf.
  pose proof (py_round_near_floor x) as Bx.
  pose proof (py_round_near_floor y) as By.
  destruct (Z.eq_dec (Qfloor x) (Qfloor y)) as [E | NE]; [ | lia].
  unfold Num.py_round in *. rewrite <- E in *.
  set (f := Qfloor x) in *.
  assert (Ht : (x - inject_Z f) * 2 <= (y - inject_Z f) * 2) by lra.
  destruct (Qcompare ((x - inject_Z f) * 2) 1) eqn:Cx;
    destruct (Qcompare ((y - inject_Z f) * 2) 1) eqn:Cy;
    try (destruct (Z.even f)); try lia;
    first [apply Qeq_alt in Cx | apply Qlt_alt in Cx | apply Qgt_alt in Cx];
    first [apply Qeq_alt in Cy | apply Qlt_alt in Cy | apply Qgt_alt in Cy];
    exfalso; lra.
Qed.

Lemma round1_monotone (x y : Q) : x <= y -> Num.round1 x <= Num.round1 y.
Proof.
  intros H. unfold Num.round1.
  assert (H10 : x * 10 <= y * 10) by lra.
  apply py_round_monotone in H10. rewrite Zle_Qle in H10.
  unfold Qdiv. apply Qmult_le_compat_r; [exact H10 | ].
  discriminate.
Qed.

Lemma round1_of_integer (n : Z) : Num.round1 (inject_Z n) == inject_Z n.
Proof.
  unfold Num.round1.
  assert (E : inject_Z n * 10 == inject_Z (n * 10))
    by (rewrite inject_Z_mult; reflexivity).
  rewrite (py_round_comp E), py_round_of_integer, inject_Z_mult.
  field.
Qed.

Lemma py_round_within_half (x : Q) :
  inject_Z (Num.py_round x) - x <= 1 # 2
  /\ x - inject_Z (Num.py_round x) <= 1 # 2.
Proof.
  pose proof (Qfloor_le x) as Hlo. pose proof (Qlt_floor x) as Hhi.
  unfold Num.py_round. set (f := Qfloor x) in *.
  rewrite inject_Z_plus in Hhi. change (inject_Z 1) with 1 in Hhi.
  destruct (Qcompare ((x - inject_Z f) * 2) 1) eqn:C;
    first [apply Qeq_alt in C | apply Qlt_alt in C | apply Qgt_alt in C].
  - destruct (Z.even f);
      rewrite ?inject_Z_plus; change (inject_Z 1) with 1; lra.
  - lra.
  - rewrite inject_Z_plus. change (inject_Z 1) with 1. lra.
Qed.

End RoundingFacts.

(* ================================================================= *)
(** ** The simulated amounts as the policy's terms vary *)

Section ImpactFacts.

Import Simulator.
Local Open Scope Q_scope.

(** What is left of the claim after the deductible. *)
Lemma insurance_pays_unfold (pct ded : Z) (claim : Q) :
  insurance_pays (compute_impact pct ded claim)
  = let rest := if (ded >? 0)%Z
                then claim - Num.qmin (inject_Z ded) claim
                else claim in
    if (pct >? 0)%Z then rest - rest * inject_Z pct / 100 else rest.
Proof.
  unfold compute_impact.
  destruct (ded >? 0)%Z; destruct (pct >? 0)%Z; reflexivity.
Qed.

Lemma out_of_pocket_unfold (pct ded : Z) (claim : Q) :
  out_of_pocket (compute_impact pct ded claim)
  = claim - insurance_pays (compute_impact pct ded claim).
Proof.
  unfold compute_impact.
  destruct (ded >? 0)%Z; destruct (pct >? 0)%Z; reflexivity.
Qed.

Lemma co_pay_amount_unfold (pct ded : Z) (claim : Q) :
  co_pay_amount (compute_impact pct ded claim)
  = let rest := if (ded >? 0)%Z
                then claim - Num.qmin (inject_Z ded) claim
                else claim in
    if (pct >? 0)%Z then rest * inject_Z pct / 100 else 0.
Proof.
  unfold compute_impact.
  destruct (ded >? 0)%Z; destruct (pct >? 0)%Z; reflexivity.
Qed.

Lemma deductible_amount_unfold (pct ded : Z) (claim : Q) :
  deductible_amount (compute_impact pct ded claim)
  = if (ded >? 0)%Z then Num.qmin (inject_Z ded) claim else 0.
Proof.
  unfold compute_impact.
  destruct (ded >? 0)%Z; destruct (pct >? 0)%Z; reflexivity.
Qed.





End ImpactFacts.

(** X9.  When the stored deductible is at least the claim amount (and the
    chart renderer returns), the simulation reports that the insurer pays
    0, that no co-pay is applied, that the deductible applied and the
    out-of-pocket amount are the whole claim, and a coverage of 0.0 per
    cent, whatever the co-pay percentage. *)
Theorem deductible_covering_the_claim_pays_nothing :
  forall (render : Q -> Q -> Q -> result string) (p : Simulator.policy)
         (claim : Q) (chart : string),
    (0 < claim)%Q ->
    (claim <= inject_Z (Simulator.deductible (Simulator.financial p)))%Q ->
    render claim (Simulator.insurance_pays (Model.impact_of p claim))
           (Simulator.out_of_pocket (Model.impact_of p claim)) = Ok chart ->
    exists sim,
      Simulator.simulate_claim render (Some p) claim
      = Simulator.Success sim (Some chart)
      /\ Simulator.sim_insurance_pays sim = 0%Z
      /\ Simulator.sim_copay_applied sim = 0%Z
      /\ Simulator.sim_out_of_pocket sim = Num.py_round claim
      /\ (Simulator.sim_deductible_applied sim == claim)%Q
      /\ (Simulator.sim_coverage_percentage sim == 0)%Q.
Proof.
  intros render p claim chart Hc Hd Hr.
  assert (Hnz : ~ (claim == 0)%Q) by lra.
  rewrite (simulate_claim_success render p Hnz Hr).
  eexists. split; [reflexivity | ].
  cbn [Simulator.sim_insurance_pays Simulator.sim_copay_applied
       Simulator.sim_out_of_pocket Simulator.sim_deductible_applied
       Simulator.sim_coverage_percentage].
  unfold Model.impact_of.
  set (pct := Simulator.co_pay_percentage (Simulator.financial p)).
  set (ded := Simulator.deductible (Simulator.financial p)) in *.
  assert (Hpos : (ded >? 0)%Z = true).
  { apply Z.gtb_lt. rewrite Zlt_Qlt. change (inject_Z 0) with 0%Q. lra. }
  assert (Hmin : (Num.qmin (inject_Z ded) claim == claim)%Q).
  { destruct (qmin_cases (inject_Z ded) claim) as [[H ->] | [H ->]]; lra. }
  assert (Hins : (Simulator.insurance_pays
                    (Simulator.compute_impact pct ded claim) == 0)%Q).
  { rewrite insurance_pays_unfold, Hpos. cbv zeta.
    destruct (pct >? 0)%Z; rewrite Hmin; unfold Qdiv; ring. }
  assert (Hcop : (Simulator.co_pay_amount
                    (Simulator.compute_impact pct ded claim) == 0)%Q).
  { rewrite co_pay_amount_unfold, Hpos. cbv zeta.
    destruct (pct >? 0)%Z; [ | reflexivity]. rewrite Hmin. unfold Qdiv. ring. }
  split; [rewrite (py_round_comp Hins); reflexivity | ].
  split; [rewrite (py_round_comp Hcop); reflexivity | ].
  split.
  { apply py_round_comp. rewrite out_of_pocket_unfold, Hins. ring. }
  split.
  { rewrite deductible_amount_unfold, Hpos. exact Hmin. }
  assert (E : (Simulator.insurance_pays
                 (Simulator.compute_impact pct ded claim) / claim * 100
               == inject_Z 0)%Q).
  { rewrite Hins. change (inject_Z 0) with 0%Q. field. exact Hnz. }
  rewrite (round1_comp E). apply round1_of_integer.
Qed.

Lemma deductible_covering_the_claim_pays_nothing_witness :
  (0 < 30000)%Q
  /\ exists sim,
       Simulator.simulate_claim Model.renders
                                (Some (Model.policy_with 10 50000)) 30000
       = Simulator.Success sim (Some "chart")
       /\ Simulator.sim_insurance_pays sim = 0%Z
       /\ Simulator.sim_copay_applied sim = 0%Z
       /\ Simulator.sim_out_of_pocket sim = Num.py_round 30000
       /\ (Simulator.sim_deductible_applied sim == 30000)%Q
       /\ (Simulator.sim_coverage_percentage sim == 0)%Q.
Proof.
  assert (H1 : (0 < 30000)%Q) by (vm_compute; reflexivity).
  assert (H2 : (30000 <= inject_Z (Simulator.deductible
                                     (Simulator.financial
                                        (Model.policy_with 10 50000))))%Q)
    by (vm_compute; discriminate).
  split; [exact H1 | ].
  exact (deductible_covering_the_claim_pays_nothing
           Model.renders (Model.policy_with 10 50000) (chart := "chart")
           H1 H2 eq_refl).
Defined.





(** X26.  For a claim of a whole number of rupees, the insurer's payment
    and the out-of-pocket amount the simulation reports, each rounded on its
    own, add up to the claim amount give or take one; they miss it by one
    for a claim of 101 with a co-pay of 50 per cent, where both halves of
    50.5 are rounded to 50. *)
Theorem reported_amounts_add_up_within_one :
  (forall (pct ded claim : Z),
      let i := Simulator.compute_impact pct ded (inject_Z claim) in
      (claim - 1
       <= Num.py_round (Simulator.insurance_pays i)
          + Num.py_round (Simulator.out_of_pocket i)
       <= claim + 1)%Z)
  /\ (Num.py_round (Simulator.insurance_pays
                      (Simulator.compute_impact 50 0 101))
      + Num.py_round (Simulator.out_of_pocket
                        (Simulator.compute_impact 50 0 101)) = 100)%Z.
Proof.
  split; [ | vm_compute; reflexivity].
  intros pct ded claim i.
  pose proof (out_of_pocket_unfold pct ded (inject_Z claim)) as E. fold i in E.
  rewrite E.
  set (x := Simulator.insurance_pays i).
  destruct (py_round_within_half x) as [A1 A2].
  destruct (py_round_within_half (inject_Z claim - x)) as [B1 B2].
  set (a := Num.py_round x) in *.
  set (b := Num.py_round (inject_Z claim - x)) in *.
  assert (Hlo : (inject_Z (claim - 1) <= inject_Z (a + b) + (0 # 1))%Q).
  { replace (claim - 1)%Z with (claim + -1)%Z by lia.
    rewrite !inject_Z_plus. change (inject_Z (-1)) with (- (1))%Q. lra. }
  assert (Hhi : (inject_Z (a + b) <= inject_Z (claim + 1))%Q).
  { rewrite !inject_Z_plus. change (inject_Z 1) with 1%Q. lra. }
  rewrite Qplus_0_r in Hlo. rewrite <- Zle_Qle in Hlo, Hhi. lia.
Qed.

(* ================================================================= *)
(** ** The range of the risk scores *)

Section ScoreFacts.

Import Re ReSpec.
Local Open Scope Z_scope.

Lemma zsum_nonneg (l : list Z) : Forall (fun x => 0 <= x) l -> 0 <= Num.zsum l.
Proof.
  induction 1 as [ | x l Hx _ IH]; cbn [Num.zsum]; lia.
Qed.

Lemma count_words_nonneg (text_lower : string) (words : list string) :
  0 <= RiskPredictor.count_words text_lower words.
Proof.
  unfold RiskPredictor.count_words. apply zsum_nonneg.
  apply Forall_forall. intros x Hx. apply in_map_iff in Hx.
  destruct Hx as (w & <- & _). lia.
Qed.

Lemma mean_or_zero_nonneg (l : list Z) :
  Forall (fun x => 0 <= x) l -> (0 <= Num.mean_or_zero l)%Q.
Proof.
  intros H. unfold Num.mean_or_zero. destruct l as [ | x l]; [apply Qle_refl | ].
  apply Qle_shift_div_l.
  - change 0%Q with (inject_Z 0). rewrite <- Zlt_Qlt. cbn [List.length]. lia.
  - rewrite Qmult_0_l. apply inject_Z_nonneg. apply zsum_nonneg. exact H.
Qed.

Lemma percentages_nonneg (s : string) :
  Forall (fun x => 0 <= x)
         (map Num.int_of_digits
              (map (group_or_empty 1)
                   (finditer RiskPredictor.percent_re s))).
Proof.
  apply Forall_forall. intros x Hx. apply in_map_iff in Hx.
  destruct Hx as (t & <- & Ht). apply in_map_iff in Ht.
  destruct Ht as (m & <- & Hm). apply finditer_sound in Hm.
  assert (Hs : sets RiskPredictor.percent_re 1 = true)
    by (vm_compute; reflexivity).
  assert (Hb : group_bodies digits_only 1 RiskPredictor.percent_re = true)
    by (vm_compute; reflexivity).
  destruct (@group_is_set _ s m 1 Hm Hs) as (t & Ht).
  unfold group_or_empty. rewrite Ht. apply int_of_digits_nonneg.
  apply (@group_is_number _ s m 1 t Hm Hb Ht).
Qed.

Lemma truncate_monotone (x y : Q) :
  (x <= y)%Q -> Model.truncate x <= Model.truncate y.
Proof.
  intros H. rewrite <- !py_int_truncates. unfold Num.py_int.
  pose proof (Qfloor_resp_le _ _ H) as Hf.
  pose proof (Qceiling_resp_le _ _ H) as Hc.
  pose proof (Qle_ceiling x) as Cx. pose proof (Qfloor_le y) as Fy.
  destruct (Qle_bool 0 x) eqn:Ex; destruct (Qle_bool 0 y) eqn:Ey.
  - exact Hf.
  - apply Qle_bool_iff in Ex.
    assert (Hy : ~ (0 <= y)%Q) by (rewrite <- Qle_bool_iff, Ey; discriminate).
    exfalso. apply Hy. apply (Qle_trans _ x); assumption.
  - assert (Hx : ~ (0 <= x)%Q) by (rewrite <- Qle_bool_iff, Ex; discriminate).
    apply Qle_bool_iff in Ey.
    assert (0 <= Qfloor y) by (apply (Qfloor_resp_le 0 y) in Ey; exact Ey).
    assert (Qceiling x <= 0).
    { assert (Hx0 : (x <= 0)%Q) by (apply Qlt_le_weak, Qnot_le_lt; exact Hx).
      apply (Qceiling_resp_le x 0) in Hx0. exact Hx0. }
    lia.
  - exact Hc.
Qed.

Lemma truncate_of_integer (n : Z) : Model.truncate (inject_Z n) = n.
Proof. unfold Model.truncate. cbn. apply Z.quot_1_r. Qed.

Lemma clamp_monotone (x y : Z) : x <= y -> Model.clamp x <= Model.clamp y.
Proof. unfold Model.clamp. lia. Qed.

Lemma clamp_above (lo x : Z) :
  0 <= lo <= 100 -> lo <= x -> lo <= Model.clamp x <= 100.
Proof. unfold Model.clamp. lia. Qed.

Variable text : string.

Lemma features_nonneg :
  let f := RiskPredictor.extract_features text in
  0 <= RiskPredictor.waiting_period f /\ 0 <= RiskPredictor.exclusion f
  /\ 0 <= RiskPredictor.pre_existing f /\ 0 <= RiskPredictor.disease f
  /\ 0 <= RiskPredictor.has_years f /\ 0 <= RiskPredictor.co_pay f
  /\ 0 <= RiskPredictor.sub_limit f /\ 0 <= RiskPredictor.room_rent f
  /\ 0 <= RiskPredictor.percentage f /\ 0 <= RiskPredictor.money f
  /\ 0 <= RiskPredictor.deductible f
  /\ (0 <= RiskPredictor.avg_percentage f)%Q
  /\ 0 <= RiskPredictor.claim_days f /\ 0 <= RiskPredictor.time f
  /\ 0 <= RiskPredictor.has_days f /\ 0 <= RiskPredictor.has_months f.
Proof.
  cbv zeta. unfold RiskPredictor.extract_features.
  cbn [RiskPredictor.waiting_period RiskPredictor.exclusion
       RiskPredictor.pre_existing RiskPredictor.disease
       RiskPredictor.has_years RiskPredictor.co_pay RiskPredictor.sub_limit
       RiskPredictor.room_rent RiskPredictor.percentage RiskPredictor.money
       RiskPredictor.deductible RiskPredictor.avg_percentage
       RiskPredictor.claim_days RiskPredictor.time RiskPredictor.has_days
       RiskPredictor.has_months].
  repeat split; try apply count_words_nonneg; try apply Nat2Z.is_nonneg.
  apply mean_or_zero_nonneg. apply percentages_nonneg.
Qed.

End ScoreFacts.

(** X12.  The three scores of [predict_risk] are never at their floor:
    coverage_risk lies between 10 and 100, cost_risk between 15 and 100
    and delay_risk between 10 and 100, for every text, policy type, age
    and disease flag. *)
Theorem predicted_scores_stay_above_their_base :
  forall (text policy_type : string) (age : Z) (has_disease : bool),
  exists coverage cost delay,
    RiskPredictor.predict_risk text policy_type age has_disease
    = [("coverage_risk", coverage); ("cost_risk", cost); ("delay_risk", delay)]
    /\ (10 <= coverage <= 100)%Z
    /\ (15 <= cost <= 100)%Z
    /\ (10 <= delay <= 100)%Z.
Proof.
  intros text policy_type age has_disease.
  rewrite predict_risk_closed_form. cbv zeta.
  do 3 eexists. split; [reflexivity | ].
  pose proof (features_nonneg text) as F. cbv zeta in F.
  set (f := RiskPredictor.extract_features text) in *.
  destruct F as (F1 & F2 & F3 & F4 & F5 & F6 & F7 & F8 & F9 & F10 & F11 & F12
                 & F13 & F14 & F15 & F16).
  split; [ | split].
  - apply clamp_above; [lia | ].
    unfold Model.coverage_model, Model.category_adjustment,
      Model.age_adjustment, Model.if_declared.
    destruct (String.eqb policy_type "Health Insurance");
      destruct (String.eqb policy_type "Car Insurance");
      destruct (String.eqb policy_type "Life Insurance");
      destruct (60 <? age)%Z; destruct (45 <? age)%Z; destruct has_disease; lia.
  - apply clamp_above; [lia | ].
    rewrite <- (truncate_of_integer 15). apply truncate_monotone.
    unfold Model.cost_model, Model.if_declared.
    apply inject_Z_nonneg in F6, F7, F8, F9, F10, F11.
    assert (D : (0 <= inject_Z (if has_disease then 10 else 0))%Q)
      by (destruct has_disease; discriminate).
    change (inject_Z 15) with 15%Q.
    generalize dependent (inject_Z (RiskPredictor.co_pay f)).
    generalize dependent (inject_Z (RiskPredictor.sub_limit f)).
    generalize dependent (inject_Z (RiskPredictor.room_rent f)).
    generalize dependent (inject_Z (RiskPredictor.percentage f)).
    generalize dependent (inject_Z (RiskPredictor.money f)).
    generalize dependent (inject_Z (RiskPredictor.deductible f)).
    generalize dependent (inject_Z (if has_disease then 10 else 0)).
    generalize dependent (RiskPredictor.avg_percentage f).
    intros. lra.
  - apply clamp_above; [lia | ].
    unfold Model.delay_model, Model.age_adjustment.
    destruct (60 <? age)%Z; destruct (45 <? age)%Z; lia.
Qed.

(** X13.  A higher age and a declared disease never lower a score: each
    of the three scores of [predict_risk] for an age and a disease flag is
    at most the score for a higher age and a disease flag that is set if
    the first is. *)
Theorem age_and_disease_never_lower_a_score :
  forall (text policy_type : string) (age age' : Z) (has_disease has_disease' : bool)
         (key : string),
    (age <= age')%Z -> (has_disease = true -> has_disease' = true) ->
    (dict_get key 50%Z
              (RiskPredictor.predict_risk text policy_type age has_disease)
     <= dict_get key 50%Z
                 (RiskPredictor.predict_risk text policy_type age' has_disease'))%Z.
Proof.
  intros text policy_type age age' d d' key Ha Hd.
  rewrite !predict_risk_closed_form. cbv zeta.
  set (f := RiskPredictor.extract_features text).
  assert (Hage : forall hi lo, (0 <= lo <= hi)%Z ->
                   (Model.age_adjustment hi lo age
                    <= Model.age_adjustment hi lo age')%Z).
  { intros hi lo H. unfold Model.age_adjustment.
    destruct (60 <? age)%Z eqn:E1; destruct (60 <? age')%Z eqn:E2;
      destruct (45 <? age)%Z eqn:E3; destruct (45 <? age')%Z eqn:E4; lia. }
  assert (Hdis : forall bonus, (0 <= bonus)%Z ->
                   (Model.if_declared d bonus <= Model.if_declared d' bonus)%Z).
  { intros bonus H. unfold Model.if_declared.
    destruct d; [rewrite (Hd eq_refl); lia | destruct d'; lia]. }
  assert (Hc : (Model.clamp (Model.coverage_model f policy_type age d)
                <= Model.clamp (Model.coverage_model f policy_type age' d'))%Z).
  { apply clamp_monotone. unfold Model.coverage_model.
    pose proof (Hage 15%Z 8%Z ltac:(lia)). pose proof (Hdis 20%Z ltac:(lia)).
    lia. }
  assert (Ho : (Model.clamp (Model.truncate (Model.cost_model f d))
                <= Model.clamp (Model.truncate (Model.cost_model f d')))%Z).
  { apply clamp_monotone, truncate_monotone. unfold Model.cost_model.
    pose proof (Hdis 10%Z ltac:(lia)) as H. rewrite Zle_Qle in H.
    generalize dependent (inject_Z (Model.if_declared d 10)).
    generalize dependent (inject_Z (Model.if_declared d' 10)).
    intros. lra. }
  assert (Hl : (Model.clamp (Model.delay_model f age)
                <= Model.clamp (Model.delay_model f age'))%Z).
  { apply clamp_monotone. unfold Model.delay_model.
    pose proof (Hage 10%Z 5%Z ltac:(lia)). lia. }
  unfold dict_get. cbn [dict_find].
  destruct (String.eqb key "coverage_risk"); [exact Hc | ].
  destruct (String.eqb key "cost_risk"); [exact Ho | ].
  destruct (String.eqb key "delay_risk"); [exact Hl | lia].
Qed.

Lemma age_and_disease_never_lower_a_score_witness :
  (dict_get "coverage_risk" 50%Z
            (RiskPredictor.predict_risk "waiting period of 2 years"
                                        "Health Insurance" 30 false)
   <= dict_get "coverage_risk" 50%Z
               (RiskPredictor.predict_risk "waiting period of 2 years"
                                           "Health Insurance" 61 true))%Z.
Proof.
  exact (@age_and_disease_never_lower_a_score
           "waiting period of 2 years" "Health Insurance" 30%Z 61%Z false true
           "coverage_risk" ltac:(lia) ltac:(discriminate)).
Defined.

(** X14.  The overall risk [calculate_risk_score] stores lies between the
    least and the greatest of the three sub-scores of the same record. *)
Theorem overall_risk_lies_between_the_sub_scores :
  forall (D RF COV : Type) (age : Z) (disease : D) (risk_factors : RF)
         (coverage : COV) (ml_risks : dict Z),
    let r := PolicyAnalyzer.calculate_risk_score age disease risk_factors
                                                 coverage ml_risks in
    let lo := Z.min (PolicyAnalyzer.coverage_risk r)
                    (Z.min (PolicyAnalyzer.cost_risk r)
                           (PolicyAnalyzer.delay_risk r)) in
    let hi := Z.max (PolicyAnalyzer.coverage_risk r)
                    (Z.max (PolicyAnalyzer.cost_risk r)
                           (PolicyAnalyzer.delay_risk r)) in
    (inject_Z lo <= PolicyAnalyzer.overall_risk r)%Q
    /\ (PolicyAnalyzer.overall_risk r <= inject_Z hi)%Q.
Proof.
  intros D RF COV age disease risk_factors coverage ml_risks. cbv zeta.
  rewrite (calculate_risk_score_overall age disease risk_factors
                                        coverage ml_risks).
  set (r := PolicyAnalyzer.calculate_risk_score age disease risk_factors
                                                coverage ml_risks).
  set (c := PolicyAnalyzer.coverage_risk r).
  set (o := PolicyAnalyzer.cost_risk r).
  set (d := PolicyAnalyzer.delay_risk r).
  unfold Model.weighted_overall.
  set (w := ((2 # 5) * inject_Z c + (7 # 20) * inject_Z o
             + (1 # 4) * inject_Z d)%Q).
  assert (L1 : (inject_Z (Z.min c (Z.min o d)) <= inject_Z c)%Q)
    by (rewrite <- Zle_Qle; lia).
  assert (L2 : (inject_Z (Z.min c (Z.min o d)) <= inject_Z o)%Q)
    by (rewrite <- Zle_Qle; lia).
  assert (L3 : (inject_Z (Z.min c (Z.min o d)) <= inject_Z d)%Q)
    by (rewrite <- Zle_Qle; lia).
  assert (U1 : (inject_Z c <= inject_Z (Z.max c (Z.max o d)))%Q)
    by (rewrite <- Zle_Qle; lia).
  assert (U2 : (inject_Z o <= inject_Z (Z.max c (Z.max o d)))%Q)
    by (rewrite <- Zle_Qle; lia).
  assert (U3 : (inject_Z d <= inject_Z (Z.max c (Z.max o d)))%Q)
    by (rewrite <- Zle_Qle; lia).
  split.
  - rewrite <- (round1_of_integer (Z.min c (Z.min o d))).
    apply round1_monotone. subst w. lra.
  - rewrite <- (round1_of_integer (Z.max c (Z.max o d))).
    apply round1_monotone. subst w. lra.
Qed.

(* ================================================================= *)
(** ** Clauses, exclusions and quality metrics *)

Section ClauseFacts.

Lemma ends_with_a_period (a : string) :
  a ++ "." <> PolicyAnalyzer.NOT_MENTIONED.
Proof.
  unfold PolicyAnalyzer.NOT_MENTIONED. intros H. revert H.
  repeat (destruct a as [ | ? a]; cbn [append]; intros H;
          [discriminate H | injection H as _ H; revert H]).
  destruct a; cbn [append]; intros H; discriminate H.
Qed.

Lemma clause_of_present (text : string) (pattern : Re.regex) :
  PolicyAnalyzer.clause_of text pattern = PolicyAnalyzer.NOT_MENTIONED ->
  Model.no_sentence_matches text pattern.
Proof.
  unfold PolicyAnalyzer.clause_of, PolicyAnalyzer.matching_sentences,
    Model.no_sentence_matches.
  destruct (filter _ (Str.split "." text)) as [ | first rest] eqn:E.
  - intros _ s Hs.
    destruct (Re.search pattern (Str.lower s)) as [m | ] eqn:Es;
      [ | reflexivity].
    assert (Hin : In s []).
    { rewrite <- E. apply filter_In. split; [exact Hs | ].
      rewrite Es. reflexivity. }
    destruct Hin.
  - intros H. exfalso. apply (@ends_with_a_period (Str.strip first) H).
Qed.

Lemma length_lower (s : string) : String.length (Str.lower s) = String.length s.
Proof. induction s as [ | c s IH]; cbn; [reflexivity | rewrite IH; reflexivity]. Qed.

Lemma length_capitalize (s : string) :
  (String.length s <= String.length (Str.capitalize s))%nat.
Proof.
  destruct s as [ | c s]; cbn [Str.capitalize]; [lia | ].
  destruct (N.eqb (Str.code c) 223); cbn [String.length];
    rewrite length_lower; lia.
Qed.

Lemma add_exclusion_long (exclusions : list string) (match_ : string) :
  Forall (fun e => (15 < String.length e)%nat) exclusions ->
  Forall (fun e => (15 < String.length e)%nat)
         (PolicyAnalyzer.add_exclusion exclusions match_).
Proof.
  intros H. unfold PolicyAnalyzer.add_exclusion.
  set (clean := Re.sub (Re.plus Re.space) " " (Str.strip match_)).
  destruct (Nat.ltb 15 (String.length clean)) eqn:E; cbn [andb]; [ | exact H].
  destruct (negb (Str.mem clean exclusions)); [ | exact H].
  apply Forall_app. split; [exact H | ].
  constructor; [ | constructor].
  apply Nat.ltb_lt in E. pose proof (length_capitalize clean). lia.
Qed.

Lemma collect_exclusions_long (text_lower : string) :
  Forall (fun e => (15 < String.length e)%nat)
         (PolicyAnalyzer.collect_exclusions text_lower).
Proof.
  unfold PolicyAnalyzer.collect_exclusions.
  assert (Hin : forall ms acc,
             Forall (fun e => (15 < String.length e)%nat) acc ->
             Forall (fun e => (15 < String.length e)%nat)
                    (fold_left PolicyAnalyzer.add_exclusion ms acc)).
  { induction ms as [ | x ms IH]; intros acc H; cbn [fold_left]; [exact H | ].
    apply IH. apply add_exclusion_long. exact H. }
  generalize PolicyAnalyzer.exclusion_patterns.
  assert (G : forall ps acc,
             Forall (fun e => (15 < String.length e)%nat) acc ->
             Forall (fun e => (15 < String.length e)%nat)
                    (fold_left
                       (fun exclusions pattern =>
                          fold_left PolicyAnalyzer.add_exclusion
                                    (Re.findall pattern text_lower) exclusions)
                       ps acc)).
  { induction ps as [ | p ps IH]; intros acc H; cbn [fold_left]; [exact H | ].
    apply IH. apply Hin. exact H. }
  intros ps. apply G. constructor.
Qed.

Lemma count_zero_absent (sub s : string) :
  Str.count s sub = O <-> Str.contains sub s = false.
Proof.
  unfold Str.count. induction s as [ | c s IH].
  - cbn [Str.count_from Str.contains]. destruct sub as [ | a sub]; cbn.
    + split; discriminate.
    + split; reflexivity.
  - cbn [Str.count_from Str.contains].
    destruct (Str.startswith sub (String c s)); cbn [orb].
    + split; discriminate.
    + exact IH.
Qed.

Lemma count_words_zero (text_lower : string) (words : list string) :
  RiskPredictor.count_words text_lower words = 0%Z <->
  forall w, In w words -> Str.contains w text_lower = false.
Proof.
  unfold RiskPredictor.count_words.
  induction words as [ | w words IH]; cbn [map Num.zsum].
  - split; [intros _ w [] | reflexivity].
  - pose proof (count_words_nonneg text_lower words) as Hn.
    unfold RiskPredictor.count_words in Hn.
    split.
    + intros H w' [<- | Hin].
      * apply count_zero_absent. lia.
      * apply IH; [lia | exact Hin].
    + intros H.
      assert (E1 : Str.count text_lower w = O)
        by (apply count_zero_absent, H; left; reflexivity).
      assert (E2 : Num.zsum (map (fun word => Z.of_nat (Str.count text_lower word))
                                 words) = 0%Z)
        by (apply IH; intros w' Hw'; apply H; right; exact Hw').
      rewrite E1, E2. reflexivity.
Qed.

Lemma capped_score_graded (text_lower : string) (words : list string) :
  Expect.graded words text_lower
    (Num.py_min 100 (RiskPredictor.count_words text_lower words * 10)).
Proof.
  pose proof (count_words_nonneg text_lower words) as Hn.
  pose proof (count_words_zero text_lower words) as Hz.
  set (n := RiskPredictor.count_words text_lower words) in *.
  unfold Expect.graded, Num.py_min.
  destruct (n * 10 <? 100)%Z eqn:E.
  - apply Z.ltb_lt in E. split.
    + exists n. lia.
    + rewrite <- Hz. lia.
  - apply Z.ltb_ge in E. split.
    + exists 10%Z. lia.
    + rewrite <- Hz. lia.
Qed.

End ClauseFacts.

(** X15.  Under a key of [extract_key_clauses] the value is "Not mentioned
    in document" exactly when no sentence of the text matches the key's
    pattern: a clause that was found ends with a period and is never taken
    for the missing one. *)
Theorem clause_is_not_mentioned_exactly_when_absent :
  forall (text term : string) (pattern : Re.regex),
    In (term, pattern) PolicyAnalyzer.terms ->
    (dict_find term (PolicyAnalyzer.extract_key_clauses text)
     = Some "Not mentioned in document"
     <-> Model.no_sentence_matches text pattern).
Proof.
  intros text term pattern Hin.
  rewrite extract_key_clauses_entries.
  rewrite (@dict_find_map _ _ (PolicyAnalyzer.clause_of text)
                          PolicyAnalyzer.terms term pattern terms_distinct Hin).
  split.
  - intros H. injection H as H. apply clause_of_present. exact H.
  - intros H. rewrite (clause_of_absent H). reflexivity.
Qed.

Lemma clause_is_not_mentioned_exactly_when_absent_witness :
  dict_find "co-pay" (PolicyAnalyzer.extract_key_clauses
                        "The waiting period is 30 days. Claims are paid.")
  = Some "Not mentioned in document"
  <-> Model.no_sentence_matches
        "The waiting period is 30 days. Claims are paid."
        (Re.alts [Re.cats [Re.lit "co"; Re.opt PolicyAnalyzer.hyphen_or_space;
                           Re.lit "pay"];
                  Re.lit "copayment"; Re.lit "co-payment"; Re.lit "coinsurance"]).
Proof.
  apply (@clause_is_not_mentioned_exactly_when_absent
           "The waiting period is 30 days. Claims are paid." "co-pay").
  cbn [PolicyAnalyzer.terms In]. right. right. left. reflexivity.
Defined.

(** X16.  Every exclusion [extract_exclusions] returns is longer than 15
    characters. *)
Theorem exclusions_are_longer_than_15_characters :
  forall text : string,
    Forall (fun e => (15 < String.length e)%nat)
           (PolicyAnalyzer.extract_exclusions text).
Proof.
  intros text. unfold PolicyAnalyzer.extract_exclusions.
  apply Forall_forall. intros e He.
  apply in_firstn in He.
  apply (proj1 (proj1 (fromkeys_first_seen
                         (PolicyAnalyzer.collect_exclusions (Str.lower text)))
                      e)) in He.
  pose proof (collect_exclusions_long (Str.lower text)) as H.
  rewrite Forall_forall in H. apply H. exact He.
Qed.

(** X17.  Each of the three metrics of [analyze_policy_quality] is a
    multiple of ten from 0 to 100, and it is 0 exactly when none of its
    indicator words occurs in the lower-cased text. *)
Theorem quality_metrics_are_graded :
  forall text : string,
    let metrics := PolicyFields.analyze_policy_quality text in
    Expect.graded PolicyFields.clarity_indicators (Str.lower text)
                  (PolicyFields.clarity metrics)
    /\ Expect.graded PolicyFields.comprehensive_indicators (Str.lower text)
                     (PolicyFields.comprehensiveness metrics)
    /\ Expect.graded PolicyFields.transparency_indicators (Str.lower text)
                     (PolicyFields.transparency metrics).
Proof.
  intros text. cbv zeta. unfold PolicyFields.analyze_policy_quality.
  cbn [PolicyFields.clarity PolicyFields.comprehensiveness
       PolicyFields.transparency].
  repeat split; apply capped_score_graded.
Qed.

(* ================================================================= *)
(** ** The risk factors *)

Section RiskFactorFacts.

Import PolicyFields.
Local Open Scope Z_scope.

Ltac one_factor :=
  split; [cbn [List.length]; lia
         | repeat constructor; cbn [factor score In]; auto; lia].

Lemma age_factor_kind (age : Z) :
  Expect.one_factor_of ["Age"] (age_factor age)
  /\ (In "Age" (map factor (age_factor age)) <-> 40 < age).
Proof.
  unfold age_factor.
  destruct (age >? 60) eqn:E1; [ | destruct (age >? 50) eqn:E2;
                                   [ | destruct (age >? 40) eqn:E3]];
    (split; [one_factor | cbn [map factor In]]).
  - split; [lia | auto].
  - split; [lia | auto].
  - split; [lia | auto].
  - split; [intros [] | lia].
Qed.

Lemma disease_factor_kind (disease : string) :
  Expect.one_factor_of ["Pre-existing condition"] (disease_factor disease)
  /\ (In "Pre-existing condition" (map factor (disease_factor disease))
      <-> disease <> "" /\ Str.lower disease <> "none").
Proof.
  unfold disease_factor.
  destruct (String.eqb disease "") eqn:E1; cbn [negb andb].
  - apply String.eqb_eq in E1. split; [one_factor | ].
    cbn [map In]. split; [intros [] | intros [H _]; contradiction].
  - apply String.eqb_neq in E1.
    destruct (String.eqb (Str.lower disease) "none") eqn:E2; cbn [negb].
    + apply String.eqb_eq in E2. split; [one_factor | ].
      cbn [map In]. split; [intros [] | intros [_ H]; contradiction].
    + apply String.eqb_neq in E2.
      destruct (existsb _ serious_conditions);
        (split; [one_factor | cbn [map factor In]; split; auto]).
Qed.

Lemma exclusion_factor_kind (text_lower : string) :
  Expect.one_factor_of ["High exclusion count"; "Moderate exclusions"]
                       (exclusion_factor text_lower).
Proof.
  unfold exclusion_factor.
  destruct (_ >? 8); [one_factor | destruct (_ >? 4); one_factor].
Qed.

Lemma waiting_factor_kind (text : string) :
  Expect.one_factor_of ["Long waiting period"; "Waiting period applies"]
                       (waiting_factor text).
Proof.
  unfold waiting_factor.
  destruct (Str.contains "year" _).
  - destruct (Re.search _ _); [destruct (_ >? 2) | ]; one_factor.
  - destruct (Str.contains "month" _); one_factor.
Qed.

Lemma copay_factor_kind (text : string) :
  Expect.one_factor_of ["Very high co-pay"; "High co-pay"; "Moderate co-pay"]
                       (copay_factor text).
Proof.
  unfold copay_factor.
  destruct (_ >? 30); [one_factor | ].
  destruct (_ >? 20); [one_factor | ].
  destruct (_ >? 10); one_factor.
Qed.

Lemma deductible_factor_kind (text : string) :
  Expect.one_factor_of ["High deductible"; "Moderate deductible"]
                       (deductible_factor text).
Proof.
  unfold deductible_factor.
  destruct (_ >? 50000); [one_factor | ].
  destruct (_ >? 10000); one_factor.
Qed.

Lemma factor_is_named (names : list string) (l : list risk_factor)
      (x : string) :
  Expect.one_factor_of names l -> In x (map factor l) -> In x names.
Proof.
  intros [_ H] Hin. apply in_map_iff in Hin. destruct Hin as (f & <- & Hf).
  rewrite Forall_forall in H. apply (H f Hf).
Qed.

Lemma factor_scores (names : list string) (l : list risk_factor) :
  Expect.one_factor_of names l -> Forall (fun f => 40 <= score f <= 90) l.
Proof.
  intros [_ H]. apply Forall_forall. intros f Hf.
  rewrite Forall_forall in H. apply (H f Hf).
Qed.

End RiskFactorFacts.

(** X18.  [analyze_risk_factors] returns at most six factors, each with a
    score from 40 to 90; a factor named "Age" is among them exactly when
    the age is above 40, and a factor named "Pre-existing condition"
    exactly when the disease field is not empty and is not "none" in any
    letter case. *)
Theorem risk_factors_are_one_of_each_kind_at_most :
  forall (text : string) (age : Z) (disease : string),
    let factors := PolicyFields.analyze_risk_factors text age disease in
    (List.length factors <= 6)%nat
    /\ Forall (fun f => (40 <= PolicyFields.score f <= 90)%Z) factors
    /\ (In "Age" (map PolicyFields.factor factors) <-> (40 < age)%Z)
    /\ (In "Pre-existing condition" (map PolicyFields.factor factors)
        <-> disease <> "" /\ Str.lower disease <> "none").
Proof.
  intros text age disease factors. subst factors.
  unfold PolicyFields.analyze_risk_factors.
  destruct (age_factor_kind age) as [A Aiff].
  destruct (disease_factor_kind disease) as [D Diff].
  pose proof (exclusion_factor_kind (Str.lower text)) as E.
  pose proof (waiting_factor_kind text) as W.
  pose proof (copay_factor_kind text) as C.
  pose proof (deductible_factor_kind text) as DD.
  set (a := PolicyFields.age_factor age) in *.
  set (d := PolicyFields.disease_factor disease) in *.
  set (e := PolicyFields.exclusion_factor (Str.lower text)) in *.
  set (w := PolicyFields.waiting_factor text) in *.
  set (c := PolicyFields.copay_factor text) in *.
  set (dd := PolicyFields.deductible_factor text) in *.
  clearbody a d e w c dd.
  split.
  { rewrite !length_app.
    destruct A as [A _], D as [D _], E as [E _], W as [W _], C as [C _],
      DD as [DD _]. lia. }
  split.
  { repeat (apply Forall_app; split); eapply factor_scores; eassumption. }
  assert (Hother : forall x names l,
             Expect.one_factor_of names l -> ~ In x names ->
             ~ In x (map PolicyFields.factor l)).
  { intros x names l H Hn Hin. apply Hn.
    apply (@factor_is_named names l x H Hin). }
  split.
  - rewrite <- Aiff. rewrite !map_app, !in_app_iff.
    split; [ | auto].
    intros [H | [H | [H | [H | [H | H]]]]]; [exact H | exfalso ..].
    + apply (Hother _ _ _ D) in H; [exact H | ]. cbn [In]. intros [X | []]; discriminate X.
    + apply (Hother _ _ _ E) in H; [exact H | ].
      cbn [In]. intros [X | [X | []]]; discriminate X.
    + apply (Hother _ _ _ W) in H; [exact H | ].
      cbn [In]. intros [X | [X | []]]; discriminate X.
    + apply (Hother _ _ _ C) in H; [exact H | ].
      cbn [In]. intros [X | [X | [X | []]]]; discriminate X.
    + apply (Hother _ _ _ DD) in H; [exact H | ].
      cbn [In]. intros [X | [X | []]]; discriminate X.
  - rewrite <- Diff. rewrite !map_app, !in_app_iff.
    split; [ | auto].
    intros [H | [H | [H | [H | [H | H]]]]]; [exfalso | exact H | exfalso ..].
    + apply (Hother _ _ _ A) in H; [exact H | ]. cbn [In]. intros [X | []]; discriminate X.
    + apply (Hother _ _ _ E) in H; [exact H | ].
      cbn [In]. intros [X | [X | []]]; discriminate X.
    + apply (Hother _ _ _ W) in H; [exact H | ].
      cbn [In]. intros [X | [X | []]]; discriminate X.
    + apply (Hother _ _ _ C) in H; [exact H | ].
      cbn [In]. intros [X | [X | [X | []]]]; discriminate X.
    + apply (Hother _ _ _ DD) in H; [exact H | ].
      cbn [In]. intros [X | [X | []]]; discriminate X.
Qed.

(* ================================================================= *)
(** ** The upload check and the detected type *)

Section UploadFacts.

Import Routes.

Lemma contains_point (c : ascii) (s : string) :
  Str.contains "." (String c s) = (Ascii.eqb "." c || Str.contains "." s)%bool.
Proof.
  cbn [Str.contains Str.startswith].
  destruct s; rewrite andb_true_r; reflexivity.
Qed.

Lemma contains_point_empty : Str.contains "." "" = false.
Proof. reflexivity. Qed.

Lemma point_in_the_middle (stem ext : string) :
  Str.contains "." (stem ++ "." ++ ext) = true.
Proof.
  induction stem as [ | c stem IH].
  - cbn [append]. rewrite contains_point. reflexivity.
  - cbn [append]. rewrite contains_point.
    cbn [append] in IH. rewrite IH. apply orb_true_r.
Qed.

Lemma rsplit1_spec (s : string) :
  (Str.contains "." s = true ->
   exists stem ext,
     rsplit1 "." s = [stem; ext] /\ s = stem ++ "." ++ ext
     /\ Str.contains "." ext = false)
  /\ (Str.contains "." s = false -> rsplit1 "." s = [s]).
Proof.
  induction s as [ | c s [IHt IHf]].
  - split; [rewrite contains_point_empty; discriminate | reflexivity].
  - rewrite contains_point. cbn [rsplit1].
    destruct (Str.contains "." s) eqn:E.
    + rewrite orb_true_r. split; [ | discriminate].
      intros _. destruct (IHt eq_refl) as (stem & ext & -> & -> & Hext).
      exists (String c stem), ext. auto.
    + rewrite orb_false_r, (IHf eq_refl).
      destruct (Ascii.eqb c ".") eqn:Ec.
      * apply Ascii.eqb_eq in Ec. subst c. cbn [Ascii.eqb]. split; [ | discriminate].
        intros _. exists "", s. auto.
      * assert (En : Ascii.eqb "." c = false).
        { apply Ascii.eqb_neq. apply Ascii.eqb_neq in Ec. congruence. }
        rewrite En. split; [discriminate | reflexivity].
Qed.

Lemma extension_is_unique (stem stem' ext ext' : string) :
  stem ++ "." ++ ext = stem' ++ "." ++ ext' ->
  Str.contains "." ext = false -> Str.contains "." ext' = false ->
  ext = ext'.
Proof.
  revert stem'. induction stem as [ | c stem IH]; intros [ | c' stem'];
    cbn [append]; intros H H1 H2.
  - injection H as H. exact H.
  - injection H as _ H. rewrite H in H1.
    pose proof (point_in_the_middle stem' ext') as P. cbn [append] in P.
    rewrite P in H1. discriminate H1.
  - injection H as _ H. rewrite <- H in H2.
    pose proof (point_in_the_middle stem ext) as P. cbn [append] in P.
    rewrite P in H2. discriminate H2.
  - injection H as _ H. apply (IH stem' H H1 H2).
Qed.

End UploadFacts.

(** X19.  [allowed_file] always answers (its index [1] is never out of
    range), and it accepts a file name exactly when the name has a point
    and what follows its last point is "pdf" in some letter case; so
    "a.pdf.exe" is refused and "a.exe.PDF" accepted. *)
Theorem allowed_file_reads_the_last_extension :
  forall filename : string,
  exists allowed,
    Routes.allowed_file filename = Some allowed
    /\ (allowed = true <->
        exists ext, Expect.extension_of filename ext /\ Str.lower ext = "pdf").
Proof.
  intros filename. unfold Routes.allowed_file.
  destruct (rsplit1_spec filename) as [Ht Hf].
  destruct (Str.contains "." filename) eqn:E.
  - destruct (Ht eq_refl) as (stem & ext & -> & Efile & Hext).
    cbn [nth_error]. eexists. split; [reflexivity | ].
    unfold Routes.ALLOWED_EXTENSIONS, Str.mem. cbn [existsb].
    rewrite orb_false_r, String.eqb_eq. split.
    + intros H. exists ext. split; [ | exact H]. exists stem. auto.
    + intros (ext' & (stem' & Efile' & Hext') & H).
      rewrite Efile in Efile'.
      rewrite (extension_is_unique _ _ _ _ Efile' Hext Hext'). exact H.
  - exists false. split; [reflexivity | ]. split; [discriminate | ].
    intros (ext & (stem & Efile & _) & _).
    rewrite Efile, point_in_the_middle in E. discriminate E.
Qed.

Section DetectionFacts.

Import Routes.
Local Open Scope Z_scope.

(** The fold of [max]: the element kept is the first of the greatest. *)
Lemma max_fold_spec (A : Type) (key : A -> Z) (l : list A) :
  forall (pre : list A) (best : A) (mid : list A),
    (forall y, In y pre -> key y < key best) ->
    (forall y, In y mid -> key y <= key best) ->
    exists pre' best' post,
      (pre ++ best :: mid ++ l = pre' ++ best' :: post)%list
      /\ fold_left (fun b y => if key b <? key y then y else b) l best = best'
      /\ (forall y, In y pre' -> key y < key best')
      /\ (forall y, In y post -> key y <= key best').
Proof.
  induction l as [ | y l IH]; intros pre best mid Hpre Hmid; cbn [fold_left].
  - exists pre, best, mid. rewrite app_nil_r. auto.
  - destruct (key best <? key y) eqn:E.
    + apply Z.ltb_lt in E.
      destruct (IH (pre ++ best :: mid)%list y []) as (pre' & b & post & E1 & R).
      * intros z Hz. apply in_app_iff in Hz.
        destruct Hz as [Hz | [<- | Hz]];
          [specialize (Hpre z Hz) | | specialize (Hmid z Hz)]; lia.
      * intros z [].
      * exists pre', b, post. split; [ | exact R].
        rewrite <- E1. rewrite <- !app_assoc. reflexivity.
    + apply Z.ltb_ge in E.
      destruct (IH pre best (mid ++ [y])%list Hpre) as (pre' & b & post & E1 & R).
      * intros z Hz. apply in_app_iff in Hz.
        destruct Hz as [Hz | [<- | []]]; [apply Hmid; exact Hz | exact E].
      * exists pre', b, post. split; [ | exact R].
        rewrite <- E1. rewrite <- !app_assoc. reflexivity.
Qed.

Lemma max_by_spec (A : Type) (key : A -> Z) (l : list A) (best : A) :
  max_by key l = Some best ->
  exists pre post,
    l = (pre ++ best :: post)%list
    /\ (forall y, In y pre -> key y < key best)
    /\ (forall y, In y post -> key y <= key best).
Proof.
  unfold max_by. destruct l as [ | x l]; [discriminate | ].
  intros H. injection H as H.
  destruct (@max_fold_spec A key l [] x []) as (pre & b & post & E & R & P1 & P2);
    [intros y [] | intros y [] | ].
  rewrite H in R. subst b. exists pre, post. auto.
Qed.

Lemma type_keywords_distinct : NoDup (map fst type_keywords).
Proof. cbn [map fst type_keywords]. distinct_literals. Qed.

Lemma type_scores_entries (text_lower : string) :
  type_scores text_lower
  = map (fun e => (fst e, RiskPredictor.count_words text_lower (snd e)))
        type_keywords.
Proof.
  unfold type_scores.
  rewrite (@fold_dict_set Z (list string)
             (RiskPredictor.count_words text_lower) type_keywords [])
    by exact type_keywords_distinct.
  reflexivity.
Qed.

End DetectionFacts.

(** X20.  The detected type of the analysis route is "Unknown" when no
    keyword of the four lists occurs in the lower-cased text; otherwise it
    is the type whose keywords occur most often, and of several such types
    the one listed first: every type listed before it has a strictly lower
    count, every type listed after it a count that is not higher.  The
    look-up of the maximum never fails. *)
Theorem detected_type_is_the_first_highest_count :
  forall text : string,
    let scores := Routes.type_scores (Str.lower text) in
    ((forall name words w,
         In (name, words) Routes.type_keywords -> In w words ->
         Str.contains w (Str.lower text) = false)
     /\ Routes.detected_type text = Some "Unknown")
    \/ exists pre name score post,
         scores = (pre ++ (name, score) :: post)%list
         /\ (0 < score)%Z
         /\ (forall e, In e pre -> (snd e < score)%Z)
         /\ (forall e, In e post -> (snd e <= score)%Z)
         /\ Routes.detected_type text = Some name.
Proof.
  intros text scores. subst scores. unfold Routes.detected_type.
  set (s := Str.lower text).
  assert (Hne : exists e rest, Routes.type_scores s = e :: rest).
  { rewrite type_scores_entries. cbn [map Routes.type_keywords]. eauto. }
  destruct Hne as (e0 & rest0 & Hne).
  destruct (Routes.max_by (fun v : Z => v) (map snd (Routes.type_scores s)))
    as [top | ] eqn:Etop; [ | rewrite Hne in Etop; discriminate Etop].
  apply max_by_spec in Etop.
  destruct Etop as (vpre & vpost & Ev & Vpre & Vpost).
  assert (Hall : forall e, In e (Routes.type_scores s) -> (snd e <= top)%Z).
  { intros e He. apply (in_map snd) in He. rewrite Ev in He.
    apply in_app_iff in He. destruct He as [He | [<- | He]];
      [specialize (Vpre _ He) | | specialize (Vpost _ He)]; lia. }
  destruct (top >? 0)%Z eqn:Epos.
  - right. apply Z.gtb_lt in Epos.
    destruct (Routes.max_by snd (Routes.type_scores s)) as [[name score] | ] eqn:Eb;
      [ | rewrite Hne in Eb; discriminate Eb].
    apply max_by_spec in Eb. destruct Eb as (pre & post & Es & Ppre & Ppost).
    exists pre, name, score, post. cbn [snd] in Ppre, Ppost.
    split; [exact Es | ]. split; [ | auto].
    assert (Hin : In top (map snd (Routes.type_scores s)))
      by (rewrite Ev; apply in_app_iff; right; left; reflexivity).
    apply in_map_iff in Hin. destruct Hin as (e & Ee & He).
    rewrite Es in He. apply in_app_iff in He.
    destruct He as [He | [<- | He]];
      [specialize (Ppre _ He) | cbn [snd] in Ee | specialize (Ppost _ He)]; lia.
  - left. split; [ | reflexivity].
    intros name words w Hin Hw.
    assert (Hz : RiskPredictor.count_words s words = 0%Z).
    { pose proof (count_words_nonneg s words).
      assert (He : In (name, RiskPredictor.count_words s words)
                      (Routes.type_scores s)).
      { rewrite type_scores_entries.
        apply (in_map (fun e => (fst e, RiskPredictor.count_words s (snd e)))
                      _ _ Hin). }
      specialize (Hall _ He). cbn [snd] in Hall.
      assert (top <= 0)%Z by (rewrite Z.gtb_ltb in Epos; apply Z.ltb_ge in Epos; lia).
      lia. }
    apply (proj1 (count_words_zero s words) Hz w Hw).
Qed.

(* ================================================================= *)
(** ** Comparison and statistics of stored policies *)

Section ComparisonFacts.

Import Routes.
Local Open Scope Q_scope.

Lemma qltb_true (a b : Q) : qltb a b = true <-> a < b.
Proof.
  unfold qltb. rewrite negb_true_iff. split.
  - intros H. apply Qnot_le_lt. intros Hle.
    apply Qle_bool_iff in Hle. congruence.
  - intros H. destruct (Qle_bool b a) eqn:E; [ | reflexivity].
    apply Qle_bool_iff in E. exfalso. apply (Qlt_not_le _ _ H E).
Qed.

Lemma qltb_false (a b : Q) : qltb a b = false <-> b <= a.
Proof.
  unfold qltb. rewrite negb_false_iff. apply Qle_bool_iff.
Qed.

(** The fold of [min]: the element kept is the first of the least. *)
Lemma min_fold_spec (A : Type) (key : A -> Q) (l : list A) :
  forall (pre : list A) (best : A) (mid : list A),
    (forall y, In y pre -> key best < key y) ->
    (forall y, In y mid -> key best <= key y) ->
    exists pre' best' post,
      (pre ++ best :: mid ++ l = pre' ++ best' :: post)%list
      /\ fold_left (fun b y => if qltb (key y) (key b) then y else b) l best
         = best'
      /\ (forall y, In y pre' -> key best' < key y)
      /\ (forall y, In y post -> key best' <= key y).
Proof.
  induction l as [ | y l IH]; intros pre best mid Hpre Hmid; cbn [fold_left].
  - exists pre, best, mid. rewrite app_nil_r. auto.
  - destruct (qltb (key y) (key best)) eqn:E.
    + apply qltb_true in E.
      destruct (IH (pre ++ best :: mid)%list y []) as (pre' & b & post & E1 & R).
      * intros z Hz. apply in_app_iff in Hz.
        destruct Hz as [Hz | [<- | Hz]];
          [specialize (Hpre z Hz) | | specialize (Hmid z Hz)]; lra.
      * intros z [].
      * exists pre', b, post. split; [ | exact R].
        rewrite <- E1. rewrite <- !app_assoc. reflexivity.
    + apply qltb_false in E.
      destruct (IH pre best (mid ++ [y])%list Hpre) as (pre' & b & post & E1 & R).
      * intros z Hz. apply in_app_iff in Hz.
        destruct Hz as [Hz | [<- | []]]; [apply Hmid; exact Hz | exact E].
      * exists pre', b, post. split; [ | exact R].
        rewrite <- E1. rewrite <- !app_assoc. reflexivity.
Qed.

Lemma min_by_q_spec (A : Type) (key : A -> Q) (x : A) (l : list A) :
  exists pre best post,
    min_by_q key (x :: l) = Ok best
    /\ (x :: l = pre ++ best :: post)%list
    /\ (forall y, In y pre -> key best < key y)
    /\ (forall y, In y post -> key best <= key y).
Proof.
  unfold min_by_q.
  destruct (@min_fold_spec A key l [] x []) as (pre & b & post & E & R & P1 & P2);
    [intros y [] | intros y [] | ].
  exists pre, b, post. rewrite R. auto.
Qed.

Lemma max_by_q_bound (x : Q) (l : list Q) :
  exists hi, max_by_q (fun v => v) (x :: l) = Ok hi
             /\ forall y, In y (x :: l) -> y <= hi.
Proof.
  unfold max_by_q. eexists. split; [reflexivity | ].
  assert (G : forall l best y,
             In y (best :: l) ->
             y <= fold_left (fun b z => if qltb b z then z else b) l best).
  { clear. induction l as [ | z l IH]; intros best y Hy; cbn [fold_left].
    - destruct Hy as [<- | []]. apply Qle_refl.
    - destruct (qltb best z) eqn:E.
      + apply qltb_true in E. destruct Hy as [<- | Hy].
        * apply (Qle_trans _ z); [apply Qlt_le_weak; exact E | ].
          apply IH. left. reflexivity.
        * apply IH. exact Hy.
      + apply qltb_false in E. destruct Hy as [<- | [<- | Hy]].
        * apply IH. left. reflexivity.
        * apply (Qle_trans _ best); [exact E | apply IH; left; reflexivity].
        * apply IH. right. exact Hy. }
  apply G.
Qed.

Lemma min_by_q_map (A : Type) (key : A -> Q) (x : A) (l : list A) :
  min_by_q (fun v => v) (map key (x :: l))
  = match min_by_q key (x :: l) with
    | Ok best => Ok (key best)
    | Raise e => Raise e
    end.
Proof.
  unfold min_by_q. cbn [map]. f_equal.
  revert x. induction l as [ | y l IH]; intros x; cbn [map fold_left];
    [reflexivity | ].
  destruct (qltb (key y) (key x)); apply IH.
Qed.

Lemma average_of_some (x : Z) (l : list Z) :
  exists a, average (x :: l) = Ok a.
Proof.
  unfold average. eexists. apply py_div_nonzero.
  intros H. cbn [List.length] in H.
  assert (Hpos : 0 < inject_Z (Z.of_nat (S (List.length l)))).
  { change 0 with (inject_Z 0). rewrite <- Zlt_Qlt. lia. }
  rewrite H in Hpos. apply (Qlt_irrefl 0 Hpos).
Qed.

Variable get_policy_by_id : string -> option stored_policy.
Variable str_float : Q -> string.

Lemma compare_selected_spec (x : stored_policy) (l : list stored_policy) :
  exists c pre best post,
    compare_selected str_float (x :: l) = Ok c
    /\ cmp_policies c = x :: l
    /\ (x :: l = pre ++ best :: post)%list
    /\ rec_policy_id (cmp_recommendation c) = sp_id best
    /\ min_overall (cmp_metrics c) = overall best
    /\ (forall p, In p pre -> overall best < overall p)
    /\ (forall p, In p post -> overall best <= overall p)
    /\ (forall p, In p (x :: l) -> overall p <= max_overall (cmp_metrics c)).
Proof.
  unfold compare_selected.
  destruct (average_of_some
              (PolicyAnalyzer.coverage_risk (sp_risk_scores x))
              (map (fun p => PolicyAnalyzer.coverage_risk (sp_risk_scores p)) l))
    as (a1 & E1).
  destruct (average_of_some
              (PolicyAnalyzer.cost_risk (sp_risk_scores x))
              (map (fun p => PolicyAnalyzer.cost_risk (sp_risk_scores p)) l))
    as (a2 & E2).
  destruct (average_of_some
              (PolicyAnalyzer.delay_risk (sp_risk_scores x))
              (map (fun p => PolicyAnalyzer.delay_risk (sp_risk_scores p)) l))
    as (a3 & E3).
  cbn [map] in *. rewrite E1, E2, E3. cbn [bind].
  change (overall x :: map overall l) with (map overall (x :: l)).
  rewrite min_by_q_map.
  destruct (min_by_q_spec overall x l) as (pre & best & post & Eb & Es & P1 & P2).
  rewrite Eb. cbn [bind].
  destruct (max_by_q_bound (overall x) (map overall l)) as (hi & Eh & Hhi).
  cbn [map]. rewrite Eh. cbn [bind].
  eexists. exists pre, best, post. split; [reflexivity | ].
  cbn [cmp_policies cmp_recommendation rec_policy_id cmp_metrics min_overall
       max_overall].
  repeat split; auto.
  intros p Hp. apply Hhi. apply (in_map overall (x :: l) p Hp).
Qed.

End ComparisonFacts.


(** X22.  [compare_policies] does not look for repeated ids: a request
    that lists the id of one stored policy twice is answered with a
    comparison of the policy with itself, which recommends it. *)
Theorem a_policy_is_compared_with_itself :
  forall (get_policy_by_id : string -> option Routes.stored_policy)
         (str_float : Q -> string) (policy_id : string)
         (policy : Routes.stored_policy),
    get_policy_by_id policy_id = Some policy ->
    exists c,
      Routes.compare_policies get_policy_by_id str_float [policy_id; policy_id]
      = Routes.Compared c
      /\ Routes.cmp_policies c = [policy; policy]
      /\ Routes.rec_policy_id (Routes.cmp_recommendation c)
         = Routes.sp_id policy.
Proof.
  intros get str_float policy_id policy H.
  unfold Routes.compare_policies, Routes.select.
  cbn [List.length Nat.ltb Nat.leb flat_map]. rewrite H.
  cbn [app List.length Nat.ltb Nat.leb].
  destruct (compare_selected_spec str_float policy [policy])
    as (c & pre & best & post & Ec & H1 & H2 & H3 & _).
  rewrite Ec. exists c. split; [reflexivity | ]. split; [exact H1 | ].
  rewrite H3. f_equal.
  assert (Hin : In best [policy; policy])
    by (rewrite H2; apply in_app_iff; right; left; reflexivity).
  destruct Hin as [<- | [<- | []]]; reflexivity.
Qed.

Lemma a_policy_is_compared_with_itself_witness :
  exists c,
    Routes.compare_policies
      (Expect.only_policy (Expect.sample_policy "0123456789abcdef" (63 # 2)))
      (fun _ => "31.5") ["0123456789abcdef"; "0123456789abcdef"]
    = Routes.Compared c
    /\ Routes.cmp_policies c
       = [Expect.sample_policy "0123456789abcdef" (63 # 2);
          Expect.sample_policy "0123456789abcdef" (63 # 2)]
    /\ Routes.rec_policy_id (Routes.cmp_recommendation c) = "0123456789abcdef".
Proof.
  exact (@a_policy_is_compared_with_itself
           (Expect.only_policy (Expect.sample_policy "0123456789abcdef" (63 # 2)))
           (fun _ => "31.5") "0123456789abcdef"
           (Expect.sample_policy "0123456789abcdef" (63 # 2)) eq_refl).
Defined.

Section StatisticsFacts.

Import Routes.
Local Open Scope Z_scope.

Lemma increment_total (key : string) (d : dict Z) :
  Num.zsum (map snd (increment key d)) = Num.zsum (map snd d) + 1.
Proof.
  unfold increment, dict_get.
  induction d as [ | [k v] d IH]; cbn [dict_find PolicyAnalyzer.dict_set].
  - cbn. lia.
  - destruct (String.eqb key k) eqn:E.
    + cbn [map snd Num.zsum]. lia.
    + cbn [map snd Num.zsum]. rewrite IH. lia.
Qed.

Lemma increment_keys (key : string) (d : dict Z) :
  In key (map fst d) -> map fst (increment key d) = map fst d.
Proof.
  unfold increment. generalize (dict_get key 0 d + 1). intros v.
  induction d as [ | [k w] d IH]; cbn [map fst In PolicyAnalyzer.dict_set];
    [intros [] | ].
  destruct (String.eqb key k) eqn:E; [reflexivity | ].
  intros [H | H]; [subst k; rewrite String.eqb_refl in E; discriminate E | ].
  cbn [map fst]. rewrite (IH H). reflexivity.
Qed.

Lemma bucket_is_a_label (risk : Q) :
  In (bucket risk) (map fst empty_distribution).
Proof.
  unfold bucket. cbn [map fst empty_distribution In].
  destruct (Qle_bool risk 30); [tauto | ].
  destruct (Qle_bool risk 60); [tauto | ].
  destruct (Qle_bool risk 80); tauto.
Qed.

Lemma fold_increment_total (A : Type) (key : A -> string) (l : list A) :
  forall d,
    Num.zsum (map snd (fold_left (fun acc x => increment (key x) acc) l d))
    = Num.zsum (map snd d) + Z.of_nat (List.length l).
Proof.
  induction l as [ | x l IH]; intros d; cbn [fold_left List.length]; [lia | ].
  rewrite IH, increment_total. lia.
Qed.

Lemma fold_increment_nodup (A : Type) (key : A -> string) (l : list A) :
  forall d,
    NoDup (map fst d) ->
    NoDup (map fst (fold_left (fun acc x => increment (key x) acc) l d)).
Proof.
  induction l as [ | x l IH]; intros d H; cbn [fold_left]; [exact H | ].
  apply IH. unfold increment. apply dict_set_nodup. exact H.
Qed.

Lemma fold_bucket_keys (l : list stored_policy) :
  forall d,
    map fst d = map fst empty_distribution ->
    map fst (fold_left (fun acc p => increment (bucket (overall p)) acc) l d)
    = map fst empty_distribution.
Proof.
  induction l as [ | x l IH]; intros d H; cbn [fold_left]; [exact H | ].
  apply IH. rewrite increment_keys; [exact H | ].
  rewrite H. apply bucket_is_a_label.
Qed.

End StatisticsFacts.

(** X23.  In the statistics of [policy_stats] every policy is counted
    once in the risk distribution and once in the type distribution: the
    counts of the four risk classes add up to [total_analyzed], and so do
    the counts of the policy types; the four risk classes are always
    listed, no type is listed twice, and at most five policies are shown
    as recent activity. *)
Theorem every_policy_is_counted_once :
  forall policies : list Routes.stored_policy,
    let stats := Routes.policy_stats policies in
    Routes.total_analyzed stats = Z.of_nat (List.length policies)
    /\ Num.zsum (map snd (Routes.risk_distribution stats))
       = Routes.total_analyzed stats
    /\ Num.zsum (map snd (Routes.policy_types stats))
       = Routes.total_analyzed stats
    /\ map fst (Routes.risk_distribution stats)
       = ["Low (0-30)"; "Moderate (31-60)"; "High (61-80)"; "Critical (81-100)"]
    /\ NoDup (map fst (Routes.policy_types stats))
    /\ (List.length (Routes.recent_activity stats) <= 5)%nat.
Proof.
  intros policies. cbv zeta. unfold Routes.policy_stats.
  destruct policies as [ | p rest] eqn:E.
  - cbn. repeat split; try reflexivity; [constructor | lia].
  - rewrite <- E. clear E p rest.
    cbn [Routes.total_analyzed Routes.risk_distribution Routes.policy_types
         Routes.recent_activity].
    split; [reflexivity | ].
    split; [rewrite fold_increment_total; reflexivity | ].
    split; [rewrite fold_increment_total; reflexivity | ].
    split; [apply fold_bucket_keys; reflexivity | ].
    split; [apply fold_increment_nodup; constructor | ].
    rewrite length_map. apply firstn_le_length.
Qed.

(* ================================================================= *)
(** ** The stored policy as [get_policy_by_id] rebuilds it *)

(** One step of a sequence of fallible statements: the statement
    succeeded, since the sequence did. *)
Ltac bind_step E :=
  match goal with
  | |- Store.and_then ?c _ = _ -> _ =>
      destruct c eqn:E; cbn [Store.and_then]; [ | discriminate]
  end.

(** The key is none of the keys listed in [Hn]. *)
Ltac not_listed Hn :=
  let Hk := fresh "Hk" in
  intros Hk; apply Hn; rewrite Hk;
  repeat (first [left; reflexivity | right]).

Section StoreFacts.

Import Store.

Lemma dict_find_set_other (V : Type) (key other : string) (value : V)
      (d : dict V) :
  key <> other ->
  dict_find key (PolicyAnalyzer.dict_set other value d) = dict_find key d.
Proof.
  intros Hne. induction d as [ | [k v] d IH];
    cbn [PolicyAnalyzer.dict_set dict_find].
  - destruct (String.eqb key other) eqn:E; [ | reflexivity].
    apply String.eqb_eq in E. contradiction.
  - destruct (String.eqb other k) eqn:E.
    + apply String.eqb_eq in E. subst k. cbn [dict_find].
      destruct (String.eqb key other) eqn:E'; [ | reflexivity].
      apply String.eqb_eq in E'. contradiction.
    + cbn [dict_find]. rewrite IH. reflexivity.
Qed.

Lemma dict_find_combine_absent (V : Type) (key : string) (keys : list string) :
  ~ In key keys ->
  forall vals : list V, dict_find key (combine keys vals) = None.
Proof.
  induction keys as [ | k keys IH]; intros Hn vals; [reflexivity | ].
  destruct vals as [ | v vals]; [reflexivity | ].
  cbn [combine dict_find].
  destruct (String.eqb key k) eqn:E.
  - apply String.eqb_eq in E. subst k. exfalso. apply Hn. left. reflexivity.
  - apply IH. intros H. apply Hn. right. exact H.
Qed.

Variable json_loads : string -> outcome value.

(** A key that [parse_field] does not assign keeps its value. *)
Lemma parse_field_keeps (key other : string) (empty : value)
      (policy policy' : dict value) :
  key <> other ->
  parse_field json_loads other empty policy = Done policy' ->
  dict_find key policy' = dict_find key policy.
Proof.
  intros Hne. unfold parse_field, item, and_then.
  destruct (dict_find other policy) as [v | ]; [ | discriminate].
  destruct (truthy v).
  - destruct v as [ | n | x | s | items | entries]; try discriminate.
    destruct (json_loads s) as [parsed | e]; [ | discriminate].
    intros H. injection H as <-. apply dict_find_set_other. exact Hne.
  - intros H. injection H as <-. apply dict_find_set_other. exact Hne.
Qed.

(** A key of no JSON column and of none of the three rebuilt objects is
    in the policy what it was in the row. *)
Lemma rebuild_keeps (key : string) (policy policy' : dict value) :
  ~ In key ["benefits"; "exclusions"; "clauses"; "risks"; "coverage";
            "quality_metrics"; "sub_limits"; "risk_scores";
            "financial_details"; "key_dates"] ->
  rebuild json_loads policy = Done policy' ->
  dict_find key policy' = dict_find key policy.
Proof.
  intros Hn. cbn [In] in Hn.
  unfold rebuild.
  bind_step E1. bind_step E2. bind_step E3. bind_step E4. bind_step E5.
  bind_step E6. bind_step E7.
  do 4 bind_step ipattern:(?).
  do 4 bind_step ipattern:(?).
  do 2 bind_step ipattern:(?).
  intros H. injection H as <-.
  rewrite !dict_find_set_other by not_listed Hn.
  rewrite (fun H => @parse_field_keeps key _ _ _ _ H E7) by not_listed Hn.
  rewrite (fun H => @parse_field_keeps key _ _ _ _ H E6) by not_listed Hn.
  rewrite (fun H => @parse_field_keeps key _ _ _ _ H E5) by not_listed Hn.
  rewrite (fun H => @parse_field_keeps key _ _ _ _ H E4) by not_listed Hn.
  rewrite (fun H => @parse_field_keeps key _ _ _ _ H E3) by not_listed Hn.
  rewrite (fun H => @parse_field_keeps key _ _ _ _ H E2) by not_listed Hn.
  rewrite (fun H => @parse_field_keeps key _ _ _ _ H E1) by not_listed Hn.
  reflexivity.
Qed.

Lemma get_policy_by_id_row (db : table) (policy_id : string) (user_id : Z)
      (policy : dict value) :
  get_policy_by_id json_loads db policy_id user_id = Done (Some policy) ->
  exists r,
    In r db /\ where_id_and_user policy_id user_id r = true
    /\ rebuild json_loads (dict_of_row r) = Done policy.
Proof.
  unfold get_policy_by_id.
  destruct (find (where_id_and_user policy_id user_id) db) as [r | ] eqn:E;
    [ | discriminate].
  apply find_some in E. destruct E as [Hin Hw].
  unfold and_then.
  destruct (rebuild json_loads (dict_of_row r)) as [p | ] eqn:Er;
    [ | discriminate].
  intros H. injection H as <-. exists r. auto.
Qed.

Lemma unique_id_is_never_rebuilt (db : table) (policy_id : string)
      (user_id : Z) (policy : dict value) :
  get_policy_by_id json_loads db policy_id user_id = Done (Some policy) ->
  dict_find "unique_id" policy = None.
Proof.
  intros H. apply get_policy_by_id_row in H.
  destruct H as (r & _ & _ & Hr).
  rewrite (@rebuild_keeps "unique_id" (dict_of_row r) policy); [ | | exact Hr].
  - unfold dict_of_row. apply dict_find_combine_absent.
    unfold COLUMNS. cbn [In].
    intros H. repeat (destruct H as [H | H]; [discriminate H | ]). exact H.
  - cbn [In]. intros H. repeat (destruct H as [H | H]; [discriminate H | ]).
    exact H.
Qed.

End StoreFacts.

(** X24.  [generate_report] never sends a report: the policy
    [get_policy_by_id] rebuilds has the columns of the table and the three
    rebuilt objects as its keys, "unique_id" is none of them, and the
    footer reads [policy['unique_id']].  Whatever the table holds, and
    whatever the JSON parser and the PDF library do, the answer is the error
    404 "Policy not found" or an error 500; for a policy that is found and
    laid out, it is the error 500 with the message of the KeyError. *)
Theorem generate_report_never_sends_a_report :
  forall (json_loads : string -> Store.outcome Store.value)
         (layout : dict Store.value -> Store.outcome (list string))
         (build : list string -> Store.value -> Store.outcome string)
         (db : Store.table) (policy_id : string) (user_id : Z),
    let answer :=
      Store.generate_report json_loads layout build db policy_id user_id in
    (answer = Store.ReportError 404 "Policy not found"
     \/ exists msg, answer = Store.ReportError 500 msg)
    /\ forall policy story,
         Store.get_policy_by_id json_loads db policy_id user_id
         = Store.Done (Some policy) ->
         layout policy = Store.Done story ->
         answer = Store.ReportError 500 "'unique_id'".
Proof.
  intros json_loads layout build db policy_id user_id answer. subst answer.
  unfold Store.generate_report, Store.report_for.
  destruct (Store.get_policy_by_id json_loads db policy_id user_id)
    as [[policy | ] | e] eqn:E; cbn [Store.and_then].
  - pose proof (unique_id_is_never_rebuilt _ _ _ _ E) as Hu.
    destruct policy as [ | entry policy'] eqn:Ep.
    + split; [left; reflexivity | ].
      intros policy0 story H. injection H as <-. cbn [dict_find] in Hu.
      intros _. exfalso.
      apply get_policy_by_id_row in E. destruct E as (r & _ & Hw & Hr).
      assert (Hid : dict_find "id" (@nil (string * Store.value))
                    = dict_find "id" (Store.dict_of_row r)).
      { apply (@rebuild_keeps json_loads "id" (Store.dict_of_row r) [] ); [ | exact Hr].
        cbn [In]. intros H. repeat (destruct H as [H | H]; [discriminate H | ]).
        exact H. }
      unfold Store.where_id_and_user in Hw.
      destruct r as [ | v0 r]; [discriminate Hw | ].
      cbn in Hid. discriminate Hid.
    + rewrite <- Ep in *. clear Ep entry policy'.
      destruct (layout policy) as [story | e] eqn:El; cbn [Store.and_then].
      * unfold Store.item. rewrite Hu. cbn [Store.and_then Store.str_error].
        split; [right; eexists; reflexivity | ].
        intros policy0 story0 H _. reflexivity.
      * split; [right; eexists; reflexivity | ].
        intros policy0 story0 H Hl. injection H as <-.
        rewrite El in Hl. discriminate Hl.
  - split; [left; reflexivity | ]. intros policy story H. discriminate H.
  - split; [right; eexists; reflexivity | ]. intros policy story H. discriminate H.
Qed.

(** X25.  A policy [get_policy_by_id] returns is the requested one and
    belongs to the user who asked: its "id" is the id asked for and its
    "user_id" the user's, so a policy of another user is never returned. *)
Theorem a_policy_is_returned_to_its_owner_only :
  forall (json_loads : string -> Store.outcome Store.value)
         (db : Store.table) (policy_id : string) (user_id : Z)
         (policy : dict Store.value),
    Store.get_policy_by_id json_loads db policy_id user_id
    = Store.Done (Some policy) ->
    Expect.field "id" policy = Some (Store.VStr policy_id)
    /\ Expect.field "user_id" policy = Some (Store.VInt user_id).
Proof.
  intros json_loads db policy_id user_id policy H.
  apply get_policy_by_id_row in H. destruct H as (r & _ & Hw & Hr).
  unfold Expect.field.
  rewrite (@rebuild_keeps json_loads "id" (Store.dict_of_row r) policy);
    [ | cbn [In]; intros H; repeat (destruct H as [H | H]; [discriminate H | ]);
        exact H | exact Hr].
  rewrite (@rebuild_keeps json_loads "user_id" (Store.dict_of_row r) policy);
    [ | cbn [In]; intros H; repeat (destruct H as [H | H]; [discriminate H | ]);
        exact H | exact Hr].
  unfold Store.where_id_and_user in Hw. apply andb_true_iff in Hw.
  destruct Hw as [H0 H1].
  destruct r as [ | v0 [ | v1 r]]; cbn [nth] in H0, H1; try discriminate.
  unfold Store.dict_of_row, Store.COLUMNS. cbn [combine dict_find String.eqb].
  cbn.
  destruct v0; try discriminate. destruct v1; try discriminate.
  cbn [Store.is_text Store.is_int] in H0, H1.
  apply String.eqb_eq in H0. apply Z.eqb_eq in H1. subst. auto.
Qed.

Lemma a_policy_is_returned_to_its_owner_only_witness :
  exists policy,
    Store.get_policy_by_id Expect.no_json
                           [Expect.sample_row "fedcba9876543210" 8;
                            Expect.sample_row "0123456789abcdef" 7]
                           "0123456789abcdef" 7
    = Store.Done (Some policy)
    /\ Expect.field "id" policy = Some (Store.VStr "0123456789abcdef")
    /\ Expect.field "user_id" policy = Some (Store.VInt 7).
Proof.
  eexists. split; [reflexivity | ].
  exact (@a_policy_is_returned_to_its_owner_only
           Expect.no_json [Expect.sample_row "fedcba9876543210" 8;
                           Expect.sample_row "0123456789abcdef" 7]
           "0123456789abcdef" 7%Z _ eq_refl).
Defined.
